(** * installSynApps: manifest parser, path macros, injector and macro updater

    A shallow embedding of
      - scripts/read_install_config.py      (expand_module_path),
      - installSynApps/IO/config_parser.py  (ConfigParser),
      - installSynApps/IO/config_injector.py (ConfigInjector),
    together with the properties the design document states about them.

    Python [str] values are modelled as [string] (sequences of 8-bit
    characters; the text is taken to be ASCII, and the content of a file is
    its text after newline translation, so that lines end with LF).
    Exceptions are modelled by the [result] type, the file system by a finite
    map from path strings to nodes, and every function that touches the disk
    threads that map explicitly. The classes of installSynApps/DataModel are
    not part of the sources at hand; they are modelled from the design
    document and marked as such. *)

From Stdlib Require Import ZArith Ascii String List Lia Bool.
From stdpp Require Import base option list gmap strings.

Open Scope string_scope.

(** ** Python string primitives *)

Module PyStr.

(** [str.isspace] on the ASCII range: TAB, LF, VT, FF, CR, FS, GS, RS, US
    and the blank. *)
Definition is_space (c : ascii) : bool :=
  let n := nat_of_ascii c in
  (Nat.leb 9 n && Nat.leb n 13) || (Nat.leb 28 n && Nat.leb n 32).

(** [s.startswith(p)] *)
Fixpoint startswith (s p : string) : bool :=
  match p, s with
  | EmptyString, _ => true
  | String _ _, EmptyString => false
  | String b p', String a s' => Ascii.eqb a b && startswith s' p'
  end.

(** [sub in s] *)
Fixpoint contains (s sub : string) : bool :=
  startswith s sub ||
  match s with
  | EmptyString => false
  | String _ s' => contains s' sub
  end.

(** [s[n:]] *)
Fixpoint drop_str (n : nat) (s : string) : string :=
  match n, s with
  | O, _ => s
  | S _, EmptyString => EmptyString
  | S n', String _ s' => drop_str n' s'
  end.

(** [s.endswith(p)] *)
Fixpoint endswith (s p : string) : bool :=
  String.eqb s p ||
  match s with
  | EmptyString => false
  | String _ s' => endswith s' p
  end.

(** [s.lstrip()], [s.rstrip()], [s.strip()] *)
Fixpoint lstrip (s : string) : string :=
  match s with
  | EmptyString => EmptyString
  | String a s' => if is_space a then lstrip s' else s
  end.

Fixpoint rstrip (s : string) : string :=
  match s with
  | EmptyString => EmptyString
  | String a s' =>
      match rstrip s' with
      | EmptyString => if is_space a then EmptyString else String a EmptyString
      | r => String a r
      end
  end.

Definition strip (s : string) : string := rstrip (lstrip s).

(** Splitting at every character satisfying [p]; the result always has at
    least one piece, as [str.split(sep)] does. *)
Fixpoint split_by (p : ascii -> bool) (s : string) : list string :=
  match s with
  | EmptyString => [EmptyString]
  | String a s' =>
      if p a then EmptyString :: split_by p s'
      else match split_by p s' with
           | h :: t => String a h :: t
           | [] => [String a EmptyString]
           end
  end.

(** the number of characters of [s] at which [split_by p] cuts *)
Fixpoint cuts (p : ascii -> bool) (s : string) : nat :=
  match s with
  | EmptyString => 0
  | String a s' => (if p a then 1 else 0) + cuts p s'
  end.

(** [s.split(c)] for a one-character separator [c] *)
Definition split_chr (c : ascii) (s : string) : list string :=
  split_by (Ascii.eqb c) s.

(** [c.join(l)] for a one-character separator [c] *)
Fixpoint join_chr (c : ascii) (l : list string) : string :=
  match l with
  | [] => EmptyString
  | [x] => x
  | x :: t => x +:+ String c (join_chr c t)
  end.

Definition nonempty (s : string) : bool :=
  match s with EmptyString => false | _ => true end.

(** [s.split()]: split on runs of white space, no empty pieces *)
Definition split_ws (s : string) : list string :=
  filter (fun t => Is_true (nonempty t)) (split_by is_space s).

(** the number of occurrences of the character [c] *)
Fixpoint count_chr (c : ascii) (s : string) : nat :=
  match s with
  | EmptyString => 0
  | String a s' => (if Ascii.eqb c a then 1 else 0) + count_chr c s'
  end.

(** [re.sub('\t', ' ', s)] *)
Fixpoint tabs_to_spaces (s : string) : string :=
  match s with
  | EmptyString => EmptyString
  | String a s' =>
      String (if Ascii.eqb a "009" then " "%char else a) (tabs_to_spaces s')
  end.

(** [re.sub(' +', ' ', s)]: every maximal run of blanks becomes one blank;
    [after_blank] tells that the character before [s] was a blank. *)
Fixpoint squeeze_from (after_blank : bool) (s : string) : string :=
  match s with
  | EmptyString => EmptyString
  | String a s' =>
      if Ascii.eqb a " " then
        if after_blank then squeeze_from true s'
        else String " " (squeeze_from true s')
      else String a (squeeze_from false s')
  end.

Definition squeeze_spaces (s : string) : string := squeeze_from false s.

(** The successive results of [fp.readline()] until it returns the empty
    string: every line keeps its terminating newline, the last one may lack
    it. *)
Fixpoint readlines (s : string) : list string :=
  match s with
  | EmptyString => []
  | String a s' =>
      if Ascii.eqb a "010" then String a EmptyString :: readlines s'
      else match readlines s' with
           | h :: t => String a h :: t
           | [] => [String a EmptyString]
           end
  end.

(** the text after the first occurrence of [sub] in [s] ([None] if there
    is none) *)
Fixpoint after_sub (s sub : string) : option string :=
  if startswith s sub then Some (drop_str (String.length sub) s)
  else match s with
       | EmptyString => None
       | String _ s' => after_sub s' sub
       end.

End PyStr.

Import PyStr.

(** the newline character as a one-character string *)
Definition nl : string := String "010" EmptyString.

(** ** Exceptions *)

Inductive exn : Type :=
  | IndexError | KeyError | AttributeError | TypeError
  | FileNotFoundError | NotADirectoryError | IsADirectoryError
  | PermissionError.

Inductive result (A : Type) : Type :=
  | Ok (a : A)
  | Raise (e : exn).
Arguments Ok {A} a.
Arguments Raise {A} e.

Definition rbind {A B} (r : result A) (k : A -> result B) : result B :=
  match r with
  | Ok a => k a
  | Raise e => Raise e
  end.

Definition rmap {A B} (f : A -> B) (r : result A) : result B :=
  match r with
  | Ok a => Ok (f a)
  | Raise e => Raise e
  end.

Notation "'let?' x ':=' r 'in' k" := (rbind r (fun x => k))
  (at level 10, x pattern, r at level 100, k at level 200).

(** [l[i]] on a Python list *)
Definition index {A} (l : list A) (i : nat) : result A :=
  match l !! i with
  | Some a => Ok a
  | None => Raise IndexError
  end.

(** ** scripts/read_install_config.py *)

Module Script.

(** A value held in a module row of the script: a [str] or [None]
    ([expand_module_path] can fall off its end and return [None], which
    [module_from_line] then stores in the row). *)
Inductive pyval : Type :=
  | PNone
  | PStr (s : string).

Definition is_str (v : pyval) (s : string) : bool :=
  match v with
  | PStr t => String.eqb t s
  | PNone => false
  end.

(** [v + s] for a [str] [s] *)
Definition concat (v : pyval) (s : string) : result pyval :=
  match v with
  | PStr t => Ok (PStr (t +:+ s))
  | PNone => Raise TypeError
  end.

(** The loop
      [for module in current_modules:
           if module[0] == name: return module[2] + path.split(')')[1]]
    followed by the end of the function body (an implicit [return None]). *)
Fixpoint lookup_module_loop (name path : string)
    (current_modules : list (list pyval)) : result pyval :=
  match current_modules with
  | [] => Ok PNone
  | module :: rest =>
      let? m0 := index module 0 in
      if is_str m0 name then
        let? m2 := index module 2 in
        let? tail := index (split_chr ")" path) 1 in
        concat m2 tail
      else lookup_module_loop name path rest
  end.

Definition expand_module_path (path : string)
    (current_modules : list (list pyval)) (install_dir : string)
    : result pyval :=
  if contains path "$(INSTALL)" then
    let? tail := index (split_chr ")" path) 1 in
    Ok (PStr (install_dir +:+ tail))
  else if contains path "$(SUPPORT)" then
    lookup_module_loop "SUPPORT" path current_modules
  else if contains path "$(AREA_DETECTOR)" then
    lookup_module_loop "AREA_DETECTOR" path current_modules
  else Ok (PStr path).

(** [module_from_line]: the row is split at single blanks, its path
    (column 2) is expanded, [$(VERSION)] in column 3 is replaced by the
    version (column 1), and the URL and URL type are appended. *)
Definition module_from_line (line : string)
    (current_modules : list (list pyval)) (install_dir current_url
      url_type : string) : result (list pyval) :=
  let module := split_chr " " (squeeze_spaces line) in
  let? p := index module 2 in
  let? p' := expand_module_path p current_modules install_dir in
  let? r := index module 3 in
  let? r' :=
    if contains r "$(VERSION)" then
      let? pre := index (split_chr "$" r) 0 in
      let? v := index module 1 in
      let? post := index (split_chr ")" r) 1 in
      Ok (pre +:+ v +:+ post)
    else Ok r in
  Ok (<[3 := PStr r']> (<[2 := p']> (PStr <$> module))
        ++ [PStr current_url; PStr url_type])%list.

End Script.

(** ** The file system

    A flat map from path strings, compared as written, to nodes. A directory
    carries the list of its entry names in the order [os.listdir] returns
    them, and whether the process may create entries in it. Permission bits
    of regular files are outside the model. *)

Inductive node : Type :=
  | File (content : string)
  | Dir (writable : bool) (entries : list string).

Abbreviation fs := (gmap string node).

(** State and exception monad over the disk. An exception leaves the disk as
    it is at the point where it is raised. *)
Definition io (A : Type) : Type := fs -> result A * fs.

Definition ret {A} (a : A) : io A := fun d => (Ok a, d).
Definition raise {A} (e : exn) : io A := fun d => (Raise e, d).
Definition lift {A} (r : result A) : io A := fun d => (r, d).
Definition bind {A B} (m : io A) (k : A -> io B) : io B :=
  fun d => match m d with
           | (Ok a, d') => k a d'
           | (Raise e, d') => (Raise e, d')
           end.

Notation "'do' x '<-' m ';' k" := (bind m (fun x => k))
  (at level 10, x pattern, m at level 100, k at level 200).
Notation "'run' m ';' k" := (bind m (fun _ => k))
  (at level 10, m at level 100, k at level 200).

Module OS.

Definition path_exists (p : string) : io bool :=
  fun d => (Ok (bool_decide (is_Some (d !! p))), d).

Definition isdir (p : string) : io bool :=
  fun d => (Ok match d !! p with Some (Dir _ _) => true | _ => false end, d).

Definition isfile (p : string) : io bool :=
  fun d => (Ok match d !! p with Some (File _) => true | _ => false end, d).

Definition listdir (p : string) : io (list string) :=
  fun d => match d !! p with
           | Some (Dir _ es) => (Ok es, d)
           | Some (File _) => (Raise NotADirectoryError, d)
           | None => (Raise FileNotFoundError, d)
           end.

(** the last path component, and the path of the containing directory *)
Definition basename (p : string) : string :=
  List.last (split_chr "/" p) EmptyString.

Definition parent (p : string) : string :=
  match removelast (split_chr "/" p) with
  | [] => "."
  | [EmptyString] => "/"
  | l => join_chr "/" l
  end.

Definition add_entry (name : string) (es : list string) : list string :=
  if bool_decide (name ∈ es) then es else (es ++ [name])%list.

Definition remove_entry (name : string) (es : list string) : list string :=
  filter (fun e => e ≠ name) es.

(** Making a new node at a path that does not exist yet. *)
Definition create (p : string) (n : node) : io unit :=
  fun d => match d !! parent p with
           | Some (Dir true es) =>
               (Ok tt, <[p := n]> (<[parent p := Dir true (add_entry (basename p) es)]> d))
           | Some (Dir false _) => (Raise PermissionError, d)
           | Some (File _) => (Raise NotADirectoryError, d)
           | None => (Raise FileNotFoundError, d)
           end.

(** [os.mkdir(p)] where [p] is known not to exist *)
Definition mkdir (p : string) : io unit := create p (Dir true []).

(** [open(p, "r")] followed by reading the whole file *)
Definition read_file (p : string) : io string :=
  fun d => match d !! p with
           | Some (File c) => (Ok c, d)
           | Some (Dir _ _) => (Raise IsADirectoryError, d)
           | None => (Raise FileNotFoundError, d)
           end.

(** [open(p, "a")]: an existing file is kept, a missing one is created
    empty in its (existing) directory. *)
Definition open_append (p : string) : io unit :=
  fun d => match d !! p with
           | Some (File _) => (Ok tt, d)
           | Some (Dir _ _) => (Raise IsADirectoryError, d)
           | None =>
               if nonempty (basename p) then create p (File EmptyString) d
               else (Raise IsADirectoryError, d)
           end.

(** [open(p, "w")]: an existing file is truncated, a missing one is
    created empty. *)
Definition open_write (p : string) : io unit :=
  fun d => match d !! p with
           | Some (File _) => (Ok tt, <[p := File EmptyString]> d)
           | Some (Dir _ _) => (Raise IsADirectoryError, d)
           | None =>
               if nonempty (basename p) then create p (File EmptyString) d
               else (Raise IsADirectoryError, d)
           end.

(** [fp.write(s)] on a file opened for writing or appending at [p] *)
Definition write (p s : string) : io unit :=
  fun d => match d !! p with
           | Some (File c) => (Ok tt, <[p := File (c +:+ s)]> d)
           | _ => (Ok tt, d)
           end.

(** [os.rename(src, dst)] of a regular file: [dst] is replaced when it is
    a regular file. *)
Definition rename (src dst : string) : io unit :=
  fun d =>
    match d !! src, d !! parent src, d !! parent dst, d !! dst with
    | None, _, _, _ => (Raise FileNotFoundError, d)
    | Some _, _, None, _ => (Raise FileNotFoundError, d)
    | Some _, _, Some (File _), _ => (Raise NotADirectoryError, d)
    | Some _, _, _, Some (Dir _ _) => (Raise IsADirectoryError, d)
    | Some _, Some (Dir false _), _, _ => (Raise PermissionError, d)
    | Some _, _, Some (Dir false _), _ => (Raise PermissionError, d)
    | Some n, _, Some (Dir true _), _ =>
        let d1 := delete src d in
        let d2 := match d1 !! parent src with
                  | Some (Dir w es) =>
                      <[parent src := Dir w (remove_entry (basename src) es)]> d1
                  | _ => d1
                  end in
        let d3 := match d2 !! parent dst with
                  | Some (Dir w es) =>
                      <[parent dst := Dir w (add_entry (basename dst) es)]> d2
                  | _ => d2
                  end in
        (Ok tt, <[dst := n]> d3)
    end.

End OS.

(** ** scripts/read_install_config.py: reading the manifest *)

Module ScriptReader.

Import Script.

(** The local variables of [read_install_config_file]. *)
Record reader : Type := mkReader {
  current_url : string;
  url_type : string;
  install_location : string;
  current_modules : list (list pyval)
}.

(** The body of its [while line:] loop, for one line as [readline] returns
    it. The guard looks at the line before it is stripped. *)
Definition read_line (raw : string) (st : reader) : result reader :=
  if negb (startswith raw "#") && Nat.ltb 1 (String.length raw) then
    let line := strip raw in
    if contains line "INSTALL" && negb (contains line "$(INSTALL)") then
      let? loc := index (split_chr "=" line) 1 in
      Ok (mkReader (current_url st) (url_type st) loc (current_modules st))
    else if contains line "GIT_URL" then
      let? u := index (split_chr "=" line) 1 in
      Ok (mkReader u "GIT_URL" (install_location st) (current_modules st))
    else if contains line "WGET_URL" then
      let? u := index (split_chr "=" line) 1 in
      Ok (mkReader u "WGET_URL" (install_location st) (current_modules st))
    else
      let? module := module_from_line line (current_modules st)
                       (install_location st) (current_url st) (url_type st) in
      Ok (mkReader (current_url st) (url_type st) (install_location st)
            (current_modules st ++ [module])%list)
  else Ok st.

Fixpoint read_lines (lines : list string) (st : reader) : result reader :=
  match lines with
  | [] => Ok st
  | raw :: rest =>
      let? st' := read_line raw st in
      read_lines rest st'
  end.

(** [read_install_config_file]: the manifest is opened by its path relative
    to the scripts directory. *)
Definition read_install_config_file
    : io (list (list pyval) * string) :=
  do text <- OS.read_file "../configure/INSTALL_CONFIG";
  do st <- lift (read_lines (readlines text)
                   (mkReader EmptyString EmptyString EmptyString []));
  ret (current_modules st, install_location st).

End ScriptReader.

(** ** installSynApps/DataModel

    The two classes of the data model are used by the parser and the
    injector. *)

Module DataModel.

(** Modelled from the spec: the class InstallModule of
    DataModel/install_module.py; the constructor takes its arguments in
    the order the parser and the tests pass them, and the absolute path is
    derived when the module is added to a configuration. *)
Record InstallModule : Type := mkModule {
  name : string;
  version : string;
  rel_path : string;
  url_type : string;
  url : string;
  repository : string;
  clone : string;
  build : string;
  abs_path : option string
}.

Definition new_module (name version rel_path url_type url repository
    clone build : string) : InstallModule :=
  mkModule name version rel_path url_type url repository clone build None.

(** Modelled from the spec: an injector fragment held by a configuration:
    its name, its target link and its injectable contents. *)
Record InjectorFile : Type := mkInjector {
  inj_name : string;
  inj_contents : string;
  inj_target : string
}.

(** Modelled from the spec: the class InstallConfiguration of
    DataModel/install_config.py: the install root, the configure path,
    the modules in insertion order, the three well-known paths (unset until
    a module of the matching name is added), the injector fragments and the
    macro entries attached by the parser, and the architecture suffix read
    by the macro updater. *)
Record InstallConfiguration : Type := mkConfig {
  install_location : string;
  configure_path : string;
  modules : list InstallModule;
  base_path : option string;
  support_path : option string;
  ad_path : option string;
  injector_files : list InjectorFile;
  build_flags : list (list string);
  epics_arch : string
}.

Definition new_config (install_location configure_path : string)
    : InstallConfiguration :=
  mkConfig install_location configure_path [] None None None [] []
    EmptyString.

(** the absolute path of the first module called [n] that has one *)
Fixpoint module_path (n : string) (ms : list InstallModule)
    : option string :=
  match ms with
  | [] => None
  | m :: rest =>
      if String.eqb (name m) n then
        match abs_path m with
        | Some p => Some p
        | None => module_path n rest
        end
      else module_path n rest
  end.

(** the macro name a path refers to: the text between the first ["$("]
    and the next [")"] *)
Definition macro_of (path : string) : option string :=
  match after_sub path "$(" with
  | Some rest =>
      if contains rest ")" then List.head (split_chr ")" rest) else None
  | None => None
  end.

(** Modelled from the spec: path macro resolution (section 4.2),
    [resolve(raw_path, known_modules, install_root)]. The rules are tried
    in the order the spec lists them: [$(INSTALL)] gives the install root
    followed by what comes after the closing parenthesis; a macro naming an
    already resolved module gives that module's absolute path followed by
    the remainder; [$(VERSION)] is replaced by the version of the module
    the path belongs to, when there is one; any other path, with or without
    a macro, is returned as it is. *)
Definition resolve (raw_path : string) (known_modules : list InstallModule)
    (install_root : string) (own_version : option string) : string :=
  match macro_of raw_path with
  | Some macro =>
      let remainder :=
        default EmptyString (after_sub raw_path ("$(" +:+ macro +:+ ")")) in
      if String.eqb macro "INSTALL" then install_root +:+ remainder
      else match module_path macro known_modules with
           | Some p => p +:+ remainder
           | None =>
               match own_version with
               | Some v =>
                   if String.eqb macro "VERSION" then
                     default EmptyString
                       (List.head (split_chr "$" raw_path))
                       +:+ v +:+ remainder
                   else raw_path
               | None => raw_path
               end
           end
  | None => raw_path
  end.

Definition convert_path_abs (cfg : InstallConfiguration)
    (rel_path : string) : string :=
  resolve rel_path (modules cfg) (install_location cfg) None.

Definition set_once (current : option string) (p : string)
    : option string :=
  match current with
  | Some q => Some q
  | None => Some p
  end.

(** Modelled from the spec: [add_module] resolves the relative path of the
    module against the modules added before it, appends the module, and
    sets the well-known path that goes with the names [EPICS_BASE],
    [SUPPORT] and [AREA_DETECTOR] when it is not set yet. *)
Definition add_module (cfg : InstallConfiguration) (m : InstallModule)
    : InstallConfiguration :=
  let p := resolve (rel_path m) (modules cfg) (install_location cfg)
             (Some (version m)) in
  let m' := mkModule (name m) (version m) (rel_path m) (url_type m)
              (url m) (repository m) (clone m) (build m) (Some p) in
  let named n := String.eqb (name m) n in
  mkConfig (install_location cfg) (configure_path cfg)
    (modules cfg ++ [m'])
    (if named "EPICS_BASE" then set_once (base_path cfg) p
     else base_path cfg)
    (if named "SUPPORT" then set_once (support_path cfg) p
     else support_path cfg)
    (if named "AREA_DETECTOR" then set_once (ad_path cfg) p
     else ad_path cfg)
    (injector_files cfg) (build_flags cfg) (epics_arch cfg).

(** Modelled from the spec: [add_injector_file] attaches a fragment. *)
Definition add_injector_file (cfg : InstallConfiguration)
    (name contents link : string) : InstallConfiguration :=
  mkConfig (install_location cfg) (configure_path cfg) (modules cfg)
    (base_path cfg) (support_path cfg) (ad_path cfg)
    (injector_files cfg ++ [mkInjector name contents link])
    (build_flags cfg) (epics_arch cfg).

(** Modelled from the spec: [add_macros] attaches the entries of one macro
    file. *)
Definition add_macros (cfg : InstallConfiguration)
    (macros : list (list string)) : InstallConfiguration :=
  mkConfig (install_location cfg) (configure_path cfg) (modules cfg)
    (base_path cfg) (support_path cfg) (ad_path cfg)
    (injector_files cfg) (build_flags cfg ++ macros) (epics_arch cfg).

(** Modelled from the spec: [is_install_valid] (section 4.1, step 3):
    negative when the install root exists and is not writable, zero when
    it does not exist, positive otherwise. *)
Definition is_install_valid (cfg : InstallConfiguration) : io Z :=
  fun d => (Ok match d !! install_location cfg with
               | None => 0%Z
               | Some (Dir false _) => (-1)%Z
               | Some _ => 1%Z
               end, d).

End DataModel.

Import DataModel.

(** ** installSynApps/IO/config_parser.py *)

Module ConfigParser.

(** [parse_line_to_module]: tabs become blanks, runs of blanks collapse,
    the row is split at the blanks and its first six columns are read. *)
Definition parse_line_to_module (line current_url current_url_type : string)
    : result InstallModule :=
  let line := tabs_to_spaces line in
  let line := squeeze_spaces line in
  let module_components := split_chr " " line in
  let? name := index module_components 0 in
  let? version := index module_components 1 in
  let? rel_path := index module_components 2 in
  let? repository := index module_components 3 in
  let? clone := index module_components 4 in
  let? build := index module_components 5 in
  Ok (new_module name version rel_path current_url_type current_url
        repository clone build).

(** The local variables of [parse_install_config] that live across the
    iterations of its loop. *)
Record locals : Type := mkLocals {
  install_config : option InstallConfiguration;
  current_url : string;
  current_url_type : string;
  message : string
}.

(** What one iteration of the loop ends with: the next iteration, or a
    [return] out of the function. *)
Inductive flow : Type :=
  | Next (l : locals)
  | Return (r : option InstallConfiguration * string).

(** the guard [not line.startswith('#') and len(line) > 1] *)
Definition is_processed (line : string) : bool :=
  negb (startswith line "#") && Nat.ltb 1 (String.length line).

(** The branch taken for a line that starts with [INSTALL=]. *)
Definition install_directive (configure_path : string)
    (force_location : option string) (allow_illegal : bool)
    (line : string) (l : locals) : io flow :=
  let install_loc :=
    match force_location with
    | None => List.last (split_chr "=" line) EmptyString
    | Some loc => loc
    end in
  let cfg := new_config install_loc configure_path in
  let l := mkLocals (Some cfg) (current_url l) (current_url_type l)
             (message l) in
  do valid <- is_install_valid cfg;
  if (valid <? 0)%Z then
    if negb allow_illegal then ret (Return (None, "Permission Error"))
    else ret (Next (mkLocals (Some cfg) (current_url l)
                      (current_url_type l) "Permission Error"))
  else if (valid =? 0)%Z then
    fun d =>
      match OS.mkdir (install_location cfg) d with
      | (Raise FileNotFoundError, d') =>
          if negb allow_illegal then
            (Ok (Return (None, "Install filepath not valid")), d')
          else
            (Ok (Next (mkLocals (Some cfg) (current_url l)
                         (current_url_type l)
                         "Install filepath not valid")), d')
      | (Raise e, d') => (Raise e, d')
      | (Ok _, d') => (Ok (Next l), d')
      end
  else ret (Next l).

(** The body of the [while line:] loop, for one line as [readline]
    returns it. *)
Definition parse_line (configure_path : string)
    (force_location : option string) (allow_illegal : bool)
    (raw : string) (l : locals) : io flow :=
  let line := strip raw in
  if is_processed line then
    if startswith line "INSTALL=" then
      install_directive configure_path force_location allow_illegal line l
    else if startswith line "GIT_URL" || startswith line "WGET_URL" then
      lift (let? u := index (split_chr "=" line) 1 in
            let? t := index (split_chr "=" line) 0 in
            Ok (Next (mkLocals (install_config l) u t (message l))))
    else
      lift (let? install_module :=
              parse_line_to_module line (current_url l)
                (current_url_type l) in
            match install_config l with
            | Some cfg =>
                Ok (Next (mkLocals (Some (add_module cfg install_module))
                            (current_url l) (current_url_type l)
                            (message l)))
            | None => Raise AttributeError
            end)
  else ret (Next l).

Fixpoint parse_lines (configure_path : string)
    (force_location : option string) (allow_illegal : bool)
    (lines : list string) (l : locals) : io flow :=
  match lines with
  | [] => ret (Next l)
  | raw :: rest =>
      do f <- parse_line configure_path force_location allow_illegal raw l;
      match f with
      | Next l' =>
          parse_lines configure_path force_location allow_illegal rest l'
      | Return r => ret (Return r)
      end
  end.

(** The loop of [parse_injector_file] over the lines of a fragment:
    the [__TARGET_LOC__=] line gives the link, the other lines that are
    neither comments nor empty are concatenated. *)
Fixpoint injector_lines (lines : list string) (contents link : string)
    : result (string * string) :=
  match lines with
  | [] => Ok (contents, link)
  | line :: rest =>
      if negb (startswith line "#") && Nat.ltb 1 (String.length line) then
        if startswith line "__TARGET_LOC__=" then
          let? link' := index (split_chr "=" (strip line)) 1 in
          injector_lines rest contents link'
        else injector_lines rest (contents +:+ line) link
      else injector_lines rest contents link
  end.

Definition parse_injector_file (configure_path injector_file_name : string)
    (cfg : InstallConfiguration) : io InstallConfiguration :=
  do text <- OS.read_file
               (configure_path +:+ "/injectionFiles/" +:+ injector_file_name);
  do parsed <-
    lift (injector_lines (readlines text) EmptyString EmptyString);
  ret (add_injector_file cfg injector_file_name (fst parsed) (snd parsed)).

(** The loop of [parse_macro_file] over the tokens of a macro file. *)
Fixpoint macro_tokens (contents : list string) (macros : list (list string))
    : list (list string) :=
  match contents with
  | [] => macros
  | line :: rest =>
      if negb (startswith line "#") && Nat.ltb 1 (String.length line)
         && contains line "="
      then macro_tokens rest (macros ++ [split_chr "=" line])
      else macro_tokens rest macros
  end.

(** the entries [parse_macro_file] hands to [add_macros], for the text of
    a macro file *)
Definition macros_of_text (text : string) : list (list string) :=
  macro_tokens (split_ws text) [].

Definition parse_macro_file (configure_path macro_file_name : string)
    (cfg : InstallConfiguration) : io InstallConfiguration :=
  do text <- OS.read_file
               (configure_path +:+ "/macroFiles/" +:+ macro_file_name);
  ret (add_macros cfg (macros_of_text text)).

(** [for file in os.listdir(dir): if os.path.isfile(dir + file): ...] *)
Fixpoint for_regular_files (dir : string)
    (body : string -> InstallConfiguration -> io InstallConfiguration)
    (files : list string) (cfg : InstallConfiguration)
    : io InstallConfiguration :=
  match files with
  | [] => ret cfg
  | file :: rest =>
      do regular <- OS.isfile (dir +:+ file);
      if (regular : bool) then
        do cfg' <- body file cfg;
        for_regular_files dir body rest cfg'
      else for_regular_files dir body rest cfg
  end.

Definition read_injector_files (configure_path : string)
    (install_config : option InstallConfiguration)
    : io (option InstallConfiguration) :=
  match install_config with
  | None => ret None
  | Some cfg =>
      do files <- OS.listdir (configure_path +:+ "/injectionFiles");
      do cfg' <- for_regular_files (configure_path +:+ "/injectionFiles/")
                   (parse_injector_file configure_path) files cfg;
      ret (Some cfg')
  end.

Definition read_build_flags (configure_path : string)
    (install_config : option InstallConfiguration)
    : io (option InstallConfiguration) :=
  match install_config with
  | None => ret None
  | Some cfg =>
      do files <- OS.listdir (configure_path +:+ "/macroFiles");
      do cfg' <- for_regular_files (configure_path +:+ "/macroFiles/")
                   (parse_macro_file configure_path) files cfg;
      ret (Some cfg')
  end.

Definition parse_install_config (configure_path config_filename : string)
    (force_location : option string) (allow_illegal : bool)
    : io (option InstallConfiguration * string) :=
  do found <- OS.path_exists (configure_path +:+ "/" +:+ config_filename);
  if (found : bool) then
    do text <- OS.read_file (configure_path +:+ "/" +:+ config_filename);
    do f <- parse_lines configure_path force_location allow_illegal
              (readlines text)
              (mkLocals None EmptyString EmptyString EmptyString);
    match f with
    | Return r => ret r
    | Next l =>
        do c1 <- read_injector_files configure_path (install_config l);
        do c2 <- read_build_flags configure_path c1;
        ret (c2, message l)
    end
  else ret (None, "Configure Path not found").

(** The attribute [configure_path] of a parser: a [str], until
    [check_valid_config_path] stores the list that [rsplit] returns in it. *)
Inductive path_attribute : Type :=
  | PathStr (s : string)
  | PathList (l : list string).

(** [s.rsplit(c, 1)]: at most one cut, at the last [c] *)
Definition rsplit1 (c : ascii) (s : string) : list string :=
  match split_chr c s with
  | [piece] => [piece]
  | pieces => [join_chr c (removelast pieces); List.last pieces EmptyString]
  end.

(** [check_valid_config_path]: the result, and the attribute as the call
    leaves it. *)
Definition check_valid_config_path (configure_path : string)
    : io (bool * path_attribute) :=
  do found <- OS.path_exists configure_path;
  do directory <- OS.isdir configure_path;
  if (found : bool) && (directory : bool) then
    ret (true, PathStr configure_path)
  else
    do regular <- OS.isfile configure_path;
    if (found : bool) && (regular : bool) then
      ret (false, PathList (rsplit1 "/" configure_path))
    else ret (false, PathStr configure_path).

End ConfigParser.

(** ** installSynApps/IO/config_injector.py *)

Module ConfigInjector.

(** the attributes of a [ConfigInjector] object *)
Record t : Type := mkInjectorEngine {
  injector_file_links : gmap string string;
  path_to_configure : string;
  install_config : InstallConfiguration
}.

(** [__init__] *)
Definition init (path_to_configure : string)
    (install_config : InstallConfiguration) : t :=
  mkInjectorEngine
    (list_to_map [
       ("AD_RELEASE_CONFIG",
        "$(AREA_DETECTOR)/configure/RELEASE_PRODS.local");
       ("AUTOSAVE_CONFIG",
        "$(AREA_DETECTOR)/ADCore/iocBoot/commonPlugin_settings.req");
       ("MAKEFILE_CONFIG",
        "$(AREA_DETECTOR)/ADCore/ADApp/commonDriverMakefile");
       ("PLUGIN_CONFIG",
        "$(AREA_DETECTOR)/ADCore/iocBoot/commonPlugins.cmd")])
    path_to_configure install_config.

(** [d[k]] on a Python dict *)
Definition getitem (d : gmap string string) (k : string) : result string :=
  match d !! k with
  | Some v => Ok v
  | None => Raise KeyError
  end.

(** The loop of [get_injector_files] over the directory listing. The
    values of the dictionary are strings, so the test [!= None] holds
    whenever the lookup returns. *)
Fixpoint injector_files_loop (self : t) (files : list string)
    (injector_files : list string) : io (list string) :=
  match files with
  | [] => ret injector_files
  | file :: rest =>
      do regular <-
        OS.isfile (path_to_configure self +:+ "/injectionFiles/" +:+ file);
      if (regular : bool) then
        do _link <- lift (getitem (injector_file_links self) file);
        injector_files_loop self rest
          (injector_files ++
             [path_to_configure self +:+ "/injectionFiles/" +:+ file])
      else injector_files_loop self rest injector_files
  end.

Definition get_injector_files (self : t) : io (list string) :=
  do found <- OS.path_exists (path_to_configure self);
  do directory <- OS.isdir (path_to_configure self);
  if (found : bool) && (directory : bool) then
    do files <- OS.listdir (path_to_configure self +:+ "/injectionFiles");
    injector_files_loop self files []
  else ret [].

Definition get_injector_file_link (self : t) (injector_file_path : string)
    : result string :=
  let filename := List.last (split_chr "/" injector_file_path) EmptyString in
  getitem (injector_file_links self) filename.

Definition start_marker : string :=
  "# ------------The following was auto-generated by installSynApps-------"
  +:+ nl.

Definition end_marker : string :=
  "# --------------------------Auto-generated end----------------------"
  +:+ nl.

(** the lines of a fragment that [inject_to_file] copies *)
Fixpoint injected_lines (lines : list string) : string :=
  match lines with
  | [] => EmptyString
  | line :: rest =>
      if negb (startswith line "#") && Nat.ltb 1 (String.length line)
      then line +:+ injected_lines rest
      else injected_lines rest
  end.

(** [inject_to_file]. What is written through [target_fp] reaches the disk
    when the file object is closed or released, also when opening the
    fragment fails. *)
Definition inject_to_file (self : t) (injector_file_path : string)
    : io unit :=
  do target_path <- lift (get_injector_file_link self injector_file_path);
  let target_path := convert_path_abs (install_config self) target_path in
  run OS.open_append target_path;
  run OS.write target_path start_marker;
  do text <- OS.read_file injector_file_path;
  run OS.write target_path (injected_lines (readlines text));
  OS.write target_path end_marker.

(** *** update_macros *)

Definition macro_line (key value : string) : string :=
  key +:+ "=" +:+ value +:+ nl.

(** The loop [for macro in macro_replace_list] run for one line of the
    file. Each entry of the list is a list of strings of its own; the loop
    marks an entry it uses by appending ["DONE"] to it. The result is the
    list with its marks, the text written to the new file, and
    [wrote_line]. An entry too short for [macro[0]] or [macro[1]] raises
    [IndexError]. *)
Fixpoint scan_macros (line : string) (macro_replace_list : list (list string))
    (wrote_line : bool)
    : result (list (list string) * string * bool) :=
  match macro_replace_list with
  | [] => Ok ([], EmptyString, wrote_line)
  | macro :: rest =>
      let? key := index macro 0 in
      if contains line (key +:+ "=") && Nat.ltb (length macro) 3 then
        let? value := index macro 1 in
        let? (rest', written, wrote) := scan_macros line rest true in
        Ok ((macro ++ ["DONE"])%list :: rest',
            macro_line key value +:+ written, wrote)
      else
        let? (rest', written, wrote) := scan_macros line rest wrote_line in
        Ok (macro :: rest', written, wrote)
  end.

(** The [while line:] loop over the lines of the old file. *)
Fixpoint rewrite_lines (lines : list string)
    (macro_replace_list : list (list string))
    : result (list (list string) * string) :=
  match lines with
  | [] => Ok (macro_replace_list, EmptyString)
  | raw :: rest =>
      let line := strip raw in
      let? (macros, written, wrote_line) :=
        scan_macros line macro_replace_list false in
      let out :=
        if negb wrote_line && negb (startswith line "#") then
          written +:+ "#" +:+ line +:+ nl
        else if negb wrote_line then written +:+ line +:+ nl
        else written in
      let? (macros', out') := rewrite_lines rest macros in
      Ok (macros', out +:+ out')
  end.

(** The closing loop that writes the entries without a mark. *)
Fixpoint append_unused (macro_replace_list : list (list string))
    : result string :=
  match macro_replace_list with
  | [] => Ok EmptyString
  | macro :: rest =>
      if Nat.ltb (length macro) 3 then
        let? key := index macro 0 in
        let? value := index macro 1 in
        let? out := append_unused rest in
        Ok (macro_line key value +:+ out)
      else append_unused rest
  end.

(** What is written to the new file for the text of an old file, and the
    state of the list afterwards. *)
Definition rewrite_file (old_text : string)
    (macro_replace_list : list (list string))
    : result (list (list string) * string) :=
  let? (macros, body) := rewrite_lines (readlines old_text)
                            macro_replace_list in
  let? tail := append_unused macros in
  Ok (macros, body +:+ tail).

Definition eligible (self : t) (file : string) : bool :=
  endswith file (epics_arch (install_config self))
  || endswith file ".local" || negb (contains file ".").

Definition new_name (file : string) : string :=
  if startswith file "EXAMPLE_" then drop_str 8 file else file.

(** Python raises in the middle of these loops: what has been written up
    to that point is in the new file, and the entries marked up to that
    point keep their mark. The functions [..._trace] are the same loops
    with what they have done when they stop: the list with the marks made
    so far, the text written so far, and the exception that stopped them,
    if any. *)
Fixpoint scan_macros_trace (line : string)
    (macro_replace_list : list (list string)) (wrote_line : bool)
    : list (list string) * string * bool * option exn :=
  match macro_replace_list with
  | [] => ([], EmptyString, wrote_line, None)
  | macro :: rest =>
      match index macro 0 with
      | Raise e => (macro :: rest, EmptyString, wrote_line, Some e)
      | Ok key =>
          if contains line (key +:+ "=") && Nat.ltb (length macro) 3 then
            match index macro 1 with
            | Raise e => (macro :: rest, EmptyString, wrote_line, Some e)
            | Ok value =>
                match scan_macros_trace line rest true with
                | (rest', written, wrote, stop) =>
                    ((macro ++ ["DONE"])%list :: rest',
                     macro_line key value +:+ written, wrote, stop)
                end
            end
          else
            match scan_macros_trace line rest wrote_line with
            | (rest', written, wrote, stop) =>
                (macro :: rest', written, wrote, stop)
            end
      end
  end.

Fixpoint rewrite_lines_trace (lines : list string)
    (macro_replace_list : list (list string))
    : list (list string) * string * option exn :=
  match lines with
  | [] => (macro_replace_list, EmptyString, None)
  | raw :: rest =>
      let line := strip raw in
      match scan_macros_trace line macro_replace_list false with
      | (macros, written, _, Some e) => (macros, written, Some e)
      | (macros, written, wrote_line, None) =>
          let out :=
            if negb wrote_line && negb (startswith line "#") then
              written +:+ "#" +:+ line +:+ nl
            else if negb wrote_line then written +:+ line +:+ nl
            else written in
          match rewrite_lines_trace rest macros with
          | (macros', out', stop) => (macros', out +:+ out', stop)
          end
      end
  end.

Fixpoint append_unused_trace (macro_replace_list : list (list string))
    : string * option exn :=
  match macro_replace_list with
  | [] => (EmptyString, None)
  | macro :: rest =>
      if Nat.ltb (length macro) 3 then
        match index macro 0, index macro 1 with
        | Ok key, Ok value =>
            match append_unused_trace rest with
            | (out, stop) => (macro_line key value +:+ out, stop)
            end
        | Raise e, _ => (EmptyString, Some e)
        | _, Raise e => (EmptyString, Some e)
        end
      else append_unused_trace rest
  end.

Definition rewrite_file_trace (old_text : string)
    (macro_replace_list : list (list string))
    : list (list string) * string * option exn :=
  match rewrite_lines_trace (readlines old_text) macro_replace_list with
  | (macros, body, Some e) => (macros, body, Some e)
  | (macros, body, None) =>
      match append_unused_trace macros with
      | (tail, stop) => (macros, body +:+ tail, stop)
      end
  end.

(** what a loop returns or raises, given its trace *)
Definition outcome {A} (trace : A * option exn) : result A :=
  match trace with
  | (a, None) => Ok a
  | (_, Some e) => Raise e
  end.

(** The body of [for file in os.listdir(target_dir)]. The new file gets
    what the loops write until they end or raise; what has been written
    through [new_fp] reaches the disk when the file object is closed or
    released. The result is the caller's list with its marks when the turn
    ends normally; when it raises, the result is the exception, and the
    marks that the caller's list keeps are those of [rewrite_file_trace]. *)
Definition update_file (self : t) (target_dir file : string)
    (macro_replace_list : list (list string)) : io (list (list string)) :=
  do regular <- OS.isfile (target_dir +:+ "/" +:+ file);
  if (regular : bool) then
    run OS.rename (target_dir +:+ "/" +:+ file)
          (target_dir +:+ "/OLD_FILES/" +:+ file);
    do old_text <- OS.read_file (target_dir +:+ "/OLD_FILES/" +:+ file);
    if eligible self file then
      run OS.open_write (target_dir +:+ "/" +:+ new_name file);
      match rewrite_file_trace old_text macro_replace_list with
      | (macros, written, stop) =>
          run OS.write (target_dir +:+ "/" +:+ new_name file) written;
          match stop with
          | None => ret macros
          | Some e => raise e
          end
      end
    else ret macro_replace_list
  else ret macro_replace_list.

Fixpoint update_files (self : t) (target_dir : string) (files : list string)
    (macro_replace_list : list (list string)) : io (list (list string)) :=
  match files with
  | [] => ret macro_replace_list
  | file :: rest =>
      do macros <- update_file self target_dir file macro_replace_list;
      update_files self target_dir rest macros
  end.

(** [update_macros]: the result is the caller's list as the call leaves
    it. *)
Definition update_macros (self : t) (macro_replace_list : list (list string))
    (target_dir : string) : io (list (list string)) :=
  do found <- OS.path_exists target_dir;
  do directory <- OS.isdir target_dir;
  if (found : bool) && (directory : bool) then
    do backup <- OS.path_exists (target_dir +:+ "/OLD_FILES");
    run (if (backup : bool) then ret tt
         else OS.mkdir (target_dir +:+ "/OLD_FILES"));
    do files <- OS.listdir target_dir;
    update_files self target_dir files macro_replace_list
  else ret macro_replace_list.

(** *** The macro replacement files *)

(** The loop of [get_macro_replace_files] over the listing of
    [macroFiles]; the path it appends is made of the configure path and the
    file name. *)
Fixpoint macro_replace_files_loop (self : t) (files : list string)
    (macro_replace_files : list string) : io (list string) :=
  match files with
  | [] => ret macro_replace_files
  | file :: rest =>
      do regular <-
        OS.isfile (path_to_configure self +:+ "/macroFiles/" +:+ file);
      if (regular : bool) then
        macro_replace_files_loop self rest
          (macro_replace_files ++ [path_to_configure self +:+ "/" +:+ file])
      else macro_replace_files_loop self rest macro_replace_files
  end.

Definition get_macro_replace_files (self : t) : io (list string) :=
  do found <- OS.path_exists (path_to_configure self);
  do directory <- OS.isdir (path_to_configure self);
  if (found : bool) && (directory : bool) then
    do files <- OS.listdir (path_to_configure self +:+ "/macroFiles");
    macro_replace_files_loop self files []
  else ret [].

(** The loop of [get_macro_replace_from_file] over the lines of the file. *)
Fixpoint macro_replace_lines (lines : list string)
    (macro_list : list (list string)) : list (list string) :=
  match lines with
  | [] => macro_list
  | line :: rest =>
      if negb (startswith line "#") && contains line "=" then
        macro_replace_lines rest
          (macro_list ++ [split_chr "=" (strip line)])
      else macro_replace_lines rest macro_list
  end.

(** [get_macro_replace_from_file]: the result is the caller's list as the
    call leaves it. *)
Definition get_macro_replace_from_file (macro_list : list (list string))
    (macro_file_path : string) : io (list (list string)) :=
  do found <- OS.path_exists macro_file_path;
  do regular <- OS.isfile macro_file_path;
  if (found : bool) && (regular : bool) then
    do text <- OS.read_file macro_file_path;
    ret (macro_replace_lines (readlines text) macro_list)
  else ret macro_list.

End ConfigInjector.

(** ** The design document's descriptions

    Definitions that follow the words of the design document, to be compared
    with the functions above. *)

Module Described.

(** *** Macro files *)

(** splitting at the first occurrence of [c] only *)
Fixpoint split_first (c : ascii) (s : string) : string * string :=
  match s with
  | EmptyString => (EmptyString, EmptyString)
  | String a s' =>
      if Ascii.eqb c a then (EmptyString, s')
      else (String a (fst (split_first c s')), snd (split_first c s'))
  end.

(** "every token containing [=] and not starting with [#] becomes a
    (key, value) pair split on the first [=]" *)
Definition macro_pairs (text : string) : list (string * string) :=
  split_first "=" <$>
    filter (fun t => Is_true (contains t "=" && negb (startswith t "#")))
      (split_ws text).

Definition pair_entry (kv : string * string) : list string :=
  [fst kv; snd kv].

(** the tokens [parse_macro_file] keeps *)
Definition kept_token (t : string) : bool :=
  negb (startswith t "#") && Nat.ltb 1 (String.length t) && contains t "=".

(** *** The macro updater *)

Definition key (macro : list string) : string := nth 0 macro EmptyString.
Definition value (macro : list string) : string := nth 1 macro EmptyString.

(** an entry that has a key and a value *)
Definition has_pair (macro : list string) : Prop := 2 <= length macro.

(** an entry without a mark *)
Definition unconsumed (macro : list string) : bool :=
  Nat.ltb (length macro) 3.

(** an unconsumed entry whose key followed by [=] occurs in the line *)
Definition hits (line : string) (macro : list string) : bool :=
  unconsumed macro && contains line (key macro +:+ "=").

Definition entry_line (macro : list string) : string :=
  ConfigInjector.macro_line (key macro) (value macro).

Definition text_of (lines : list string) : string :=
  foldr String.append EmptyString lines.

(** a line that no entry hits: commented out unless it is a comment *)
Definition kept_line (line : string) : string :=
  (if startswith line "#" then line else "#" +:+ line) +:+ nl.

(** a line as read, written unchanged when it is a comment and with [#]
    before it when it is not *)
Definition kept_as_read (raw : string) : string :=
  if startswith raw "#" then raw else "#" +:+ raw.

(** The words of the design document: a line that some unconsumed pair
    hits is replaced by the one line of the first such pair, which becomes
    consumed; any other line is kept as above; the pairs never consumed are
    appended after the last line. *)
Fixpoint first_hit (line : string) (macros : list (list string))
    : option (string * list (list string)) :=
  match macros with
  | [] => None
  | macro :: rest =>
      if hits line macro then
        Some (entry_line macro, (macro ++ ["DONE"])%list :: rest)
      else match first_hit line rest with
           | Some (out, rest') => Some (out, macro :: rest')
           | None => None
           end
  end.

Fixpoint one_per_line (lines : list string) (macros : list (list string))
    : list (list string) * string :=
  match lines with
  | [] => (macros, EmptyString)
  | raw :: rest =>
      match first_hit raw macros with
      | Some (out, macros') =>
          (fst (one_per_line rest macros'),
           out +:+ snd (one_per_line rest macros'))
      | None =>
          (fst (one_per_line rest macros),
           kept_as_read raw +:+ snd (one_per_line rest macros))
      end
  end.

Definition rewritten_one_per_line (old_text : string)
    (macros : list (list string)) : string :=
  let r := one_per_line (readlines old_text) macros in
  snd r +:+ text_of (entry_line <$> filter (fun m => Is_true (unconsumed m))
                                     (fst r)).

(** The amended description: a line, stripped, is replaced by the lines of
    all the unconsumed pairs that hit it, in list order, and all of them
    become consumed. *)
Definition mark (line : string) (macros : list (list string))
    : list (list string) :=
  (fun m => if hits line m then (m ++ ["DONE"])%list else m) <$> macros.

Definition line_output (line : string) (macros : list (list string))
    : string :=
  match filter (fun m => Is_true (hits line m)) macros with
  | [] => kept_line line
  | hit => text_of (entry_line <$> hit)
  end.

Fixpoint all_per_line (lines : list string) (macros : list (list string))
    : list (list string) * string :=
  match lines with
  | [] => (macros, EmptyString)
  | raw :: rest =>
      let line := strip raw in
      (fst (all_per_line rest (mark line macros)),
       line_output line macros +:+ snd (all_per_line rest (mark line macros)))
  end.

Definition marks_after (old_text : string) (macros : list (list string))
    : list (list string) :=
  fst (all_per_line (readlines old_text) macros).

Definition rewritten (old_text : string) (macros : list (list string))
    : string :=
  snd (all_per_line (readlines old_text) macros)
  +:+ text_of (entry_line <$> filter (fun m => Is_true (unconsumed m))
                                (marks_after old_text macros)).

(** *** The script *)

(** a row of the script whose first column is not [n] *)
Definition other_row (n : string) (row : list Script.pyval) : Prop :=
  exists v, row !! 0 = Some v /\ Script.is_str v n = false.

(** an entry as a call may leave it: untouched, or a pair that got its one
    mark *)
Definition marked_once (macro macro' : list string) : Prop :=
  macro' = macro \/ (length macro = 2 /\ macro' = (macro ++ ["DONE"])%list).

(** the lines [get_macro_replace_from_file] makes entries of *)
Definition macro_line_kept (line : string) : bool :=
  negb (startswith line "#") && contains line "=".

(** *** Injector files *)

(** the four names the injector knows a target for *)
Definition predefined_names : list string :=
  ["AD_RELEASE_CONFIG"; "AUTOSAVE_CONFIG"; "MAKEFILE_CONFIG";
   "PLUGIN_CONFIG"].

Definition predefined (file : string) : bool :=
  bool_decide (file ∈ predefined_names).

(** a regular file at path [p] *)
Definition regular_at (d : fs) (p : string) : bool :=
  match d !! p with
  | Some (File _) => true
  | _ => false
  end.

(** a regular file of the directory [dir] whose name is not predefined *)
Definition stray (dir : string) (d : fs) (file : string) : bool :=
  regular_at d (dir +:+ file) && negb (predefined file).

(** *** The manifest *)

(** "Skip blank lines and lines whose first non-space character is [#]" *)
Definition skipped_line (raw : string) : bool :=
  match strip raw with
  | EmptyString => true
  | line => startswith line "#"
  end.

(** the lines the parser passes over *)
Definition ignored (raw : string) : bool :=
  negb (ConfigParser.is_processed (strip raw)).

Definition install_line (raw : string) : bool :=
  ConfigParser.is_processed (strip raw) && startswith (strip raw) "INSTALL=".

Definition url_line (raw : string) : bool :=
  ConfigParser.is_processed (strip raw)
  && negb (startswith (strip raw) "INSTALL=")
  && (startswith (strip raw) "GIT_URL=" || startswith (strip raw) "WGET_URL=").

(** a line that reaches [parse_line_to_module] *)
Definition module_row (raw : string) : bool :=
  ConfigParser.is_processed (strip raw)
  && negb (startswith (strip raw) "INSTALL=")
  && negb (startswith (strip raw) "GIT_URL"
           || startswith (strip raw) "WGET_URL").

(** the positional fields of a row after white-space normalization *)
Definition fields (raw : string) : list string :=
  split_chr " " (squeeze_spaces (tabs_to_spaces (strip raw))).

Definition good_row (raw : string) : bool :=
  module_row raw && Nat.leb 6 (length (fields raw)).

Definition preamble_line (raw : string) : bool :=
  ignored raw || url_line raw.

Definition body_line (raw : string) : bool :=
  ignored raw || url_line raw || good_row raw.

(** the six columns of a row, and of a module *)
Definition row_columns (raw : string) : list string := take 6 (fields raw).

Definition columns (m : InstallModule) : list string :=
  [name m; version m; rel_path m; repository m; clone m; build m].

(** the install root an [INSTALL=] line gives *)
Definition install_root (force_location : option string) (raw : string)
    : string :=
  match force_location with
  | None => List.last (split_chr "=" (strip raw)) EmptyString
  | Some loc => loc
  end.

(** an install root that exists and is writable, or that is missing and
    can be created *)
Definition usable_root (d : fs) (loc : string) : bool :=
  match d !! loc with
  | Some (Dir false _) => false
  | Some _ => true
  | None =>
      match d !! OS.parent loc with
      | Some (Dir true _) => true
      | _ => false
      end
  end.

(** the disk once a usable install root is in place *)
Definition with_root (d : fs) (loc : string) : fs :=
  match d !! loc with
  | Some _ => d
  | None => snd (OS.mkdir loc d)
  end.

Definition is_directory (d : fs) (p : string) : bool :=
  match d !! p with
  | Some (Dir _ _) => true
  | _ => false
  end.

(** a configuration with the same install root and the same modules *)
Definition same_modules (cfg cfg' : InstallConfiguration) : Prop :=
  modules cfg' = modules cfg
  /\ install_location cfg' = install_location cfg.

(** what is wrong with an install root that is there and not writable, or
    that is missing together with its directory *)
Definition root_problem (d : fs) (loc : string) : option string :=
  match d !! loc with
  | Some (Dir false _) => Some "Permission Error"
  | Some _ => None
  | None =>
      match d !! OS.parent loc with
      | None => Some "Install filepath not valid"
      | Some _ => None
      end
  end.

(** blanks and tabs, the characters that separate the columns of a row *)
Definition is_blank (c : ascii) : bool :=
  Ascii.eqb c " " || Ascii.eqb c "009".

Fixpoint all_chars (p : ascii -> bool) (s : string) : bool :=
  match s with
  | EmptyString => true
  | String a s' => p a && all_chars p s'
  end.

(** a column: not empty, without blank or tab; a gap: a run of them *)
Definition is_word (w : string) : bool :=
  nonempty w && all_chars (fun c => negb (is_blank c)) w.

Definition is_gap (g : string) : bool :=
  nonempty g && all_chars is_blank g.

(** a row written as a first column and then gaps and columns *)
Fixpoint row_text (w : string) (rest : list (string * string)) : string :=
  match rest with
  | [] => w
  | (g, w') :: rest' => w +:+ g +:+ row_text w' rest'
  end.

(** the directive line of an injector fragment *)
Definition target_directive (line : string) : bool :=
  startswith line "__TARGET_LOC__=".

(** "a parse error naming the offending line": no configuration, and a
    message in which the line occurs *)
Definition reports_malformed
    (r : result (option InstallConfiguration * string)) (line : string)
    : Prop :=
  exists msg, r = Ok (None, msg) /\ contains msg line = true.

End Described.

(** ** Sample inputs *)

Module Examples.

(** a configuration rooted at [/epics/test], as in the unit tests *)
Definition test_config : InstallConfiguration :=
  mkConfig "/epics/test" "configure" [] None None None [] []
    "linux-x86_64".

Definition engine : ConfigInjector.t :=
  ConfigInjector.init "/cfg" test_config.

(** a [configure] directory with a template, a release file and a
    makefile fragment *)
Definition configure_dir : fs :=
  list_to_map [
    ("/", Dir true ["ad"]);
    ("/ad", Dir true ["configure"]);
    ("/ad/configure",
     Dir true ["EXAMPLE_CONFIG_SITE.local"; "RELEASE.local"; "Makefile.in"]);
    ("/ad/configure/EXAMPLE_CONFIG_SITE.local",
     File ("  # site settings " +:+ nl +:+ "WITH_AB=YES" +:+ nl +:+ nl
           +:+ "  FOO = 1"));
    ("/ad/configure/RELEASE.local",
     File ("AB=NO" +:+ nl +:+ "Z=1" +:+ nl));
    ("/ad/configure/Makefile.in", File "all:")
  ].

Definition macro_list : list (list string) :=
  [["B"; "x"]; ["AB"; "y"]; ["Q"; "1"; "2"]; ["N"; "n"]].

(** a [configure] directory that holds a release file next to its
    [EXAMPLE_] template, listed before it *)
Definition template_pair_dir : fs :=
  list_to_map [
    ("/", Dir true ["ad"]);
    ("/ad", Dir true ["configure"]);
    ("/ad/configure",
     Dir true ["EXAMPLE_RELEASE.local"; "RELEASE.local"; "OLD_FILES"]);
    ("/ad/configure/OLD_FILES", Dir true []);
    ("/ad/configure/EXAMPLE_RELEASE.local", File ("AB=NO" +:+ nl));
    ("/ad/configure/RELEASE.local",
     File ("AB=SITE" +:+ nl +:+ "KEEP=1" +:+ nl))
  ].

Definition support_module : InstallModule :=
  new_module "SUPPORT" "R6-0" "$(INSTALL)/support" "GIT_URL"
    "https://github.com/dummyurl/test/" "support" "YES" "YES".

Definition ad_module : InstallModule :=
  new_module "AREA_DETECTOR" "R3-6" "$(SUPPORT)/areaDetector" "GIT_URL"
    "https://github.com/dummyurl/test/" "ad" "YES" "YES".

(** the test configuration with [SUPPORT] and [AREA_DETECTOR] added *)
Definition ad_config : InstallConfiguration :=
  add_module (add_module test_config support_module) ad_module.

Definition ad_engine : ConfigInjector.t := ConfigInjector.init "/cfg" ad_config.

Definition release_fragment : string :=
  "# fragment for RELEASE_PRODS.local" +:+ nl +:+
  "ADSIMDETECTOR=$(AREA_DETECTOR)/ADSimDetector" +:+ nl +:+ nl +:+
  "ADURL=$(AREA_DETECTOR)/ADURL" +:+ nl.

(** a configure directory whose [injectionFiles] holds one fragment with
    a predefined name and a [README]; the area-detector [configure]
    directory exists and has no [RELEASE_PRODS.local] *)
Definition injection_disk : fs :=
  list_to_map [
    ("/cfg", Dir true ["injectionFiles"]);
    ("/cfg/injectionFiles", Dir true ["AD_RELEASE_CONFIG"; "README"]);
    ("/cfg/injectionFiles/AD_RELEASE_CONFIG", File release_fragment);
    ("/cfg/injectionFiles/README", File "notes");
    ("/epics/test/support/areaDetector/configure", Dir true ["RELEASE"]);
    ("/epics/test/support/areaDetector/configure/RELEASE", File "")
  ].

(** a manifest with one [INSTALL=] line, one [GIT_URL=] line and three
    module rows *)
Definition manifest : string :=
  "# modules of the test installation" +:+ nl +:+ nl +:+
  "INSTALL=/epics/test" +:+ nl +:+
  "GIT_URL=https://github.com/dummyurl/test/" +:+ nl +:+
  "EPICS_BASE     R7.0.2.2  $(INSTALL)/base  base  YES  YES" +:+ nl +:+
  "SUPPORT R6-0 $(INSTALL)/support" +:+ String "009" "support YES YES"
    +:+ nl +:+
  "AREA_DETECTOR R3-6 $(SUPPORT)/areaDetector ad YES NO" +:+ nl.

(** the same with a row of three fields, and with a one-character line *)
Definition short_row_manifest : string :=
  "INSTALL=/epics/test" +:+ nl +:+
  "GIT_URL=https://github.com/dummyurl/test/" +:+ nl +:+
  "SUPPORT R6-0 $(INSTALL)/support" +:+ nl.

Definition one_character_manifest : string :=
  "INSTALL=/epics/test" +:+ nl +:+ "X" +:+ nl.

(** a manifest with one [INSTALL=] line, one [GIT_URL=] line and three
    module rows, the second of a module whose name begins with [GIT_URL] *)
Definition url_named_row_manifest : string :=
  "INSTALL=/epics/test" +:+ nl +:+
  "GIT_URL=https://github.com/dummyurl/test/" +:+ nl +:+
  "EPICS_BASE R7.0.2.2 $(INSTALL)/base base YES YES" +:+ nl +:+
  "GIT_URL_TOOLS R1-0 $(INSTALL)/tools tools YES YES" +:+ nl +:+
  "SUPPORT R6-0 $(INSTALL)/support support YES YES" +:+ nl.

(** a configure directory holding the manifest [text]; [/epics] exists and
    [/epics/test] does not *)
Definition manifest_disk (text : string) : fs :=
  list_to_map [
    ("/", Dir true ["epics"; "cfg"]);
    ("/epics", Dir true []);
    ("/cfg", Dir true ["INSTALL_CONFIG"; "injectionFiles"; "macroFiles"]);
    ("/cfg/INSTALL_CONFIG", File text);
    ("/cfg/injectionFiles", Dir true ["AD_RELEASE_CONFIG"]);
    ("/cfg/injectionFiles/AD_RELEASE_CONFIG",
     File ("__TARGET_LOC__=$(AREA_DETECTOR)/configure/RELEASE_PRODS.local"
           +:+ nl +:+ release_fragment));
    ("/cfg/macroFiles", Dir true ["BUILD_FLAG_CONFIG"]);
    ("/cfg/macroFiles/BUILD_FLAG_CONFIG",
     File ("# flags" +:+ nl +:+ "JPEG_EXTERNAL=NO" +:+ nl))
  ].

Definition release_target : string :=
  "/epics/test/support/areaDetector/configure/RELEASE_PRODS.local".

End Examples.

(** * Properties *)

(** ** Strings *)

Section StringFacts.

Lemma startswith_prefix (p s : string) :
  startswith s p = true -> exists r, s = p +:+ r.
Proof.
  revert s. induction p as [|b p IH]; intros s H.
  - exists s. reflexivity.
  - destruct s as [|a s]; simpl in H; [discriminate|].
    apply andb_prop in H as [Hab Hs].
    apply Ascii.eqb_eq in Hab. subst b.
    destruct (IH s Hs) as [r ->]. exists r. reflexivity.
Qed.

Lemma split_by_cons (p : ascii -> bool) (s : string) :
  exists h t, split_by p s = h :: t.
Proof.
  destruct s as [|a s]; simpl; [eauto|].
  destruct (p a); [eauto|].
  destruct (split_by p s); eauto.
Qed.

Lemma split_by_length (p : ascii -> bool) (s : string) :
  length (split_by p s) = S (cuts p s).
Proof.
  induction s as [|a s IH]; simpl; [reflexivity|].
  destruct (p a); simpl; [now rewrite IH|].
  destruct (split_by_cons p s) as (h & t & E).
  rewrite E in *. simpl in *. exact IH.
Qed.

Lemma cuts_count (c : ascii) (s : string) :
  cuts (Ascii.eqb c) s = count_chr c s.
Proof. induction s as [|a s IH]; simpl; congruence. Qed.

Lemma split_chr_length (c : ascii) (s : string) :
  length (split_chr c s) = S (count_chr c s).
Proof. unfold split_chr. now rewrite split_by_length, cuts_count. Qed.

(** Joining the pieces with the separator gives the string back. *)
Lemma join_split_chr (c : ascii) (s : string) :
  join_chr c (split_chr c s) = s.
Proof.
  unfold split_chr. induction s as [|a s IH]; simpl; [reflexivity|].
  destruct (split_by_cons (Ascii.eqb c) s) as (h & t & E).
  rewrite E in *.
  destruct (Ascii.eqb_spec c a) as [->|Hne].
  - simpl in *. now rewrite IH.
  - destruct t as [|h' t]; [simpl in *; congruence|].
    change (join_chr c (String a h :: h' :: t))
      with (String a (join_chr c (h :: h' :: t))).
    now rewrite IH.
Qed.

(** No piece contains the separator. *)
Lemma split_chr_pieces (c : ascii) (s : string) :
  Forall (fun piece => count_chr c piece = 0) (split_chr c s).
Proof.
  unfold split_chr. induction s as [|a s IH]; simpl.
  - repeat constructor.
  - destruct (Ascii.eqb_spec c a) as [->|Hne].
    + constructor; [reflexivity|exact IH].
    + destruct (split_by_cons (Ascii.eqb c) s) as (h & t & E).
      rewrite E in *. inversion IH as [|? ? Hh Ht]; subst.
      constructor; [|exact Ht]. simpl.
      destruct (Ascii.eqb_spec c a); [contradiction|exact Hh].
Qed.

Lemma count_chr_app (c : ascii) (s t : string) :
  count_chr c (s +:+ t) = count_chr c s + count_chr c t.
Proof. induction s as [|a s IH]; simpl; [reflexivity|]. rewrite IH. lia. Qed.

Lemma lstrip_count (c : ascii) (s : string) :
  is_space c = false -> count_chr c (lstrip s) = count_chr c s.
Proof.
  intros Hc. induction s as [|a s IH]; simpl; [reflexivity|].
  destruct (is_space a) eqn:Ha; [|reflexivity].
  destruct (Ascii.eqb_spec c a) as [->|_]; [congruence|]. exact IH.
Qed.

Lemma rstrip_count (c : ascii) (s : string) :
  is_space c = false -> count_chr c (rstrip s) = count_chr c s.
Proof.
  intros Hc. induction s as [|a s IH]; simpl; [reflexivity|].
  destruct (rstrip s) as [|b r] eqn:E.
  - destruct (is_space a) eqn:Ha; simpl in *.
    + destruct (Ascii.eqb_spec c a) as [->|_]; [congruence|]. exact IH.
    + rewrite <- IH. lia.
  - simpl in *. now rewrite IH.
Qed.

Lemma strip_count (c : ascii) (s : string) :
  is_space c = false -> count_chr c (strip s) = count_chr c s.
Proof.
  intros Hc. unfold strip. now rewrite rstrip_count, lstrip_count.
Qed.

Lemma filter_cons_bool {A} (f : A -> bool) (x : A) (l : list A) :
  filter (fun y => Is_true (f y)) (x :: l) =
  if f x then x :: filter (fun y => Is_true (f y)) l
  else filter (fun y => Is_true (f y)) l.
Proof.
  rewrite filter_cons. destruct (decide (Is_true (f x))) as [H|H].
  - now rewrite (Is_true_eq_true _ H).
  - destruct (f x); [exfalso; apply H; exact I|reflexivity].
Qed.

(** A run that is known to return is the pair of its value and its disk. *)
Lemma run_returns {A} (r : result A * fs) (a : A) :
  fst r = Ok a -> r = (Ok a, snd r).
Proof. destruct r as [x d]. simpl. now intros ->. Qed.

Lemma index_Ok {A} (l : list A) (i : nat) :
  i < length l -> exists a, index l i = Ok a /\ l !! i = Some a.
Proof.
  intros H. unfold index.
  destruct (lookup_lt_is_Some_2 l i H) as [a ->]. eauto.
Qed.

Lemma index_Raise {A} (l : list A) (i : nat) :
  length l <= i -> index l i = Raise IndexError.
Proof.
  intros H. unfold index. now rewrite (lookup_ge_None_2 l i H).
Qed.

Lemma split_chr_none (c : ascii) (s : string) :
  count_chr c s = 0 -> split_chr c s = [s].
Proof.
  unfold split_chr. induction s as [|x s IH]; simpl; [reflexivity|].
  destruct (Ascii.eqb c x); simpl; [discriminate|].
  intros H. now rewrite (IH H).
Qed.

End StringFacts.

(** ** Path macros (C1, C5) *)

Section PathMacros.

Lemma module_path_app (n : string) (ms ms' : list InstallModule) :
  module_path n (ms ++ ms') =
  match module_path n ms with
  | Some p => Some p
  | None => module_path n ms'
  end.
Proof.
  induction ms as [|m ms IH]; simpl; [reflexivity|].
  destruct (String.eqb (name m) n); [|exact IH].
  destruct (abs_path m); [reflexivity|exact IH].
Qed.

(** The loop of the script returns [None] when no row has the name. *)
Lemma lookup_module_loop_absent (n path : string)
    (rows : list (list Script.pyval)) :
  Forall (fun row => exists v, row !! 0 = Some v /\ Script.is_str v n = false)
    rows ->
  Script.lookup_module_loop n path rows = Ok Script.PNone.
Proof.
  induction 1 as [|row rows (v & Hv & Hn) _ IH]; simpl; [reflexivity|].
  unfold index. rewrite Hv. simpl. now rewrite Hn.
Qed.

(** Any other macro is left in place: the final [else] returns the path. *)
Lemma expand_module_path_other_macro (path install_dir : string)
    (rows : list (list Script.pyval)) :
  contains path "$(INSTALL)" = false ->
  contains path "$(SUPPORT)" = false ->
  contains path "$(AREA_DETECTOR)" = false ->
  Script.expand_module_path path rows install_dir = Ok (Script.PStr path).
Proof.
  intros Hi Hs Ha. unfold Script.expand_module_path. now rewrite Hi, Hs, Ha.
Qed.

End PathMacros.

(** C1. Adding [SUPPORT] with path [$(INSTALL)/support] and then
    [AREA_DETECTOR] with path [$(SUPPORT)/areaDetector] to a configuration
    rooted at [/epics/test] that has no [SUPPORT] module and no support or
    area-detector path yet gives [support_path = /epics/test/support] and
    [ad_path = /epics/test/support/areaDetector], and two more modules; the
    script's [expand_module_path] chains in the same way through the row it
    resolved before. *)
Theorem add_support_then_ad (cfg : InstallConfiguration)
    (support ad : InstallModule) :
  install_location cfg = "/epics/test" ->
  module_path "SUPPORT" (modules cfg) = None ->
  support_path cfg = None ->
  ad_path cfg = None ->
  name support = "SUPPORT" ->
  rel_path support = "$(INSTALL)/support" ->
  name ad = "AREA_DETECTOR" ->
  rel_path ad = "$(SUPPORT)/areaDetector" ->
  let cfg' := add_module (add_module cfg support) ad in
  support_path cfg' = Some "/epics/test/support"
  /\ ad_path cfg' = Some "/epics/test/support/areaDetector"
  /\ length (modules cfg') = 2 + length (modules cfg)
  /\ (abs_path <$> modules cfg') =
       ((abs_path <$> modules cfg) ++
          [Some "/epics/test/support";
           Some "/epics/test/support/areaDetector"])%list
  /\ Script.expand_module_path "$(INSTALL)/support" [] "/epics/test"
       = Ok (Script.PStr "/epics/test/support")
  /\ (forall row rows,
        row !! 0 = Some (Script.PStr "SUPPORT") ->
        row !! 2 = Some (Script.PStr "/epics/test/support") ->
        Script.expand_module_path "$(SUPPORT)/areaDetector" (row :: rows)
          "/epics/test"
        = Ok (Script.PStr "/epics/test/support/areaDetector")).
Proof.
  intros Hroot Hfresh Hsp Hap Hn1 Hp1 Hn2 Hp2 cfg'.
  assert (E1 : resolve (rel_path support) (modules cfg) (install_location cfg)
                 (Some (version support)) = "/epics/test/support").
  { rewrite Hp1, Hroot. reflexivity. }
  set (c1 := add_module cfg support) in *.
  assert (M1 : abs_path <$> modules c1
               = ((abs_path <$> modules cfg) ++ [Some "/epics/test/support"])%list).
  { unfold c1, add_module. simpl. now rewrite fmap_app, E1. }
  assert (P1 : module_path "SUPPORT" (modules c1) = Some "/epics/test/support").
  { unfold c1, add_module. simpl. rewrite module_path_app, Hfresh. simpl.
    now rewrite Hn1, E1. }
  assert (S1 : support_path c1 = Some "/epics/test/support").
  { unfold c1, add_module. simpl. now rewrite Hn1, Hsp, E1. }
  assert (A1 : ad_path c1 = None).
  { unfold c1, add_module. simpl. now rewrite Hn1. }
  assert (E2 : resolve (rel_path ad) (modules c1) (install_location c1)
                 (Some (version ad)) = "/epics/test/support/areaDetector").
  { rewrite Hp2. unfold resolve.
    change (macro_of "$(SUPPORT)/areaDetector") with (Some "SUPPORT").
    change (String.eqb "SUPPORT" "INSTALL") with false. cbv iota beta.
    rewrite P1. reflexivity. }
  clearbody c1. subst cfg'. unfold add_module. rewrite E2. simpl.
  rewrite Hn2. simpl.
  rewrite S1, A1. simpl.
  repeat split.
  - rewrite length_app. simpl.
    apply (f_equal length) in M1.
    rewrite length_app, !length_fmap in M1. simpl in M1. lia.
  - rewrite fmap_app, M1, <- app_assoc. reflexivity.
  - intros row rows H0 H2. unfold Script.expand_module_path. simpl.
    unfold index. rewrite H0. simpl. rewrite H2. reflexivity.
Qed.

Lemma add_support_then_ad_witness :
  let cfg := new_config "/epics/test" "configure" in
  let support := new_module "SUPPORT" "R6-0" "$(INSTALL)/support" "GIT_URL"
                   "https://github.com/dummyurl/test/" "support" "YES" "YES" in
  let ad := new_module "AREA_DETECTOR" "R3-6" "$(SUPPORT)/areaDetector"
              "GIT_URL" "https://github.com/dummyurl/test/" "ad" "YES" "YES" in
  support_path (add_module (add_module cfg support) ad)
    = Some "/epics/test/support"
  /\ ad_path (add_module (add_module cfg support) ad)
    = Some "/epics/test/support/areaDetector".
Proof.
  intros cfg support ad.
  pose proof (add_support_then_ad cfg support ad eq_refl eq_refl eq_refl
                eq_refl eq_refl eq_refl eq_refl eq_refl) as H.
  split; [exact (proj1 H)|exact (proj1 (proj2 H))].
Defined.

(** C5. When the path names [$(SUPPORT)] (and not [$(INSTALL)]) and no row
    of the known modules is called [SUPPORT], [expand_module_path] runs off
    the end of its loop and returns [None], not the path; the same holds for
    [$(AREA_DETECTOR)]. *)
Theorem expand_module_path_unknown_module (path install_dir : string)
    (rows : list (list Script.pyval)) :
  contains path "$(INSTALL)" = false ->
  (contains path "$(SUPPORT)" = true /\
   Forall (fun row => exists v, row !! 0 = Some v
                      /\ Script.is_str v "SUPPORT" = false) rows)
  \/ (contains path "$(SUPPORT)" = false /\
      contains path "$(AREA_DETECTOR)" = true /\
      Forall (fun row => exists v, row !! 0 = Some v
                         /\ Script.is_str v "AREA_DETECTOR" = false) rows) ->
  Script.expand_module_path path rows install_dir = Ok Script.PNone
  /\ Script.expand_module_path path rows install_dir <> Ok (Script.PStr path).
Proof.
  intros Hi H. unfold Script.expand_module_path. rewrite Hi.
  destruct H as [[Hs Hrows]|(Hs & Ha & Hrows)]; rewrite Hs; [|rewrite Ha];
    rewrite (lookup_module_loop_absent _ _ _ Hrows); split; congruence.
Qed.

Lemma expand_module_path_unknown_module_witness :
  Script.expand_module_path "$(SUPPORT)/areaDetector" [] "/epics/test"
    = Ok Script.PNone
  /\ Script.expand_module_path "$(SUPPORT)/areaDetector" [] "/epics/test"
    <> Ok (Script.PStr "$(SUPPORT)/areaDetector").
Proof.
  apply expand_module_path_unknown_module; [reflexivity|].
  left. split; [reflexivity|constructor].
Defined.

(** ** Macro files (C6) *)

Section MacroFiles.

Import ConfigParser Described.

Lemma contains_chr_count (c : ascii) (s : string) :
  contains s (String c EmptyString) = true -> 1 <= count_chr c s.
Proof.
  induction s as [|a s IH]; simpl; [discriminate|].
  destruct (Ascii.eqb_spec a c) as [->|Hne]; simpl.
  - rewrite Ascii.eqb_refl. lia.
  - intros H. specialize (IH H). lia.
Qed.

Lemma macro_tokens_filter (tokens : list string)
    (macros : list (list string)) :
  macro_tokens tokens macros =
  (macros ++ (split_chr "=" <$>
                filter (fun t => Is_true (kept_token t)) tokens))%list.
Proof.
  revert macros. induction tokens as [|t tokens IH]; intros macros; simpl.
  - now rewrite app_nil_r.
  - rewrite filter_cons_bool.
    change (negb (startswith t "#") && Nat.ltb 1 (String.length t)
            && contains t "=") with (kept_token t).
    destruct (kept_token t); [|apply IH].
    rewrite IH, fmap_cons, <- app_assoc. reflexivity.
Qed.

Lemma kept_token_entry (t : string) :
  kept_token t = true -> 2 <= length (split_chr "=" t).
Proof.
  unfold kept_token. intros H.
  apply andb_prop in H as [_ H].
  apply contains_chr_count in H. rewrite split_chr_length. lia.
Qed.

Lemma count_chr_contains (c : ascii) (s : string) :
  1 <= count_chr c s -> contains s (String c EmptyString) = true.
Proof.
  induction s as [|a s IH]; simpl; [lia|].
  destruct (Ascii.eqb_spec a c) as [->|Hne].
  - now destruct s.
  - destruct (Ascii.eqb_spec c a) as [->|_]; [contradiction|].
    simpl. intros H. now rewrite (IH H), ?orb_true_r.
Qed.

Lemma count_chr_le_length (c : ascii) (s : string) :
  count_chr c s <= String.length s.
Proof.
  induction s as [|a s IH]; simpl; [lia|].
  destruct (Ascii.eqb c a); lia.
Qed.

(** A token with a single [=]: its pieces are the key and the value of the
    design document. *)
Lemma split_chr_one_cut (c : ascii) (t : string) :
  count_chr c t = 1 ->
  split_chr c t = pair_entry (split_first c t).
Proof.
  unfold split_chr, pair_entry.
  induction t as [|a t IH]; simpl; [discriminate|].
  destruct (Ascii.eqb c a); simpl.
  - intros [= H]. fold (split_chr c t). now rewrite (split_chr_none _ _ H).
  - intros H. now rewrite (IH H).
Qed.

Lemma macros_of_text_entries (text : string) :
  Forall (fun entry => 2 <= length entry) (macros_of_text text).
Proof.
  unfold macros_of_text. rewrite macro_tokens_filter. simpl.
  apply Forall_fmap, Forall_forall. intros t Ht.
  apply list_elem_of_filter in Ht as [Ht _].
  apply kept_token_entry. now apply Is_true_eq_true.
Qed.

End MacroFiles.

(** What [parse_macro_file] makes of the text of a macro file: the content
    is split on white space; every token longer than one character that
    contains [=] and does not start with [#] becomes exactly one entry, the
    list of the pieces of the token between all of its [=] characters; every
    entry has at least two pieces, none of which contains [=], and joining
    them with [=] gives the token back. *)
Lemma macros_of_text_splits_every_equals (text : string) :
  ConfigParser.macros_of_text text =
    (split_chr "=" <$>
       filter (fun t => Is_true (Described.kept_token t)) (split_ws text))
  /\ Forall (fun entry => 2 <= length entry) (ConfigParser.macros_of_text text)
  /\ (forall t : string,
       length (split_chr "=" t) = S (count_chr "=" t)
       /\ join_chr "=" (split_chr "=" t) = t
       /\ Forall (fun piece => count_chr "=" piece = 0) (split_chr "=" t)).
Proof.
  split; [|split].
  - unfold ConfigParser.macros_of_text. now rewrite macro_tokens_filter.
  - apply macros_of_text_entries.
  - intros t. split; [apply split_chr_length|].
    split; [apply join_split_chr|apply split_chr_pieces].
Qed.

(** C6. [parse_macro_file] splits a token at every [=], not at the first
    one only. A token that does not start with [#] and whose value contains
    [=] (two [=] or more in all) becomes an entry of three pieces or more,
    not the pair of its key and its value, so the entries of the file are
    not the pairs of the design document; a token with a single [=] becomes
    exactly that pair. *)
Theorem macro_value_with_equals_is_cut (text t : string) :
  t ∈ split_ws text ->
  startswith t "#" = false ->
  2 <= count_chr "=" t ->
  split_chr "=" t ∈ ConfigParser.macros_of_text text
  /\ 3 <= length (split_chr "=" t)
  /\ split_chr "=" t <> Described.pair_entry (Described.split_first "=" t)
  /\ ConfigParser.macros_of_text text
     <> Described.pair_entry <$> Described.macro_pairs text
  /\ (forall t' : string,
        count_chr "=" t' = 1 ->
        split_chr "=" t' = Described.pair_entry (Described.split_first "=" t')).
Proof.
  intros Hin Hhash Hcount.
  assert (Hlen : 3 <= length (split_chr "=" t)).
  { rewrite split_chr_length. lia. }
  assert (Hkept : Described.kept_token t = true).
  { unfold Described.kept_token. rewrite Hhash. simpl.
    rewrite count_chr_contains by lia. rewrite andb_true_r.
    apply Nat.ltb_lt. pose proof (count_chr_le_length "=" t). lia. }
  assert (Hentry : split_chr "=" t ∈ ConfigParser.macros_of_text text).
  { unfold ConfigParser.macros_of_text. rewrite macro_tokens_filter.
    simpl. apply list_elem_of_fmap_2, list_elem_of_filter.
    split; [now rewrite Hkept|exact Hin]. }
  split; [exact Hentry|]. split; [exact Hlen|]. split; [|split].
  - intros E. rewrite E in Hlen. simpl in Hlen. lia.
  - intros E. rewrite E in Hentry.
    apply list_elem_of_fmap in Hentry as (kv & Ekv & _).
    rewrite Ekv in Hlen. simpl in Hlen. lia.
  - intros t'. apply split_chr_one_cut.
Qed.

Lemma macro_value_with_equals_is_cut_witness :
  ConfigParser.macros_of_text "A=b=c" = [["A"; "b"; "c"]]
  /\ Described.macro_pairs "A=b=c" = [("A", "b=c")]
  /\ ConfigParser.macros_of_text "A=b=c"
     <> Described.pair_entry <$> Described.macro_pairs "A=b=c".
Proof.
  split; [vm_compute; reflexivity|]. split; [vm_compute; reflexivity|].
  refine (proj1 (proj2 (proj2 (proj2
            (macro_value_with_equals_is_cut "A=b=c" "A=b=c" _ _ _))))).
  - apply (bool_decide_unpack _). vm_compute. exact I.
  - reflexivity.
  - vm_compute. lia.
Defined.

(** ** The macro updater (C7, C8) *)

Section MacroUpdater.

Import ConfigInjector Described.

Lemma append_cons (x : ascii) (a b : string) :
  String x a +:+ b = String x (a +:+ b).
Proof. reflexivity. Qed.

Lemma append_assoc (a b c : string) : (a +:+ b) +:+ c = a +:+ b +:+ c.
Proof.
  induction a as [|x a IH]; [reflexivity|].
  rewrite !append_cons. f_equal. exact IH.
Qed.

Lemma append_empty_r (a : string) : a +:+ EmptyString = a.
Proof.
  induction a as [|x a IH]; [reflexivity|].
  rewrite append_cons. f_equal. exact IH.
Qed.

Lemma has_pair_index (macro : list string) :
  has_pair macro ->
  index macro 0 = Ok (key macro) /\ index macro 1 = Ok (value macro).
Proof.
  unfold has_pair. destruct macro as [|k [|v rest]]; simpl; try lia.
  intros _. split; reflexivity.
Qed.

Lemma mark_has_pair (line : string) (macros : list (list string)) :
  Forall has_pair macros -> Forall has_pair (mark line macros).
Proof.
  intros H. unfold mark. apply Forall_fmap. eapply Forall_impl; [exact H|].
  intros m Hm. simpl. destruct (hits line m); [|exact Hm].
  unfold has_pair in *. rewrite length_app. lia.
Qed.

(** The inner loop writes the lines of the entries that hit the line and
    marks exactly those. *)
Lemma scan_macros_hits (line : string) (macros : list (list string))
    (wrote_line : bool) :
  Forall has_pair macros ->
  scan_macros line macros wrote_line =
  Ok (mark line macros,
      text_of (entry_line <$> filter (fun m => Is_true (hits line m)) macros),
      wrote_line || existsb (hits line) macros).
Proof.
  intros H. revert wrote_line.
  induction H as [|m macros Hm _ IH]; intros wrote_line; simpl.
  - now rewrite orb_false_r.
  - destruct (has_pair_index m Hm) as [E0 E1]. rewrite E0. simpl.
    rewrite filter_cons_bool.
    replace (contains line (key m +:+ "=") && Nat.ltb (length m) 3)
      with (hits line m) by apply andb_comm.
    destruct (hits line m) eqn:Eh.
    + rewrite E1. simpl. rewrite IH. simpl. now rewrite orb_true_r.
    + rewrite IH. reflexivity.
Qed.

Lemma no_hit_filter (line : string) (macros : list (list string)) :
  existsb (hits line) macros = false ->
  filter (fun m => Is_true (hits line m)) macros = [].
Proof.
  induction macros as [|m macros IH]; simpl; [reflexivity|].
  intros H. apply orb_false_elim in H as [Hm Hrest].
  rewrite filter_cons_bool, Hm. now apply IH.
Qed.

Lemma some_hit_filter (line : string) (macros : list (list string)) :
  existsb (hits line) macros = true ->
  filter (fun m => Is_true (hits line m)) macros <> [].
Proof.
  induction macros as [|m macros IH]; simpl; [discriminate|].
  intros H. rewrite filter_cons_bool.
  destruct (hits line m) eqn:Hm; [discriminate|now apply IH].
Qed.

Lemma rewrite_lines_all_per_line (lines : list string)
    (macros : list (list string)) :
  Forall has_pair macros ->
  rewrite_lines lines macros = Ok (all_per_line lines macros).
Proof.
  revert macros. induction lines as [|raw lines IH]; intros macros H; simpl.
  - reflexivity.
  - rewrite (scan_macros_hits _ _ _ H). simpl.
    rewrite (IH _ (mark_has_pair (strip raw) _ H)).
    destruct (all_per_line lines (mark (strip raw) macros)) as [ms out] eqn:E.
    simpl. do 2 f_equal. unfold line_output.
    destruct (existsb (hits (strip raw)) macros) eqn:Ex.
    + pose proof (some_hit_filter _ _ Ex) as Hne. simpl.
      destruct (filter _ macros); [contradiction|reflexivity].
    + rewrite (no_hit_filter _ _ Ex). simpl. unfold kept_line.
      destruct (startswith (strip raw) "#"); reflexivity.
Qed.

Lemma all_per_line_has_pair (lines : list string)
    (macros : list (list string)) :
  Forall has_pair macros -> Forall has_pair (fst (all_per_line lines macros)).
Proof.
  revert macros. induction lines as [|raw lines IH]; intros macros H; simpl.
  - exact H.
  - apply IH. now apply mark_has_pair.
Qed.

Lemma append_unused_filter (macros : list (list string)) :
  Forall has_pair macros ->
  append_unused macros =
  Ok (text_of (entry_line <$> filter (fun m => Is_true (unconsumed m)) macros)).
Proof.
  induction 1 as [|m macros Hm _ IH]; simpl; [reflexivity|].
  rewrite filter_cons_bool. unfold unconsumed at 1.
  destruct (Nat.ltb (length m) 3); [|exact IH].
  destruct (has_pair_index m Hm) as [-> ->]. simpl. rewrite IH. reflexivity.
Qed.

(** The text written for an old file, and the marks left on the list. *)
Lemma rewrite_file_rewritten (old_text : string)
    (macros : list (list string)) :
  Forall has_pair macros ->
  rewrite_file old_text macros =
  Ok (marks_after old_text macros, rewritten old_text macros).
Proof.
  intros H. unfold rewrite_file, rewritten, marks_after.
  rewrite (rewrite_lines_all_per_line _ _ H).
  pose proof (all_per_line_has_pair (readlines old_text) _ H) as H'.
  destruct (all_per_line (readlines old_text) macros) as [ms body].
  simpl in *. now rewrite (append_unused_filter _ H').
Qed.

(** *** The disk around one file *)

Lemma rename_Ok_lookup (src dst : string) (d d1 : fs) (n : node) :
  OS.rename src dst d = (Ok tt, d1) -> d !! src = Some n ->
  d1 !! dst = Some n.
Proof.
  unfold OS.rename. intros H Hsrc. rewrite Hsrc in H.
  repeat case_match; try discriminate;
    injection H as <-; apply lookup_insert_eq.
Qed.

Lemma create_Ok_lookup (p : string) (n : node) (d d' : fs) :
  OS.create p n d = (Ok tt, d') -> d' !! p = Some n.
Proof.
  unfold OS.create. intros H.
  repeat case_match; try discriminate.
  injection H as <-. apply lookup_insert_eq.
Qed.

Lemma open_write_Ok_lookup (p : string) (d d' : fs) :
  OS.open_write p d = (Ok tt, d') -> d' !! p = Some (File EmptyString).
Proof.
  unfold OS.open_write. intros H.
  repeat case_match; try discriminate.
  - injection H as <-. apply lookup_insert_eq.
  - now apply create_Ok_lookup in H.
Qed.

Lemma write_file (p c s : string) (d : fs) :
  d !! p = Some (File c) ->
  OS.write p s d = (Ok tt, <[p := File (c +:+ s)]> d).
Proof. intros H. unfold OS.write. now rewrite H. Qed.

(** *** The loops and their traces *)

Lemma scan_macros_outcome (line : string) (macros : list (list string))
    (wrote_line : bool) :
  scan_macros line macros wrote_line
  = outcome (scan_macros_trace line macros wrote_line).
Proof.
  revert wrote_line.
  induction macros as [|x macros IH]; intros wrote_line; [reflexivity|].
  cbn [scan_macros scan_macros_trace].
  destruct (index x 0) as [k|e]; [|reflexivity]. cbn [rbind].
  destruct (contains line (k +:+ "=") && Nat.ltb (length x) 3).
  - destruct (index x 1) as [v|e]; [|reflexivity]. cbn [rbind].
    rewrite IH.
    now destruct (scan_macros_trace line macros true)
      as [[[ms out] w] [e|]].
  - rewrite IH.
    now destruct (scan_macros_trace line macros wrote_line)
      as [[[ms out] w] [e|]].
Qed.

Lemma rewrite_lines_outcome (lines : list string)
    (macros : list (list string)) :
  rewrite_lines lines macros = outcome (rewrite_lines_trace lines macros).
Proof.
  revert macros.
  induction lines as [|raw lines IH]; intros macros; [reflexivity|].
  cbn [rewrite_lines rewrite_lines_trace]. rewrite scan_macros_outcome.
  destruct (scan_macros_trace (strip raw) macros false)
    as [[[ms out] w] [e|]]; [reflexivity|].
  cbn [outcome rbind]. rewrite IH.
  now destruct (rewrite_lines_trace lines ms) as [[ms' out'] [e|]].
Qed.

Lemma append_unused_outcome (macros : list (list string)) :
  append_unused macros = outcome (append_unused_trace macros).
Proof.
  induction macros as [|x macros IH]; [reflexivity|].
  cbn [append_unused append_unused_trace].
  destruct (Nat.ltb (length x) 3); [|exact IH].
  destruct (index x 0) as [k|e]; [|reflexivity].
  destruct (index x 1) as [v|e]; [|reflexivity].
  cbn [rbind]. rewrite IH.
  now destruct (append_unused_trace macros) as [out [e|]].
Qed.

(** What [rewrite_file] returns or raises is what its trace ends with. *)
Lemma rewrite_file_outcome (old_text : string)
    (macros : list (list string)) :
  rewrite_file old_text macros = outcome (rewrite_file_trace old_text macros).
Proof.
  unfold rewrite_file, rewrite_file_trace. rewrite rewrite_lines_outcome.
  destruct (rewrite_lines_trace (readlines old_text) macros)
    as [[ms body] [e|]]; [reflexivity|].
  cbn [outcome rbind]. rewrite append_unused_outcome.
  now destruct (append_unused_trace ms) as [tail [e|]].
Qed.

Lemma rewrite_file_trace_Ok (old_text : string)
    (macros ms : list (list string)) (out : string) :
  rewrite_file old_text macros = Ok (ms, out) ->
  rewrite_file_trace old_text macros = (ms, out, None).
Proof.
  rewrite rewrite_file_outcome.
  destruct (rewrite_file_trace old_text macros) as [[ms' out'] [e|]];
    simpl; [discriminate|]. now intros [= -> ->].
Qed.

Lemma rewrite_file_trace_stop (old_text : string)
    (macros ms : list (list string)) (out : string) (stop : option exn) :
  rewrite_file_trace old_text macros = (ms, out, stop) ->
  rewrite_file old_text macros = outcome (ms, out, stop).
Proof. intros H. now rewrite rewrite_file_outcome, H. Qed.

End MacroUpdater.

(** C7, as the design document words it, fails when two unconsumed pairs
    hit the same line: the code writes the lines of both pairs in place of
    the line, so the second pair is not left for a later line or for the
    end of the file; and a line that no pair hits is written without the
    white space around it. *)
Lemma two_pairs_on_one_line :
  let macros := [["B"; "x"]; ["AB"; "y"]] in
  let old_text := "AB=1" +:+ nl +:+ " Z " +:+ nl in
  ConfigInjector.rewrite_file old_text macros =
    Ok ([["B"; "x"; "DONE"]; ["AB"; "y"; "DONE"]],
        "B=x" +:+ nl +:+ "AB=y" +:+ nl +:+ "#Z" +:+ nl)
  /\ Described.rewritten_one_per_line old_text macros =
       "B=x" +:+ nl +:+ "# Z " +:+ nl +:+ "AB=y" +:+ nl
  /\ rmap snd (ConfigInjector.rewrite_file old_text macros)
     <> Ok (Described.rewritten_one_per_line old_text macros).
Proof. repeat split; vm_compute; congruence. Qed.

(** C7, amended. For every eligible regular file that [update_macros]
    processes (the rename into [OLD_FILES] and the opening of the new file
    succeeding, every entry having a key and a value), the new file holds
    exactly: for each line of the old file, stripped of surrounding white
    space, one [key=value] line for every unconsumed entry whose key followed
    by [=] occurs in the line, in list order, all of which become consumed;
    when there is none, the stripped line, prefixed with [#] unless it is a
    comment; and after the last line one [key=value] line for every entry
    still unconsumed. *)
Theorem update_file_rewrites (self : ConfigInjector.t)
    (target_dir file old_text : string) (macros : list (list string))
    (d d1 d2 : fs) :
  d !! (target_dir +:+ "/" +:+ file) = Some (File old_text) ->
  ConfigInjector.eligible self file = true ->
  OS.rename (target_dir +:+ "/" +:+ file)
    (target_dir +:+ "/OLD_FILES/" +:+ file) d = (Ok tt, d1) ->
  OS.open_write (target_dir +:+ "/" +:+ ConfigInjector.new_name file) d1
    = (Ok tt, d2) ->
  Forall Described.has_pair macros ->
  ConfigInjector.update_file self target_dir file macros d =
    (Ok (Described.marks_after old_text macros),
     <[target_dir +:+ "/" +:+ ConfigInjector.new_name file :=
         File (Described.rewritten old_text macros)]> d2)
  /\ ConfigInjector.rewrite_file old_text macros =
       Ok (Described.marks_after old_text macros,
           Described.rewritten old_text macros).
Proof.
  intros Hfile Hel Hren Hopen Hwf.
  split; [|now apply rewrite_file_rewritten].
  unfold ConfigInjector.update_file, bind, OS.isfile.
  rewrite Hfile, Hren.
  unfold OS.read_file. rewrite (rename_Ok_lookup _ _ _ _ _ Hren Hfile).
  rewrite Hel, Hopen.
  rewrite (rewrite_file_trace_Ok _ _ _ _ (rewrite_file_rewritten _ _ Hwf)).
  rewrite (write_file _ _ _ _ (open_write_Ok_lookup _ _ _ Hopen)).
  reflexivity.
Qed.

Section Consumed.

Import ConfigInjector Described.

Variables (i : nat) (m : list string).
Hypothesis consumed : 3 <= length m.

Lemma consumed_index : exists k, index m 0 = Ok k.
Proof using consumed.
  destruct m as [|k rest]; simpl in *; [lia|]. now exists k.
Qed.

Lemma consumed_ltb : Nat.ltb (length m) 3 = false.
Proof using consumed. apply Nat.ltb_ge. exact consumed. Qed.

(** The inner loop neither uses nor changes a consumed entry. *)
Lemma scan_macros_consumed (line : string) (macros : list (list string))
    (n : nat) (wrote_line : bool) :
  macros !! n = Some m ->
  scan_macros line (delete n macros) wrote_line =
    rmap (fun r => (delete n (fst (fst r)), snd (fst r), snd r))
      (scan_macros line macros wrote_line)
  /\ (forall r, scan_macros line macros wrote_line = Ok r ->
                fst (fst r) !! n = Some m).
Proof using consumed.
  revert n wrote_line.
  induction macros as [|x macros IH]; intros n wrote_line Hn;
    [discriminate|].
  destruct n as [|n]; simpl in Hn.
  - injection Hn as ->. simpl.
    destruct consumed_index as [k ->]. simpl.
    rewrite consumed_ltb, andb_false_r.
    destruct (scan_macros line macros wrote_line) as [[[ms out] w]|e];
      simpl; split; try reflexivity; try discriminate.
    intros r [= <-]. reflexivity.
  - simpl. destruct (index x 0) as [k|e]; simpl;
      [|split; [reflexivity|discriminate]].
    destruct (contains line (k +:+ "=") && Nat.ltb (length x) 3).
    + destruct (index x 1) as [v|e]; simpl;
        [|split; [reflexivity|discriminate]].
      destruct (IH n true Hn) as [E P]. rewrite E.
      destruct (scan_macros line macros true) as [[[ms out] w]|e];
        simpl; split; try reflexivity; try discriminate.
      intros r [= <-]. simpl. exact (P _ eq_refl).
    + destruct (IH n wrote_line Hn) as [E P]. rewrite E.
      destruct (scan_macros line macros wrote_line) as [[[ms out] w]|e];
        simpl; split; try reflexivity; try discriminate.
      intros r [= <-]. simpl. exact (P _ eq_refl).
Qed.

Lemma rewrite_lines_consumed (lines : list string)
    (macros : list (list string)) :
  macros !! i = Some m ->
  rewrite_lines lines (delete i macros) =
    rmap (fun r => (delete i (fst r), snd r)) (rewrite_lines lines macros)
  /\ (forall r, rewrite_lines lines macros = Ok r -> fst r !! i = Some m).
Proof using consumed.
  revert macros.
  induction lines as [|raw lines IH]; intros macros Hi; simpl.
  - split; [reflexivity|]. intros r [= <-]. exact Hi.
  - destruct (scan_macros_consumed (strip raw) macros i false Hi) as [E P].
    rewrite E.
    destruct (scan_macros (strip raw) macros false) as [[[ms out] w]|e];
      simpl; [|split; [reflexivity|discriminate]].
    specialize (P _ eq_refl). simpl in P.
    destruct (IH ms P) as [E' P']. rewrite E'.
    destruct (rewrite_lines lines ms) as [[ms' out']|e];
      simpl; split; try reflexivity; try discriminate.
    intros r [= <-]. simpl. exact (P' _ eq_refl).
Qed.

Lemma append_unused_consumed (macros : list (list string)) (n : nat) :
  macros !! n = Some m ->
  append_unused (delete n macros) = append_unused macros.
Proof using consumed.
  revert n. induction macros as [|x macros IH]; intros n Hn;
    [discriminate|].
  destruct n as [|n]; simpl in Hn.
  - injection Hn as ->. simpl. now rewrite consumed_ltb.
  - simpl. rewrite (IH n Hn). reflexivity.
Qed.

(** The text written for a file does not depend on a consumed entry, and
    the entry is left as it is. *)
Lemma rewrite_file_consumed (old_text : string)
    (macros : list (list string)) :
  macros !! i = Some m ->
  rewrite_file old_text (delete i macros) =
    rmap (fun r => (delete i (fst r), snd r)) (rewrite_file old_text macros)
  /\ (forall r, rewrite_file old_text macros = Ok r -> fst r !! i = Some m).
Proof using consumed.
  intros Hi. unfold rewrite_file.
  destruct (rewrite_lines_consumed (readlines old_text) macros Hi) as [E P].
  rewrite E.
  destruct (rewrite_lines (readlines old_text) macros) as [[ms body]|e];
    simpl; [|split; [reflexivity|discriminate]].
  specialize (P _ eq_refl). simpl in P.
  rewrite (append_unused_consumed ms i P).
  destruct (append_unused ms) as [tail|e]; simpl;
    split; try reflexivity; try discriminate.
  intros r [= <-]. exact P.
Qed.

Lemma scan_macros_trace_consumed (line : string)
    (macros : list (list string)) (n : nat) (wrote_line : bool) :
  macros !! n = Some m ->
  scan_macros_trace line (delete n macros) wrote_line =
    (delete n (fst (fst (fst (scan_macros_trace line macros wrote_line)))),
     snd (fst (fst (scan_macros_trace line macros wrote_line))),
     snd (fst (scan_macros_trace line macros wrote_line)),
     snd (scan_macros_trace line macros wrote_line))
  /\ fst (fst (fst (scan_macros_trace line macros wrote_line))) !! n
     = Some m.
Proof using consumed.
  revert n wrote_line.
  induction macros as [|x macros IH]; intros n wrote_line Hn;
    [discriminate|].
  destruct n as [|n]; simpl in Hn.
  - injection Hn as ->. cbn [scan_macros_trace].
    destruct consumed_index as [k ->].
    rewrite consumed_ltb, andb_false_r.
    change (delete 0 (m :: macros)) with macros.
    now destruct (scan_macros_trace line macros wrote_line)
      as [[[ms out] w] stop].
  - change (delete (S n) (x :: macros)) with (x :: delete n macros).
    cbn [scan_macros_trace].
    destruct (index x 0) as [k|e]; [|now split].
    destruct (contains line (k +:+ "=") && Nat.ltb (length x) 3).
    + destruct (index x 1) as [v|e]; [|now split].
      destruct (IH n true Hn) as [E P]. rewrite E.
      now destruct (scan_macros_trace line macros true)
        as [[[ms out] w] stop].
    + destruct (IH n wrote_line Hn) as [E P]. rewrite E.
      now destruct (scan_macros_trace line macros wrote_line)
        as [[[ms out] w] stop].
Qed.

Lemma rewrite_lines_trace_consumed (lines : list string)
    (macros : list (list string)) :
  macros !! i = Some m ->
  rewrite_lines_trace lines (delete i macros) =
    (delete i (fst (fst (rewrite_lines_trace lines macros))),
     snd (fst (rewrite_lines_trace lines macros)),
     snd (rewrite_lines_trace lines macros))
  /\ fst (fst (rewrite_lines_trace lines macros)) !! i = Some m.
Proof using consumed.
  revert macros.
  induction lines as [|raw lines IH]; intros macros Hi; [now split|].
  cbn [rewrite_lines_trace].
  destruct (scan_macros_trace_consumed (strip raw) macros i false Hi)
    as [E P].
  rewrite E.
  destruct (scan_macros_trace (strip raw) macros false)
    as [[[ms out] w] [e|]]; simpl in *; [now split|].
  destruct (IH ms P) as [E' P']. rewrite E'.
  now destruct (rewrite_lines_trace lines ms) as [[ms' out'] stop].
Qed.

Lemma append_unused_trace_consumed (macros : list (list string)) (n : nat) :
  macros !! n = Some m ->
  append_unused_trace (delete n macros) = append_unused_trace macros.
Proof using consumed.
  revert n. induction macros as [|x macros IH]; intros n Hn;
    [discriminate|].
  destruct n as [|n]; simpl in Hn.
  - injection Hn as ->. cbn [append_unused_trace].
    now rewrite consumed_ltb.
  - change (delete (S n) (x :: macros)) with (x :: delete n macros).
    cbn [append_unused_trace]. now rewrite (IH n Hn).
Qed.

(** Also when the loops raise: the consumed entry changes neither what
    has been written nor the exception, and it is left as it is. *)
Lemma rewrite_file_trace_consumed (old_text : string)
    (macros : list (list string)) :
  macros !! i = Some m ->
  rewrite_file_trace old_text (delete i macros) =
    (delete i (fst (fst (rewrite_file_trace old_text macros))),
     snd (fst (rewrite_file_trace old_text macros)),
     snd (rewrite_file_trace old_text macros))
  /\ fst (fst (rewrite_file_trace old_text macros)) !! i = Some m.
Proof using consumed.
  intros Hi. unfold rewrite_file_trace.
  destruct (rewrite_lines_trace_consumed (readlines old_text) macros Hi)
    as [E P].
  rewrite E.
  destruct (rewrite_lines_trace (readlines old_text) macros)
    as [[ms body] [e|]]; simpl in *; [now split|].
  rewrite (append_unused_trace_consumed ms i P).
  now destruct (append_unused_trace ms) as [tail stop].
Qed.

Lemma update_file_consumed (self : t) (target_dir file : string)
    (macros : list (list string)) (d : fs) :
  macros !! i = Some m ->
  update_file self target_dir file (delete i macros) d =
    (rmap (delete i) (fst (update_file self target_dir file macros d)),
     snd (update_file self target_dir file macros d))
  /\ (forall macros' d',
        update_file self target_dir file macros d = (Ok macros', d') ->
        macros' !! i = Some m).
Proof using consumed.
  intros Hi. unfold update_file, bind.
  destruct (OS.isfile _ d) as [[[|]|e] d0]; simpl;
    try (split; [reflexivity|now intros ? ? [= <- <-]]).
  destruct (OS.rename _ _ d0) as [[[]|e] d1]; simpl;
    try (split; [reflexivity|discriminate]).
  destruct (OS.read_file _ d1) as [[old_text|e] d2]; simpl;
    try (split; [reflexivity|discriminate]).
  destruct (eligible self file); simpl;
    try (split; [reflexivity|now intros ? ? [= <- <-]]).
  destruct (OS.open_write _ d2) as [[[]|e] d3]; simpl;
    try (split; [reflexivity|discriminate]).
  destruct (rewrite_file_trace_consumed old_text macros Hi) as [E P].
  rewrite E.
  destruct (rewrite_file_trace old_text macros) as [[ms out] stop];
    simpl in *.
  destruct (OS.write _ out d3) as [[[]|e] d4]; simpl;
    try (split; [reflexivity|discriminate]).
  destruct stop as [e|]; simpl; [split; [reflexivity|discriminate]|].
  split; [reflexivity|]. now intros ? ? [= <- <-].
Qed.

Lemma update_files_consumed (self : t) (target_dir : string)
    (files : list string) (macros : list (list string)) (d : fs) :
  macros !! i = Some m ->
  update_files self target_dir files (delete i macros) d =
    (rmap (delete i) (fst (update_files self target_dir files macros d)),
     snd (update_files self target_dir files macros d))
  /\ (forall macros' d',
        update_files self target_dir files macros d = (Ok macros', d') ->
        macros' !! i = Some m).
Proof using consumed.
  revert macros d.
  induction files as [|file files IH]; intros macros d Hi; simpl.
  - split; [reflexivity|]. now intros ? ? [= <- <-].
  - unfold bind.
    destruct (update_file_consumed self target_dir file macros d Hi)
      as [E P].
    rewrite E.
    destruct (update_file self target_dir file macros d) as [[ms|e] d1];
      simpl; [|split; [reflexivity|discriminate]].
    exact (IH ms d1 (P _ _ eq_refl)).
Qed.

Lemma update_macros_consumed (self : t) (target_dir : string)
    (macros : list (list string)) (d : fs) :
  macros !! i = Some m ->
  update_macros self (delete i macros) target_dir d =
    (rmap (delete i) (fst (update_macros self macros target_dir d)),
     snd (update_macros self macros target_dir d))
  /\ (forall macros' d',
        update_macros self macros target_dir d = (Ok macros', d') ->
        macros' !! i = Some m).
Proof using consumed.
  intros Hi. unfold update_macros, bind, OS.path_exists, OS.isdir.
  destruct (bool_decide _ && _); simpl;
    [|split; [reflexivity|now intros ? ? [= <- <-]]].
  destruct (bool_decide _); simpl.
  - destruct (OS.listdir target_dir d) as [[files|e] d1]; simpl;
      [|split; [reflexivity|discriminate]].
    now apply update_files_consumed.
  - destruct (OS.mkdir _ d) as [[[]|e] d0]; simpl;
      [|split; [reflexivity|discriminate]].
    destruct (OS.listdir target_dir d0) as [[files|e] d1]; simpl;
      [|split; [reflexivity|discriminate]].
    now apply update_files_consumed.
Qed.

End Consumed.

Lemma update_file_rewrites_witness :
  let d := Examples.configure_dir in
  let src := "/ad/configure/EXAMPLE_CONFIG_SITE.local" in
  let dst := "/ad/configure/OLD_FILES/EXAMPLE_CONFIG_SITE.local" in
  let d0 := snd (OS.mkdir "/ad/configure/OLD_FILES" d) in
  let d1 := snd (OS.rename src dst d0) in
  let d2 := snd (OS.open_write "/ad/configure/CONFIG_SITE.local" d1) in
  fst (ConfigInjector.update_file Examples.engine "/ad/configure"
         "EXAMPLE_CONFIG_SITE.local" Examples.macro_list d0)
    = Ok [["B"; "x"; "DONE"]; ["AB"; "y"; "DONE"]; ["Q"; "1"; "2"]; ["N"; "n"]]
  /\ snd (ConfigInjector.update_file Examples.engine "/ad/configure"
            "EXAMPLE_CONFIG_SITE.local" Examples.macro_list d0)
       !! "/ad/configure/CONFIG_SITE.local"
     = Some (File ("# site settings" +:+ nl +:+ "B=x" +:+ nl +:+ "AB=y" +:+ nl
                   +:+ "#" +:+ nl +:+ "#FOO = 1" +:+ nl +:+ "N=n" +:+ nl)).
Proof.
  intros d src dst d0 d1 d2.
  assert (H := update_file_rewrites Examples.engine "/ad/configure"
                 "EXAMPLE_CONFIG_SITE.local"
                 ("  # site settings " +:+ nl +:+ "WITH_AB=YES" +:+ nl +:+ nl
                  +:+ "  FOO = 1")
                 Examples.macro_list d0 d1 d2).
  destruct H as [H _].
  - vm_compute. reflexivity.
  - vm_compute. reflexivity.
  - apply run_returns. vm_compute. reflexivity.
  - apply run_returns. vm_compute. reflexivity.
  - unfold Described.has_pair. repeat constructor.
  - rewrite H. split; [vm_compute; reflexivity|].
    simpl snd. rewrite lookup_insert_eq. vm_compute. reflexivity.
Defined.

(** ** Consumption marks across the files of one call (C8) *)

Section OneCall.

Import ConfigInjector.

Lemma update_files_app (self : t) (target_dir : string)
    (files1 files2 : list string) (macros macros1 : list (list string))
    (d d1 : fs) :
  update_files self target_dir files1 macros d = (Ok macros1, d1) ->
  update_files self target_dir (files1 ++ files2) macros d =
  update_files self target_dir files2 macros1 d1.
Proof.
  revert macros d. induction files1 as [|file files1 IH]; intros macros d;
    simpl.
  - now intros [= <- <-].
  - unfold bind.
    destruct (update_file self target_dir file macros d) as [[ms|e] d0];
      [|discriminate].
    apply IH.
Qed.

(** [update_macros] on an existing directory is the loop over its
    listing, taken after the backup directory has been made. *)
Lemma update_macros_loop (self : t) (target_dir : string)
    (macros : list (list string)) (d d0 : fs) (w0 w : bool)
    (files0 files : list string) :
  d !! target_dir = Some (Dir w0 files0) ->
  (if bool_decide (is_Some (d !! (target_dir +:+ "/OLD_FILES")))
   then ret tt else OS.mkdir (target_dir +:+ "/OLD_FILES")) d = (Ok tt, d0) ->
  d0 !! target_dir = Some (Dir w files) ->
  update_macros self macros target_dir d =
  update_files self target_dir files macros d0.
Proof.
  intros Hdir Hbackup Hls.
  unfold update_macros, bind, OS.path_exists, OS.isdir.
  rewrite Hdir, bool_decide_true by eauto. simpl.
  rewrite Hbackup. unfold OS.listdir. now rewrite Hls.
Qed.

End OneCall.

(** C8. In one call of [update_macros] on a directory, take the point where
    the files [files1] of the listing have been processed and the entry at
    index [i] is consumed (it has three elements or more). The files
    processed after that point are written as if the entry were not in the
    list: it is neither substituted into their lines nor appended to them;
    and the entry is still there, unchanged and so still consumed, in the
    list the call leaves to its caller. *)
Theorem consumed_pair_stays_consumed (self : ConfigInjector.t)
    (target_dir : string) (macros macros1 : list (list string))
    (d d0 d1 : fs) (w0 w : bool) (files0 files1 files2 : list string)
    (i : nat) (m : list string) :
  d !! target_dir = Some (Dir w0 files0) ->
  (if bool_decide (is_Some (d !! (target_dir +:+ "/OLD_FILES")))
   then ret tt else OS.mkdir (target_dir +:+ "/OLD_FILES")) d = (Ok tt, d0) ->
  d0 !! target_dir = Some (Dir w (files1 ++ files2)) ->
  ConfigInjector.update_files self target_dir files1 macros d0
    = (Ok macros1, d1) ->
  macros1 !! i = Some m ->
  3 <= length m ->
  ConfigInjector.update_macros self macros target_dir d
    = ConfigInjector.update_files self target_dir files2 macros1 d1
  /\ snd (ConfigInjector.update_files self target_dir files2
            (delete i macros1) d1)
     = snd (ConfigInjector.update_macros self macros target_dir d)
  /\ (forall old_text,
        rmap snd (ConfigInjector.rewrite_file old_text (delete i macros1))
        = rmap snd (ConfigInjector.rewrite_file old_text macros1))
  /\ (forall macros' d',
        ConfigInjector.update_macros self macros target_dir d
          = (Ok macros', d') ->
        macros' !! i = Some m).
Proof.
  intros Hdir Hbackup Hls H1 Hi Hm.
  assert (E : ConfigInjector.update_macros self macros target_dir d
              = ConfigInjector.update_files self target_dir files2 macros1 d1).
  { rewrite (update_macros_loop _ _ _ _ _ _ _ _ _ Hdir Hbackup Hls).
    now apply update_files_app. }
  destruct (update_files_consumed i m Hm self target_dir files2 macros1 d1 Hi)
    as [Ed P].
  repeat split.
  - exact E.
  - rewrite E, Ed. reflexivity.
  - intros old_text.
    destruct (rewrite_file_consumed i m Hm old_text macros1 Hi) as [Er _].
    rewrite Er. now destruct (ConfigInjector.rewrite_file old_text macros1).
  - intros macros' d' H. rewrite E in H. exact (P _ _ H).
Qed.

Lemma consumed_pair_stays_consumed_witness :
  let d := Examples.configure_dir in
  let r := ConfigInjector.update_macros Examples.engine Examples.macro_list
             "/ad/configure" d in
  fst r = Ok [["B"; "x"; "DONE"]; ["AB"; "y"; "DONE"]; ["Q"; "1"; "2"];
              ["N"; "n"]]
  /\ snd r !! "/ad/configure/RELEASE.local"
     = Some (File ("#AB=NO" +:+ nl +:+ "#Z=1" +:+ nl +:+ "N=n" +:+ nl)).
Proof.
  intros d r.
  pose (d0 := snd (OS.mkdir "/ad/configure/OLD_FILES" d)).
  pose (s1 := ConfigInjector.update_files Examples.engine "/ad/configure"
                ["EXAMPLE_CONFIG_SITE.local"] Examples.macro_list d0).
  destruct (consumed_pair_stays_consumed Examples.engine "/ad/configure"
              Examples.macro_list
              [["B"; "x"; "DONE"]; ["AB"; "y"; "DONE"]; ["Q"; "1"; "2"];
               ["N"; "n"]]
              d d0 (snd s1) true true
              ["EXAMPLE_CONFIG_SITE.local"; "RELEASE.local"; "Makefile.in"]
              ["EXAMPLE_CONFIG_SITE.local"]
              ["RELEASE.local"; "Makefile.in"; "OLD_FILES"]
              1 ["AB"; "y"; "DONE"]) as (E & Ed & _ & P).
  - vm_compute. reflexivity.
  - apply run_returns. vm_compute. reflexivity.
  - vm_compute. reflexivity.
  - apply run_returns. vm_compute. reflexivity.
  - reflexivity.
  - simpl. lia.
  - subst r. rewrite E. split; vm_compute; reflexivity.
Defined.

(** ** The injector's file list (C10) *)

Section InjectorFiles.

Import ConfigInjector Described.

Variables (path_to_configure : string) (cfg : InstallConfiguration).

Let self := init path_to_configure cfg.
Let dir := path_to_configure +:+ "/injectionFiles/".

Lemma getitem_predefined (file : string) :
  predefined file = true ->
  exists link, getitem (injector_file_links self) file = Ok link.
Proof.
  unfold predefined, predefined_names. intros H.
  apply bool_decide_eq_true in H.
  repeat (apply elem_of_cons in H as [->|H]; [eexists; reflexivity|]).
  now apply elem_of_nil in H.
Qed.

Lemma getitem_other (file : string) :
  predefined file = false ->
  getitem (injector_file_links self) file = Raise KeyError.
Proof.
  unfold predefined. intros H. apply bool_decide_eq_false in H.
  unfold getitem.
  replace (injector_file_links self !! file) with (@None string);
    [reflexivity|].
  symmetry. apply not_elem_of_list_to_map_1. exact H.
Qed.

Lemma injector_files_loop_cons (file : string) (files acc : list string)
    (d : fs) :
  injector_files_loop self (file :: files) acc d =
  if regular_at d (dir +:+ file) then
    match getitem (injector_file_links self) file with
    | Ok _ => injector_files_loop self files (acc ++ [dir +:+ file]) d
    | Raise e => (Raise e, d)
    end
  else injector_files_loop self files acc d.
Proof.
  cbn [injector_files_loop]. unfold bind, OS.isfile, lift, regular_at.
  replace (ConfigInjector.path_to_configure self +:+ "/injectionFiles/"
           +:+ file)
    with (dir +:+ file) by (unfold dir; now rewrite append_assoc).
  destruct (d !! (dir +:+ file)) as [[c|w es]|]; reflexivity.
Qed.

Lemma injector_files_loop_stray (d : fs) (files acc : list string) :
  injector_files_loop self files acc d =
  if existsb (stray dir d) files then (Raise KeyError, d)
  else (Ok (acc ++ (String.append dir <$>
                      filter (fun f => Is_true (regular_at d (dir +:+ f)))
                        files))%list, d).
Proof.
  revert acc. induction files as [|file files IH]; intros acc.
  - simpl. now rewrite app_nil_r.
  - rewrite injector_files_loop_cons, filter_cons_bool.
    cbn [existsb]. unfold stray at 1.
    destruct (regular_at d (dir +:+ file)); [|apply IH].
    destruct (predefined file) eqn:Hp.
    + destruct (getitem_predefined file Hp) as [link ->].
      rewrite IH. simpl.
      destruct (existsb (stray dir d) files); [reflexivity|].
      now rewrite <- app_assoc.
    + now rewrite (getitem_other file Hp).
Qed.

End InjectorFiles.

(** C10. With the configure directory and its [injectionFiles] directory in
    place, [get_injector_files] fails with [KeyError] as soon as a regular
    file of the listing has a name that is not one of the four predefined
    ones; it returns (the paths of the regular files) exactly when every
    regular file of the listing has a predefined name. *)
Theorem get_injector_files_needs_predefined_names
    (path_to_configure : string) (cfg : InstallConfiguration) (d : fs)
    (w0 w : bool) (files0 files : list string) :
  let self := ConfigInjector.init path_to_configure cfg in
  let dir := path_to_configure +:+ "/injectionFiles/" in
  d !! path_to_configure = Some (Dir w0 files0) ->
  d !! (path_to_configure +:+ "/injectionFiles") = Some (Dir w files) ->
  (forall file,
     file ∈ files -> Described.regular_at d (dir +:+ file) = true ->
     Described.predefined file = false ->
     ConfigInjector.get_injector_files self d = (Raise KeyError, d))
  /\ ((forall file,
         file ∈ files -> Described.regular_at d (dir +:+ file) = true ->
         Described.predefined file = true) ->
      ConfigInjector.get_injector_files self d =
        (Ok (String.append dir <$>
               filter (fun f => Is_true (Described.regular_at d (dir +:+ f)))
                 files), d))
  /\ (forall l d',
        ConfigInjector.get_injector_files self d = (Ok l, d') ->
        forall file,
          file ∈ files -> Described.regular_at d (dir +:+ file) = true ->
          file ∈ Described.predefined_names).
Proof.
  intros self dir Hcp Hdir. subst self.
  assert (E : ConfigInjector.get_injector_files
                (ConfigInjector.init path_to_configure cfg) d =
              ConfigInjector.injector_files_loop
                (ConfigInjector.init path_to_configure cfg) files [] d).
  { unfold ConfigInjector.get_injector_files, bind, OS.path_exists, OS.isdir.
    cbn [ConfigInjector.path_to_configure ConfigInjector.init].
    rewrite Hcp, bool_decide_true by eauto. simpl.
    unfold OS.listdir. now rewrite Hdir. }
  rewrite E, injector_files_loop_stray. fold dir.
  assert (Hstray : forall file,
            file ∈ files -> Described.regular_at d (dir +:+ file) = true ->
            Described.predefined file = false ->
            existsb (Described.stray dir d) files = true).
  { intros file Hin Hreg Hp. apply existsb_exists. exists file.
    split; [now apply list_elem_of_In|].
    unfold Described.stray. now rewrite Hreg, Hp. }
  split; [|split].
  - intros file Hin Hreg Hp. now rewrite (Hstray file Hin Hreg Hp).
  - intros Hall.
    destruct (existsb (Described.stray dir d) files) eqn:Ex;
      [|reflexivity].
    apply existsb_exists in Ex as (file & Hin & Hs).
    unfold Described.stray in Hs.
    apply andb_prop in Hs as [Hreg Hp].
    apply list_elem_of_In in Hin.
    rewrite (Hall file Hin Hreg) in Hp. discriminate.
  - intros l d' Hok file Hin Hreg.
    destruct (Described.predefined file) eqn:Hp.
    + now apply bool_decide_eq_true in Hp.
    + rewrite (Hstray file Hin Hreg Hp) in Hok. discriminate.
Qed.

Lemma get_injector_files_needs_predefined_names_witness :
  ConfigInjector.get_injector_files Examples.ad_engine Examples.injection_disk
  = (Raise KeyError, Examples.injection_disk).
Proof.
  refine (proj1 (get_injector_files_needs_predefined_names "/cfg"
                   Examples.ad_config Examples.injection_disk true true
                   ["injectionFiles"] ["AD_RELEASE_CONFIG"; "README"]
                   _ _) "README" _ _ _).
  - vm_compute. reflexivity.
  - vm_compute. reflexivity.
  - repeat constructor.
  - vm_compute. reflexivity.
  - vm_compute. reflexivity.
Defined.

(** ** Injection (C2) *)

Section Injection.

Import ConfigInjector.

Lemma open_append_missing (p : string) (d : fs) (es : list string) :
  d !! p = None -> nonempty (OS.basename p) = true ->
  d !! OS.parent p = Some (Dir true es) ->
  OS.open_append p d =
  (Ok tt, <[p := File EmptyString]>
            (<[OS.parent p := Dir true (OS.add_entry (OS.basename p) es)]> d)).
Proof.
  intros Hp Hb Hpar. unfold OS.open_append, OS.create.
  now rewrite Hp, Hb, Hpar.
Qed.

Lemma open_append_no_directory (p : string) (d : fs) :
  d !! p = None -> nonempty (OS.basename p) = true ->
  d !! OS.parent p = None ->
  OS.open_append p d = (Raise FileNotFoundError, d).
Proof.
  intros Hp Hb Hpar. unfold OS.open_append, OS.create.
  now rewrite Hp, Hb, Hpar.
Qed.

Lemma write_twice (p a b : string) (d : fs) :
  <[p := File b]> (<[p := File a]> d) = <[p := File b]> d.
Proof. apply insert_insert_eq. Qed.

(** An existing target keeps its content and gets the markers and the
    fragment's lines after it. *)
Lemma inject_appends_to_existing_target (self : t)
    (injector_file_path link text old : string) (d : fs) :
  let target := convert_path_abs (install_config self) link in
  get_injector_file_link self injector_file_path = Ok link ->
  d !! target = Some (File old) ->
  d !! injector_file_path = Some (File text) ->
  injector_file_path <> target ->
  inject_to_file self injector_file_path d =
    (Ok tt,
     <[target := File (old +:+ start_marker
                       +:+ injected_lines (readlines text)
                       +:+ end_marker)]> d).
Proof.
  intros target Hlink Htarget Hfrag Hne.
  unfold inject_to_file, bind, lift. rewrite Hlink. fold target.
  unfold OS.open_append. rewrite Htarget.
  rewrite (write_file _ _ _ _ Htarget). unfold OS.read_file.
  rewrite lookup_insert_ne, Hfrag by congruence.
  erewrite write_file by apply lookup_insert_eq.
  rewrite write_twice.
  erewrite write_file by apply lookup_insert_eq.
  rewrite write_twice, !append_assoc. reflexivity.
Qed.

End Injection.

(** C2, as the design document words it, fails: when the resolved target
    is missing and its directory exists, [inject_to_file] returns normally
    and has created the target, holding the two markers around the lines of
    the fragment. *)
Lemma inject_creates_missing_target :
  let r := ConfigInjector.inject_to_file Examples.ad_engine
             "/cfg/injectionFiles/AD_RELEASE_CONFIG" Examples.injection_disk in
  Examples.injection_disk !! Examples.release_target = None
  /\ fst r = Ok tt
  /\ snd r !! Examples.release_target =
       Some (File (ConfigInjector.start_marker
                   +:+ "ADSIMDETECTOR=$(AREA_DETECTOR)/ADSimDetector" +:+ nl
                   +:+ "ADURL=$(AREA_DETECTOR)/ADURL" +:+ nl
                   +:+ ConfigInjector.end_marker))
  /\ ~ ((exists e, fst r = Raise e)
        /\ snd r !! Examples.release_target = None).
Proof.
  repeat split; try (vm_compute; reflexivity).
  intros [[e He] _]. vm_compute in He. discriminate.
Qed.

(** C2, amended. [inject_to_file] makes no check of its own on the target
    (there is no [TargetNotFound]). For a fragment that can be read and
    whose resolved target path, one with a file name after its last [/],
    names no existing file, the outcome is that of opening the target for
    appending. If the path names nothing and its directory exists and is
    writable, the target is created and the call returns, with the target
    holding the start marker, the fragment's lines that do not start with
    [#] and are longer than one character, and the end marker. Otherwise
    the call raises and the disk is as before: [FileNotFoundError] when the
    directory is missing, [PermissionError] when it is not writable,
    [NotADirectoryError] when the directory's path names a regular file,
    [IsADirectoryError] when the target path names a directory. *)
Theorem inject_to_missing_target (self : ConfigInjector.t)
    (injector_file_path link : string) (d : fs) :
  let target := convert_path_abs (ConfigInjector.install_config self) link in
  ConfigInjector.get_injector_file_link self injector_file_path = Ok link ->
  nonempty (OS.basename target) = true ->
  (forall es text,
     d !! target = None ->
     d !! OS.parent target = Some (Dir true es) ->
     d !! injector_file_path = Some (File text) ->
     ConfigInjector.inject_to_file self injector_file_path d =
       (Ok tt,
        <[target := File (ConfigInjector.start_marker
                          +:+ ConfigInjector.injected_lines (readlines text)
                          +:+ ConfigInjector.end_marker)]>
          (<[OS.parent target :=
               Dir true (OS.add_entry (OS.basename target) es)]> d)))
  /\ (d !! target = None ->
      d !! OS.parent target = None ->
      ConfigInjector.inject_to_file self injector_file_path d =
        (Raise FileNotFoundError, d))
  /\ (forall es,
        d !! target = None ->
        d !! OS.parent target = Some (Dir false es) ->
        ConfigInjector.inject_to_file self injector_file_path d =
          (Raise PermissionError, d))
  /\ (forall content,
        d !! target = None ->
        d !! OS.parent target = Some (File content) ->
        ConfigInjector.inject_to_file self injector_file_path d =
          (Raise NotADirectoryError, d))
  /\ (forall w es,
        d !! target = Some (Dir w es) ->
        ConfigInjector.inject_to_file self injector_file_path d =
          (Raise IsADirectoryError, d)).
Proof.
  intros target Hlink Hbase.
  assert (Hopen : ConfigInjector.inject_to_file self injector_file_path d =
            match OS.open_append target d with
            | (Ok _, d') =>
                bind (OS.write target ConfigInjector.start_marker)
                  (fun _ =>
                     bind (OS.read_file injector_file_path)
                       (fun text =>
                          bind (OS.write target
                                  (ConfigInjector.injected_lines
                                     (readlines text)))
                            (fun _ =>
                               OS.write target ConfigInjector.end_marker)))
                  d'
            | (Raise e, d') => (Raise e, d')
            end).
  { unfold ConfigInjector.inject_to_file, bind at 1 2, lift.
    rewrite Hlink. reflexivity. }
  rewrite Hopen. clear Hopen.
  split; [|split; [|split; [|split]]].
  - intros es text Hmiss Hpar Hfrag.
    assert (Hne : injector_file_path <> target) by congruence.
    assert (Hne' : injector_file_path <> OS.parent target) by congruence.
    rewrite (open_append_missing _ _ _ Hmiss Hbase Hpar). unfold bind.
    erewrite write_file by apply lookup_insert_eq.
    rewrite write_twice. unfold OS.read_file.
    rewrite lookup_insert_ne, lookup_insert_ne, Hfrag by congruence.
    erewrite write_file by apply lookup_insert_eq.
    rewrite write_twice.
    erewrite write_file by apply lookup_insert_eq.
    rewrite write_twice. rewrite !append_assoc. reflexivity.
  - intros Hmiss Hpar.
    now rewrite (open_append_no_directory _ _ Hmiss Hbase Hpar).
  - intros es Hmiss Hpar. unfold OS.open_append, OS.create.
    now rewrite Hmiss, Hbase, Hpar.
  - intros content Hmiss Hpar. unfold OS.open_append, OS.create.
    now rewrite Hmiss, Hbase, Hpar.
  - intros w es Hdir. unfold OS.open_append. now rewrite Hdir.
Qed.

Lemma inject_to_missing_target_witness :
  fst (ConfigInjector.inject_to_file Examples.ad_engine
         "/cfg/injectionFiles/AD_RELEASE_CONFIG" Examples.injection_disk)
  = Ok tt.
Proof.
  rewrite (proj1 (inject_to_missing_target Examples.ad_engine
                    "/cfg/injectionFiles/AD_RELEASE_CONFIG"
                    "$(AREA_DETECTOR)/configure/RELEASE_PRODS.local"
                    Examples.injection_disk eq_refl eq_refl)
             ["RELEASE"] Examples.release_fragment eq_refl eq_refl eq_refl).
  reflexivity.
Defined.

(** ** The manifest parser (C3, C4, C9) *)

Section Parser.

Import ConfigParser Described.

Variables (configure_path : string) (force_location : option string)
          (allow_illegal : bool).

Abbreviation parse_line :=
  (parse_line configure_path force_location allow_illegal).
Abbreviation parse_lines :=
  (parse_lines configure_path force_location allow_illegal).

Lemma parse_line_ignored (raw : string) (l : locals) (d : fs) :
  ignored raw = true -> parse_line raw l d = (Ok (Next l), d).
Proof.
  unfold ignored, ConfigParser.parse_line. intros H.
  apply negb_true_iff in H. now rewrite H.
Qed.

Lemma split_after_prefix (c : ascii) (p r : string) :
  count_chr c p = 1 ->
  exists u, index (split_chr c (p +:+ r)) 1 = Ok u.
Proof.
  intros H.
  destruct (index_Ok (split_chr c (p +:+ r)) 1) as (u & E & _);
    [|now exists u].
  rewrite split_chr_length, count_chr_app. lia.
Qed.

Lemma parse_line_url (raw : string) (l : locals) (d : fs) :
  url_line raw = true ->
  exists u t,
    parse_line raw l d =
    (Ok (Next (mkLocals (install_config l) u t (message l))), d).
Proof.
  unfold url_line, ConfigParser.parse_line. intros H.
  apply andb_prop in H as [H Hurl]. apply andb_prop in H as [Hp Hi].
  apply negb_true_iff in Hi. rewrite Hp, Hi.
  assert (Hpre : startswith (strip raw) "GIT_URL"
                 || startswith (strip raw) "WGET_URL" = true
                 /\ exists u, index (split_chr "=" (strip raw)) 1 = Ok u).
  { apply orb_prop in Hurl as [Hg|Hw].
    - apply startswith_prefix in Hg as [r ->]. split; [reflexivity|].
      now apply split_after_prefix.
    - apply startswith_prefix in Hw as [r ->]. split.
      + apply orb_true_r.
      + now apply split_after_prefix. }
  destruct Hpre as [-> [u Hu]]. unfold lift. rewrite Hu. simpl.
  destruct (split_by_cons (Ascii.eqb "=") (strip raw)) as (t & rest & E).
  unfold split_chr, index. rewrite E. simpl. eauto.
Qed.

Lemma parse_line_to_module_good (raw u t : string) :
  6 <= length (fields raw) ->
  exists m, parse_line_to_module (strip raw) u t = Ok m
            /\ columns m = row_columns raw
            /\ url m = u /\ url_type m = t.
Proof.
  unfold parse_line_to_module, row_columns, fields. intros H.
  destruct (split_chr " " (squeeze_spaces (tabs_to_spaces (strip raw))))
    as [|f0 [|f1 [|f2 [|f3 [|f4 [|f5 rest]]]]]]; simpl in H; try lia.
  simpl. eexists. repeat split.
Qed.

Lemma parse_line_to_module_short (line u t : string) :
  length (split_chr " " (squeeze_spaces (tabs_to_spaces line))) < 6 ->
  parse_line_to_module line u t = Raise IndexError.
Proof.
  unfold parse_line_to_module. intros H.
  destruct (split_chr " " (squeeze_spaces (tabs_to_spaces line)))
    as [|f0 [|f1 [|f2 [|f3 [|f4 [|f5 rest]]]]]]; simpl in H; try lia;
    reflexivity.
Qed.

Lemma module_row_branch (raw : string) (l : locals) (d : fs) :
  module_row raw = true ->
  parse_line raw l d =
  lift (let? install_module :=
          parse_line_to_module (strip raw) (current_url l)
            (current_url_type l) in
        match install_config l with
        | Some cfg =>
            Ok (Next (mkLocals (Some (add_module cfg install_module))
                        (current_url l) (current_url_type l) (message l)))
        | None => Raise AttributeError
        end) d.
Proof.
  unfold module_row, ConfigParser.parse_line. intros H.
  apply andb_prop in H as [H Hu]. apply andb_prop in H as [Hp Hi].
  apply negb_true_iff in Hi, Hu. now rewrite Hp, Hi, Hu.
Qed.

Lemma parse_line_row (raw : string) (l : locals)
    (cfg : InstallConfiguration) (d : fs) :
  good_row raw = true -> install_config l = Some cfg ->
  exists m,
    parse_line raw l d =
    (Ok (Next (mkLocals (Some (add_module cfg m)) (current_url l)
                 (current_url_type l) (message l))), d)
    /\ columns m = row_columns raw.
Proof.
  unfold good_row. intros H Hcfg.
  apply andb_prop in H as [Hrow Hlen]. apply Nat.leb_le in Hlen.
  rewrite (module_row_branch _ _ _ Hrow).
  destruct (parse_line_to_module_good raw (current_url l)
              (current_url_type l) Hlen) as (m & -> & Hcols & _).
  exists m. unfold lift. simpl. now rewrite Hcfg.
Qed.

Lemma add_module_columns (cfg : InstallConfiguration) (m : InstallModule) :
  columns <$> modules (add_module cfg m)
  = ((columns <$> modules cfg) ++ [columns m])%list.
Proof. unfold add_module. simpl. now rewrite fmap_app. Qed.

Lemma parse_lines_app (lines1 lines2 : list string) (l l1 : locals)
    (d d1 : fs) :
  parse_lines lines1 l d = (Ok (Next l1), d1) ->
  parse_lines (lines1 ++ lines2) l d = parse_lines lines2 l1 d1.
Proof.
  revert l d. induction lines1 as [|raw lines1 IH]; intros l d; simpl.
  - now intros [= <- <-].
  - unfold bind. destruct (parse_line raw l d) as [[[l'|r]|e] d'];
      try discriminate.
    apply IH.
Qed.

(** Before the [INSTALL=] line, ignored lines and URL directives leave
    the configuration unset and the message as it is. *)
Lemma parse_lines_preamble (lines : list string) (l : locals) (d : fs) :
  Forall (fun raw => preamble_line raw = true) lines ->
  exists l',
    parse_lines lines l d = (Ok (Next l'), d)
    /\ install_config l' = install_config l /\ message l' = message l.
Proof.
  intros H. revert l. induction H as [|raw lines Hraw _ IH]; intros l; simpl.
  - now exists l.
  - unfold bind. apply orb_prop in Hraw as [Hig|Hurl].
    + rewrite (parse_line_ignored _ _ _ Hig). apply IH.
    + destruct (parse_line_url raw l d Hurl) as (u & t & ->).
      destruct (IH (mkLocals (install_config l) u t (message l)))
        as (l' & E & Hc & Hm).
      now exists l'.
Qed.

(** After it, every good row adds one module, in order. *)
Lemma parse_lines_body (lines : list string) (l : locals)
    (cfg : InstallConfiguration) (d : fs) :
  Forall (fun raw => body_line raw = true) lines ->
  install_config l = Some cfg ->
  exists l' cfg',
    parse_lines lines l d = (Ok (Next l'), d)
    /\ install_config l' = Some cfg'
    /\ message l' = message l
    /\ install_location cfg' = install_location cfg
    /\ columns <$> modules cfg'
       = ((columns <$> modules cfg) ++
            (row_columns <$>
               filter (fun raw => Is_true (good_row raw)) lines))%list.
Proof.
  intros H. revert l cfg.
  induction H as [|raw lines Hraw _ IH]; intros l cfg Hcfg; simpl.
  - exists l, cfg. now rewrite app_nil_r.
  - unfold bind. rewrite filter_cons_bool.
    destruct (good_row raw) eqn:Hgood.
    + destruct (parse_line_row raw l cfg d Hgood Hcfg) as (m & -> & Hname).
      destruct (IH (mkLocals (Some (add_module cfg m)) (current_url l)
                      (current_url_type l) (message l)) _ eq_refl)
        as (l' & cfg' & E & Hc & Hm & Hloc & Hnames).
      exists l', cfg'. repeat split; try assumption.
      rewrite Hnames, add_module_columns, Hname, <- app_assoc. reflexivity.
    + unfold body_line in Hraw. rewrite Hgood, orb_false_r in Hraw.
      apply orb_prop in Hraw as [Hig|Hurl].
      * rewrite (parse_line_ignored _ _ _ Hig). now apply IH.
      * destruct (parse_line_url raw l d Hurl) as (u & t & ->).
        destruct (IH (mkLocals (install_config l) u t (message l)) cfg Hcfg)
          as (l' & cfg' & E & Hc & Hm & Hloc & Hnames).
        now exists l', cfg'.
Qed.

(** The [INSTALL=] line with a usable install root. *)
Lemma parse_line_install (raw : string) (l : locals) (d : fs) :
  install_line raw = true ->
  usable_root d (install_root force_location raw) = true ->
  parse_line raw l d =
  (Ok (Next (mkLocals
               (Some (new_config (install_root force_location raw)
                        configure_path))
               (current_url l) (current_url_type l) (message l))),
   with_root d (install_root force_location raw)).
Proof.
  unfold install_line, usable_root, with_root, ConfigParser.parse_line.
  intros H Hroot. apply andb_prop in H as [-> ->].
  unfold install_directive, bind, is_install_valid.
  fold (install_root force_location raw).
  cbn [install_location new_config].
  destruct (d !! install_root force_location raw) as [[c|[|] es]|] eqn:E;
    try discriminate; try reflexivity.
  simpl. unfold OS.mkdir, OS.create.
  destruct (d !! OS.parent (install_root force_location raw))
    as [[c|[|] es]|]; try discriminate.
  reflexivity.
Qed.

Lemma with_root_directory (d : fs) (loc p : string) :
  is_directory d p = true -> is_directory (with_root d loc) p = true.
Proof.
  unfold with_root, is_directory. intros H.
  destruct (d !! loc) eqn:Eloc; [exact H|].
  unfold OS.mkdir, OS.create.
  destruct (d !! OS.parent loc) as [[c|[|] es]|]; simpl; try exact H.
  assert (p <> loc) by (intros ->; now rewrite Eloc in H).
  rewrite lookup_insert_ne by congruence.
  destruct (decide (OS.parent loc = p)) as [->|Hne].
  - now rewrite lookup_insert_eq.
  - now rewrite lookup_insert_ne.
Qed.

(** *** The two passes after the main loop *)

Lemma injector_lines_total (lines : list string) (contents link : string) :
  exists r, injector_lines lines contents link = Ok r.
Proof.
  revert contents link.
  induction lines as [|line lines IH]; intros contents link; simpl;
    [eauto|].
  destruct (negb (startswith line "#") && Nat.ltb 1 (String.length line));
    [|apply IH].
  destruct (startswith line "__TARGET_LOC__=") eqn:Ht; [|apply IH].
  apply startswith_prefix in Ht as [r Hr].
  destruct (index_Ok (split_chr "=" (strip line)) 1) as (u & -> & _).
  - rewrite split_chr_length, strip_count, Hr, count_chr_app by reflexivity.
    simpl. lia.
  - simpl. apply IH.
Qed.

Lemma for_regular_files_total (dir : string)
    (body : string -> InstallConfiguration -> io InstallConfiguration)
    (d : fs) (files : list string) (cfg : InstallConfiguration) :
  (forall file c cfg0,
     d !! (dir +:+ file) = Some (File c) ->
     exists cfg1, body file cfg0 d = (Ok cfg1, d) /\ same_modules cfg0 cfg1) ->
  exists cfg',
    for_regular_files dir body files cfg d = (Ok cfg', d)
    /\ same_modules cfg cfg'.
Proof.
  intros Hbody. revert cfg.
  induction files as [|file files IH]; intros cfg; simpl.
  - exists cfg. now split.
  - unfold bind, OS.isfile.
    destruct (d !! (dir +:+ file)) as [[c|w es]|] eqn:E; try apply IH.
    destruct (Hbody file c cfg E) as (cfg1 & -> & Hm1 & Hl1).
    destruct (IH cfg1) as (cfg' & -> & Hm & Hl).
    exists cfg'. repeat split; congruence.
Qed.

Lemma read_injector_files_total (cfg : InstallConfiguration) (d : fs) :
  is_directory d (configure_path +:+ "/injectionFiles") = true ->
  exists cfg',
    read_injector_files configure_path (Some cfg) d = (Ok (Some cfg'), d)
    /\ same_modules cfg cfg'.
Proof.
  unfold is_directory, read_injector_files, bind, OS.listdir. intros H.
  destruct (d !! (configure_path +:+ "/injectionFiles")) as [[c|w es]|];
    try discriminate.
  destruct (for_regular_files_total
              (configure_path +:+ "/injectionFiles/")
              (parse_injector_file configure_path) d es cfg)
    as (cfg' & -> & Hsame).
  - intros file c cfg0 Hfile.
    unfold parse_injector_file, bind, OS.read_file, lift.
    rewrite append_assoc in Hfile. rewrite Hfile.
    destruct (injector_lines_total (readlines c) EmptyString EmptyString)
      as [r ->].
    eexists. split; [reflexivity|]. now split.
  - now exists cfg'.
Qed.

Lemma read_build_flags_total (cfg : InstallConfiguration) (d : fs) :
  is_directory d (configure_path +:+ "/macroFiles") = true ->
  exists cfg',
    read_build_flags configure_path (Some cfg) d = (Ok (Some cfg'), d)
    /\ same_modules cfg cfg'.
Proof.
  unfold is_directory, read_build_flags, bind, OS.listdir. intros H.
  destruct (d !! (configure_path +:+ "/macroFiles")) as [[c|w es]|];
    try discriminate.
  destruct (for_regular_files_total
              (configure_path +:+ "/macroFiles/")
              (parse_macro_file configure_path) d es cfg)
    as (cfg' & -> & Hsame).
  - intros file c cfg0 Hfile.
    unfold parse_macro_file, bind, OS.read_file.
    rewrite append_assoc in Hfile. rewrite Hfile.
    eexists. split; [reflexivity|]. now split.
  - now exists cfg'.
Qed.

End Parser.

Section ParseInstallConfig.

Import ConfigParser Described.

Lemma parse_lines_without (configure_path : string)
    (force_location : option string) (allow_illegal : bool)
    (raw : string) (pre post : list string) (l : locals) (d : fs) :
  (forall l0 d0,
     parse_line configure_path force_location allow_illegal raw l0 d0
     = (Ok (Next l0), d0)) ->
  parse_lines configure_path force_location allow_illegal
    (pre ++ raw :: post) l d
  = parse_lines configure_path force_location allow_illegal
      (pre ++ post) l d.
Proof.
  intros Hskip. revert l d.
  induction pre as [|x pre IH]; intros l d; simpl; unfold bind.
  - now rewrite Hskip.
  - destruct (parse_line _ _ _ x l d) as [[[l'|r]|e] d']; try reflexivity.
    apply IH.
Qed.

Lemma parse_install_config_loop (configure_path config_filename : string)
    (force_location : option string) (allow_illegal : bool)
    (text : string) (d : fs) :
  d !! (configure_path +:+ "/" +:+ config_filename) = Some (File text) ->
  parse_install_config configure_path config_filename force_location
    allow_illegal d =
  match parse_lines configure_path force_location allow_illegal
          (readlines text)
          (mkLocals None EmptyString EmptyString EmptyString) d with
  | (Ok (Return r), d') => (Ok r, d')
  | (Ok (Next l), d') =>
      match read_injector_files configure_path (install_config l) d' with
      | (Ok c1, d1) =>
          match read_build_flags configure_path c1 d1 with
          | (Ok c2, d2) => (Ok (c2, message l), d2)
          | (Raise e, d2) => (Raise e, d2)
          end
      | (Raise e, d1) => (Raise e, d1)
      end
  | (Raise e, d') => (Raise e, d')
  end.
Proof.
  intros Hfile.
  unfold parse_install_config, bind, OS.path_exists, OS.read_file.
  rewrite Hfile, bool_decide_true by eauto. cbn beta iota.
  rewrite Hfile.
  destruct (parse_lines _ _ _ _ _ d) as [[[l|r]|e] d']; reflexivity.
Qed.

End ParseInstallConfig.

(** Where no row begins with [GIT_URL] or [WGET_URL], three rows give
    three modules. A manifest whose lines are: ignored lines and URL
    directives, then one [INSTALL=] line, then ignored lines, URL directives
    and rows of six fields or more that the parser hands to
    [parse_line_to_module], three rows in all, parsed where the install root
    is usable and the two directive directories exist, gives a configuration
    with exactly three modules, which carry the columns of the three rows in
    manifest order, and the empty message. *)
Lemma parse_three_module_rows (configure_path config_filename : string)
    (force_location : option string) (allow_illegal : bool)
    (text : string) (d : fs) (pre post : list string)
    (install_raw r1 r2 r3 : string) :
  let root := Described.install_root force_location install_raw in
  d !! (configure_path +:+ "/" +:+ config_filename) = Some (File text) ->
  readlines text = (pre ++ install_raw :: post)%list ->
  Forall (fun raw => Described.preamble_line raw = true) pre ->
  Described.install_line install_raw = true ->
  Forall (fun raw => Described.body_line raw = true) post ->
  filter (fun raw => Is_true (Described.good_row raw)) post = [r1; r2; r3] ->
  Described.usable_root d root = true ->
  Described.is_directory d (configure_path +:+ "/injectionFiles") = true ->
  Described.is_directory d (configure_path +:+ "/macroFiles") = true ->
  exists cfg,
    ConfigParser.parse_install_config configure_path config_filename
      force_location allow_illegal d
    = (Ok (Some cfg, EmptyString), Described.with_root d root)
    /\ length (modules cfg) = 3
    /\ Described.columns <$> modules cfg
       = [Described.row_columns r1; Described.row_columns r2;
          Described.row_columns r3]
    /\ install_location cfg = root.
Proof.
  intros root Hfile Hlines Hpre Hinst Hpost Hrows Hroot Hinj Hmac.
  rewrite (parse_install_config_loop _ _ _ _ _ _ Hfile), Hlines.
  destruct (parse_lines_preamble configure_path force_location allow_illegal
              pre (ConfigParser.mkLocals None "" "" "") d Hpre)
    as (l0 & E0 & _ & Hm0).
  rewrite (parse_lines_app _ _ _ _ _ _ _ _ _ E0).
  cbn [ConfigParser.parse_lines]. unfold bind at 1.
  rewrite (parse_line_install _ _ _ _ _ _ Hinst Hroot). fold root.
  destruct (parse_lines_body configure_path force_location allow_illegal
              post
              (ConfigParser.mkLocals (Some (new_config root configure_path))
                 (ConfigParser.current_url l0)
                 (ConfigParser.current_url_type l0) (ConfigParser.message l0))
              (new_config root configure_path)
              (Described.with_root d root) Hpost eq_refl)
    as (l' & cfg' & -> & Hc & Hm & Hloc & Hnames).
  rewrite Hc.
  destruct (read_injector_files_total configure_path cfg'
              (Described.with_root d root)
              (with_root_directory _ _ _ Hinj)) as (c1 & -> & Hm1 & Hl1).
  destruct (read_build_flags_total configure_path c1
              (Described.with_root d root)
              (with_root_directory _ _ _ Hmac)) as (c2 & -> & Hm2 & Hl2).
  exists c2.
  assert (Hn : Described.columns <$> modules c2
               = [Described.row_columns r1; Described.row_columns r2;
                  Described.row_columns r3]).
  { rewrite Hm2, Hm1, Hnames, Hrows. reflexivity. }
  repeat split.
  - rewrite Hm. simpl in *. now rewrite Hm0.
  - apply (f_equal length) in Hn. now rewrite length_fmap in Hn.
  - exact Hn.
  - rewrite Hl2, Hl1, Hloc. reflexivity.
Qed.

Lemma parse_three_module_rows_witness :
  exists cfg,
    fst (ConfigParser.parse_install_config "/cfg" "INSTALL_CONFIG" None false
           (Examples.manifest_disk Examples.manifest))
    = Ok (Some cfg, EmptyString)
    /\ Described.columns <$> modules cfg
       = [["EPICS_BASE"; "R7.0.2.2"; "$(INSTALL)/base"; "base"; "YES"; "YES"];
          ["SUPPORT"; "R6-0"; "$(INSTALL)/support"; "support"; "YES"; "YES"];
          ["AREA_DETECTOR"; "R3-6"; "$(SUPPORT)/areaDetector"; "ad"; "YES";
           "NO"]].
Proof.
  destruct (parse_three_module_rows "/cfg" "INSTALL_CONFIG" None false
              Examples.manifest (Examples.manifest_disk Examples.manifest)
              ["# modules of the test installation" +:+ nl; nl]
              ["GIT_URL=https://github.com/dummyurl/test/" +:+ nl;
               "EPICS_BASE     R7.0.2.2  $(INSTALL)/base  base  YES  YES"
                 +:+ nl;
               "SUPPORT R6-0 $(INSTALL)/support"
                 +:+ String "009" "support YES YES" +:+ nl;
               "AREA_DETECTOR R3-6 $(SUPPORT)/areaDetector ad YES NO" +:+ nl]
              ("INSTALL=/epics/test" +:+ nl)
              ("EPICS_BASE     R7.0.2.2  $(INSTALL)/base  base  YES  YES"
                 +:+ nl)
              ("SUPPORT R6-0 $(INSTALL)/support"
                 +:+ String "009" "support YES YES" +:+ nl)
              ("AREA_DETECTOR R3-6 $(SUPPORT)/areaDetector ad YES NO" +:+ nl))
    as (cfg & E & _ & Hn & _).
  - vm_compute. reflexivity.
  - vm_compute. reflexivity.
  - repeat constructor.
  - vm_compute. reflexivity.
  - repeat constructor.
  - vm_compute. reflexivity.
  - vm_compute. reflexivity.
  - vm_compute. reflexivity.
  - vm_compute. reflexivity.
  - exists cfg. rewrite E. split; [reflexivity|exact Hn].
Defined.

(** C3. The parser takes every processed line that begins with [GIT_URL]
    or [WGET_URL] for a URL directive, with or without the [=] after the
    word, whatever the number of its fields. A module row of a module whose
    name begins with one of the two words therefore never becomes a module:
    when the row has no [=], the parse ends with an uncaught [IndexError];
    when it has one, the line only changes the current URL and URL type and
    the configuration is left as it is. *)
Theorem url_named_row_is_not_a_module
    (configure_path config_filename : string)
    (force_location : option string) (allow_illegal : bool)
    (text : string) (d d1 : fs) (pre post : list string) (raw : string)
    (l1 : ConfigParser.locals) :
  d !! (configure_path +:+ "/" +:+ config_filename) = Some (File text) ->
  readlines text = (pre ++ raw :: post)%list ->
  ConfigParser.parse_lines configure_path force_location allow_illegal pre
    (ConfigParser.mkLocals None EmptyString EmptyString EmptyString) d
    = (Ok (ConfigParser.Next l1), d1) ->
  ConfigParser.is_processed (strip raw) = true ->
  startswith (strip raw) "INSTALL=" = false ->
  startswith (strip raw) "GIT_URL" || startswith (strip raw) "WGET_URL"
    = true ->
  (count_chr "=" (strip raw) = 0 ->
   ConfigParser.parse_install_config configure_path config_filename
     force_location allow_illegal d
   = (Raise IndexError, d1))
  /\ (1 <= count_chr "=" (strip raw) ->
      exists u t,
        ConfigParser.parse_line configure_path force_location allow_illegal
          raw l1 d1
        = (Ok (ConfigParser.Next
                 (ConfigParser.mkLocals (ConfigParser.install_config l1) u t
                    (ConfigParser.message l1))), d1)).
Proof.
  intros Hfile Hlines Hpre Hp Hi Hurl.
  assert (Hline : ConfigParser.parse_line configure_path force_location
                    allow_illegal raw l1 d1
                  = lift (let? u := index (split_chr "=" (strip raw)) 1 in
                          let? t := index (split_chr "=" (strip raw)) 0 in
                          Ok (ConfigParser.Next
                                (ConfigParser.mkLocals
                                   (ConfigParser.install_config l1) u t
                                   (ConfigParser.message l1)))) d1).
  { unfold ConfigParser.parse_line. now rewrite Hp, Hi, Hurl. }
  split.
  - intros Hno.
    rewrite (parse_install_config_loop _ _ _ _ _ _ Hfile), Hlines.
    rewrite (parse_lines_app _ _ _ _ _ _ _ _ _ Hpre).
    cbn [ConfigParser.parse_lines]. unfold bind. rewrite Hline.
    unfold lift. now rewrite (split_chr_none _ _ Hno).
  - intros Hsome. rewrite Hline. unfold lift.
    pose proof (split_chr_length "=" (strip raw)) as Hlen.
    destruct (split_chr "=" (strip raw)) as [|t [|u rest]];
      simpl in Hlen; try lia.
    exists u, t. reflexivity.
Qed.

Lemma url_named_row_is_not_a_module_witness :
  let row := "GIT_URL_TOOLS R1-0 $(INSTALL)/tools tools YES YES" +:+ nl in
  Described.fields row
    = ["GIT_URL_TOOLS"; "R1-0"; "$(INSTALL)/tools"; "tools"; "YES"; "YES"]
  /\ fst (ConfigParser.parse_install_config "/cfg" "INSTALL_CONFIG" None
            false (Examples.manifest_disk Examples.url_named_row_manifest))
     = Raise IndexError.
Proof.
  intros row. split; [vm_compute; reflexivity|].
  pose (d := Examples.manifest_disk Examples.url_named_row_manifest).
  pose (pre := ["INSTALL=/epics/test" +:+ nl;
                "GIT_URL=https://github.com/dummyurl/test/" +:+ nl;
                "EPICS_BASE R7.0.2.2 $(INSTALL)/base base YES YES" +:+ nl]).
  pose (s := ConfigParser.parse_lines "/cfg" None false pre
               (ConfigParser.mkLocals None EmptyString EmptyString EmptyString)
               d).
  destruct (url_named_row_is_not_a_module "/cfg" "INSTALL_CONFIG" None false
              Examples.url_named_row_manifest d (snd s) pre
              ["SUPPORT R6-0 $(INSTALL)/support support YES YES" +:+ nl]
              row
              (ConfigParser.mkLocals
                 (Some (add_module (new_config "/epics/test" "/cfg")
                          (new_module "EPICS_BASE" "R7.0.2.2"
                             "$(INSTALL)/base" "GIT_URL"
                             "https://github.com/dummyurl/test/" "base"
                             "YES" "YES")))
                 "https://github.com/dummyurl/test/" "GIT_URL" EmptyString))
    as [E _].
  - vm_compute. reflexivity.
  - vm_compute. reflexivity.
  - apply run_returns. vm_compute. reflexivity.
  - vm_compute. reflexivity.
  - vm_compute. reflexivity.
  - vm_compute. reflexivity.
  - fold d. rewrite E; [reflexivity|]. vm_compute. reflexivity.
Defined.

(** C4, as the design document words it, fails: a manifest with a row of
    three fields makes [parse_install_config] raise [IndexError]; nothing is
    returned, so no message names the row or its line number. *)
Lemma short_row_is_not_reported :
  let r := fst (ConfigParser.parse_install_config "/cfg" "INSTALL_CONFIG"
                  None false
                  (Examples.manifest_disk Examples.short_row_manifest)) in
  length (Described.fields ("SUPPORT R6-0 $(INSTALL)/support" +:+ nl)) = 3
  /\ r = Raise IndexError
  /\ ~ Described.reports_malformed r "SUPPORT R6-0 $(INSTALL)/support".
Proof.
  repeat split; try (vm_compute; reflexivity).
  intros (msg & H & _). vm_compute in H. discriminate.
Qed.

(** C4, amended. For every line that the parser hands to
    [parse_line_to_module] (a line that, stripped, is longer than one
    character and starts neither with [#] nor with [INSTALL=], [GIT_URL] or
    [WGET_URL]) and that has fewer than six fields after white-space
    normalization, [parse_line_to_module] raises [IndexError], and a parse
    that reaches the line ends with that exception, uncaught: no
    configuration and no message are returned, so neither the line nor its
    number is reported. *)
Theorem short_row_raises_index_error
    (configure_path config_filename : string)
    (force_location : option string) (allow_illegal : bool)
    (text : string) (d d1 : fs) (pre post : list string) (raw : string)
    (l1 : ConfigParser.locals) :
  d !! (configure_path +:+ "/" +:+ config_filename) = Some (File text) ->
  readlines text = (pre ++ raw :: post)%list ->
  ConfigParser.parse_lines configure_path force_location allow_illegal pre
    (ConfigParser.mkLocals None EmptyString EmptyString EmptyString) d
    = (Ok (ConfigParser.Next l1), d1) ->
  Described.module_row raw = true ->
  length (Described.fields raw) < 6 ->
  (forall u t,
     ConfigParser.parse_line_to_module (strip raw) u t = Raise IndexError)
  /\ ConfigParser.parse_install_config configure_path config_filename
       force_location allow_illegal d
     = (Raise IndexError, d1).
Proof.
  intros Hfile Hlines Hpre Hrow Hshort.
  assert (Hraise : forall u t,
            ConfigParser.parse_line_to_module (strip raw) u t
            = Raise IndexError).
  { intros u t. now apply parse_line_to_module_short. }
  split; [exact Hraise|].
  rewrite (parse_install_config_loop _ _ _ _ _ _ Hfile), Hlines.
  rewrite (parse_lines_app _ _ _ _ _ _ _ _ _ Hpre).
  cbn [ConfigParser.parse_lines]. unfold bind.
  rewrite (module_row_branch _ _ _ _ _ _ Hrow). unfold lift.
  now rewrite Hraise.
Qed.

Lemma short_row_raises_index_error_witness :
  fst (ConfigParser.parse_install_config "/cfg" "INSTALL_CONFIG" None false
         (Examples.manifest_disk Examples.short_row_manifest))
  = Raise IndexError.
Proof.
  pose (d := Examples.manifest_disk Examples.short_row_manifest).
  pose (pre := ["INSTALL=/epics/test" +:+ nl;
                "GIT_URL=https://github.com/dummyurl/test/" +:+ nl]).
  pose (s := ConfigParser.parse_lines "/cfg" None false pre
               (ConfigParser.mkLocals None EmptyString EmptyString EmptyString)
               d).
  destruct (short_row_raises_index_error "/cfg" "INSTALL_CONFIG" None false
              Examples.short_row_manifest d (snd s) pre []
              ("SUPPORT R6-0 $(INSTALL)/support" +:+ nl)
              (ConfigParser.mkLocals
                 (Some (new_config "/epics/test" "/cfg"))
                 "https://github.com/dummyurl/test/" "GIT_URL" EmptyString))
    as [_ E].
  - vm_compute. reflexivity.
  - vm_compute. reflexivity.
  - apply run_returns. vm_compute. reflexivity.
  - vm_compute. reflexivity.
  - vm_compute. lia.
  - fold d. rewrite E. reflexivity.
Defined.

(** C9. A line that is one character long after stripping is passed over,
    whatever the character: the parse of a manifest is the parse of the
    manifest without that line. *)
Theorem one_character_line_is_ignored (configure_path : string)
    (force_location : option string) (allow_illegal : bool)
    (raw : string) (pre post : list string) (l : ConfigParser.locals)
    (d : fs) :
  String.length (strip raw) = 1 ->
  ConfigParser.parse_line configure_path force_location allow_illegal raw l d
    = (Ok (ConfigParser.Next l), d)
  /\ ConfigParser.parse_lines configure_path force_location allow_illegal
       (pre ++ raw :: post) l d
     = ConfigParser.parse_lines configure_path force_location allow_illegal
         (pre ++ post) l d.
Proof.
  intros Hlen.
  assert (Hig : Described.ignored raw = true).
  { unfold Described.ignored, ConfigParser.is_processed.
    rewrite Hlen. simpl. now rewrite andb_false_r. }
  split.
  - now apply parse_line_ignored.
  - apply parse_lines_without. intros l0 d0. now apply parse_line_ignored.
Qed.

Lemma one_character_line_is_ignored_witness :
  Described.skipped_line ("X" +:+ nl) = false
  /\ fst (ConfigParser.parse_lines "/cfg" None false
            (readlines Examples.one_character_manifest)
            (ConfigParser.mkLocals None EmptyString EmptyString EmptyString)
            (Examples.manifest_disk Examples.one_character_manifest))
     = Ok (ConfigParser.Next
             (ConfigParser.mkLocals (Some (new_config "/epics/test" "/cfg"))
                EmptyString EmptyString EmptyString)).
Proof.
  split; [reflexivity|].
  change (readlines Examples.one_character_manifest)
    with (["INSTALL=/epics/test" +:+ nl] ++ ("X" +:+ nl) :: [])%list.
  rewrite (proj2 (one_character_line_is_ignored "/cfg" None false
                    ("X" +:+ nl) ["INSTALL=/epics/test" +:+ nl] [] _ _
                    eq_refl)).
  vm_compute. reflexivity.
Defined.

(** * Further properties of the code *)

(** ** More on strings *)

Section MoreStrings.

Lemma length_append (a b : string) :
  String.length (a +:+ b) = String.length a + String.length b.
Proof.
  induction a as [|x a IH]; [reflexivity|].
  rewrite append_cons. simpl. now rewrite IH.
Qed.

Lemma split_chr_app_sep (c : ascii) (a b : string) :
  count_chr c a = 0 ->
  split_chr c (a +:+ String c b) = a :: split_chr c b.
Proof.
  unfold split_chr. induction a as [|x a IH]; intros H.
  - change (EmptyString +:+ String c b) with (String c b). simpl.
    now rewrite Ascii.eqb_refl.
  - rewrite append_cons. simpl in *.
    destruct (Ascii.eqb c x); simpl in H; [discriminate|].
    now rewrite (IH H).
Qed.

Lemma startswith_app (m b : string) : startswith (m +:+ b) m = true.
Proof.
  induction m as [|x m IH]; [now destruct b|].
  rewrite append_cons. simpl. now rewrite Ascii.eqb_refl, IH.
Qed.

Lemma contains_startswith (s m : string) :
  startswith s m = true -> contains s m = true.
Proof.
  intros H. destruct s as [|x s].
  - change (contains EmptyString m) with (startswith EmptyString m || false).
    now rewrite H.
  - change (contains (String x s) m)
      with (startswith (String x s) m || contains s m).
    now rewrite H.
Qed.

Lemma contains_compose (a m b : string) :
  contains (a +:+ m +:+ b) m = true.
Proof.
  induction a as [|x a IH].
  - change (EmptyString +:+ m +:+ b) with (m +:+ b).
    apply contains_startswith, startswith_app.
  - rewrite append_cons. simpl. rewrite IH. apply orb_true_r.
Qed.

Lemma contains_decompose (s m : string) :
  contains s m = true -> exists a b, s = a +:+ m +:+ b.
Proof.
  induction s as [|x s IH]; intros H.
  - change (contains EmptyString m)
      with (startswith EmptyString m || false) in H.
    rewrite orb_false_r in H. apply startswith_prefix in H as [r Hr].
    exists EmptyString, r. exact Hr.
  - change (contains (String x s) m)
      with (startswith (String x s) m || contains s m) in H.
    apply orb_prop in H as [H|H].
    + apply startswith_prefix in H as [r ->]. now exists EmptyString, r.
    + destruct (IH H) as (a & b & ->). now exists (String x a), b.
Qed.

Lemma contains_count (c : ascii) (s m : string) :
  contains s m = true -> count_chr c m <= count_chr c s.
Proof.
  intros H. destruct (contains_decompose s m H) as (a & b & ->).
  rewrite !count_chr_app. lia.
Qed.

End MoreStrings.

(** ** The script's path expansion and reader *)

Section ScriptPaths.

Import Script.

Import Described.

Lemma lookup_module_loop_first (n path : string)
    (before after : list (list pyval)) (row : list pyval) :
  Forall (other_row n) before ->
  row !! 0 = Some (PStr n) ->
  lookup_module_loop n path (before ++ row :: after) =
  (let? m2 := index row 2 in
   let? tail := index (split_chr ")" path) 1 in
   concat m2 tail).
Proof.
  intros Hbefore Hrow.
  induction Hbefore as [|r before (v & Hv & Hn) _ IH]; simpl.
  - unfold index at 1. rewrite Hrow. simpl. now rewrite String.eqb_refl.
  - unfold index at 1. rewrite Hv. simpl. now rewrite Hn.
Qed.

Lemma macro_tail (pre macro rest : string) :
  count_chr ")" pre = 0 -> count_chr ")" macro = 0 ->
  count_chr ")" rest = 0 ->
  index (split_chr ")" (pre +:+ (macro +:+ ")") +:+ rest)) 1 = Ok rest.
Proof.
  intros Hpre Hmacro Hrest.
  replace (pre +:+ (macro +:+ ")") +:+ rest)
    with ((pre +:+ macro) +:+ String ")" rest)
    by (now rewrite !append_assoc).
  rewrite split_chr_app_sep by (rewrite count_chr_app; lia).
  now rewrite (split_chr_none _ _ Hrest).
Qed.

End ScriptPaths.

(** X1. A path with [$(INSTALL)] in it expands to the install directory
    followed by what stands between the macro's closing parenthesis and the
    end of the path (no other [)] occurring); what stands before the macro
    is dropped and the known modules are not looked at. *)
Theorem expand_install_macro (pre rest install_dir : string)
    (rows : list (list Script.pyval)) :
  count_chr ")" pre = 0 ->
  count_chr ")" rest = 0 ->
  Script.expand_module_path (pre +:+ "$(INSTALL)" +:+ rest) rows install_dir
  = Ok (Script.PStr (install_dir +:+ rest)).
Proof.
  intros Hpre Hrest. unfold Script.expand_module_path.
  rewrite contains_compose.
  pose proof (macro_tail pre "$(INSTALL" rest Hpre eq_refl Hrest) as Ht.
    change ("$(INSTALL" +:+ ")") with "$(INSTALL)" in Ht. now rewrite Ht.
Qed.

Lemma expand_install_macro_witness :
  Script.expand_module_path "lib/$(INSTALL)/base"
    [[Script.PStr "SUPPORT"]] "/epics/test"
  = Ok (Script.PStr "/epics/test/base").
Proof.
  exact (expand_install_macro "lib/" "/base" "/epics/test"
           [[Script.PStr "SUPPORT"]] eq_refl eq_refl).
Defined.

(** X2. A path with [$(SUPPORT)] (and without [$(INSTALL)]) expands to the
    path column of the first row called [SUPPORT], followed by what stands
    after the macro; later rows of that name are not used. With
    [$(AREA_DETECTOR)] (and neither of the other two macros) it is the first
    row called [AREA_DETECTOR]. *)
Theorem expand_uses_first_matching_row (pre rest install_dir p : string)
    (before after : list (list Script.pyval)) (row : list Script.pyval) :
  count_chr ")" pre = 0 ->
  count_chr ")" rest = 0 ->
  row !! 2 = Some (Script.PStr p) ->
  (contains (pre +:+ "$(SUPPORT)" +:+ rest) "$(INSTALL)" = false ->
   Forall (Described.other_row "SUPPORT") before ->
   row !! 0 = Some (Script.PStr "SUPPORT") ->
   Script.expand_module_path (pre +:+ "$(SUPPORT)" +:+ rest)
     (before ++ row :: after) install_dir
   = Ok (Script.PStr (p +:+ rest)))
  /\ (contains (pre +:+ "$(AREA_DETECTOR)" +:+ rest) "$(INSTALL)" = false ->
      contains (pre +:+ "$(AREA_DETECTOR)" +:+ rest) "$(SUPPORT)" = false ->
      Forall (Described.other_row "AREA_DETECTOR") before ->
      row !! 0 = Some (Script.PStr "AREA_DETECTOR") ->
      Script.expand_module_path (pre +:+ "$(AREA_DETECTOR)" +:+ rest)
        (before ++ row :: after) install_dir
      = Ok (Script.PStr (p +:+ rest))).
Proof.
  intros Hpre Hrest Hp. split.
  - intros Hi Hbefore Hname. unfold Script.expand_module_path.
    rewrite Hi, contains_compose.
    rewrite (lookup_module_loop_first _ _ _ _ _ Hbefore Hname).
    unfold index at 1. rewrite Hp. simpl.
    pose proof (macro_tail pre "$(SUPPORT" rest Hpre eq_refl Hrest) as Ht.
    change ("$(SUPPORT" +:+ ")") with "$(SUPPORT)" in Ht. now rewrite Ht.
  - intros Hi Hs Hbefore Hname. unfold Script.expand_module_path.
    rewrite Hi, Hs, contains_compose.
    rewrite (lookup_module_loop_first _ _ _ _ _ Hbefore Hname).
    unfold index at 1. rewrite Hp. simpl.
    pose proof (macro_tail pre "$(AREA_DETECTOR" rest Hpre eq_refl Hrest) as Ht.
    change ("$(AREA_DETECTOR" +:+ ")") with "$(AREA_DETECTOR)" in Ht. now rewrite Ht.
Qed.

Lemma expand_uses_first_matching_row_witness :
  Script.expand_module_path "$(SUPPORT)/areaDetector"
    [[Script.PStr "EPICS_BASE"; Script.PStr "R7"; Script.PStr "/epics/base"];
     [Script.PStr "SUPPORT"; Script.PStr "R6-0"; Script.PStr "/epics/support"];
     [Script.PStr "SUPPORT"; Script.PStr "R5"; Script.PStr "/old/support"]]
    "/epics"
  = Ok (Script.PStr "/epics/support/areaDetector").
Proof.
  refine (proj1 (expand_uses_first_matching_row "" "/areaDetector" "/epics"
                   "/epics/support"
                   [[Script.PStr "EPICS_BASE"; Script.PStr "R7";
                     Script.PStr "/epics/base"]]
                   [[Script.PStr "SUPPORT"; Script.PStr "R5";
                     Script.PStr "/old/support"]]
                   [Script.PStr "SUPPORT"; Script.PStr "R6-0";
                    Script.PStr "/epics/support"]
                   eq_refl eq_refl eq_refl) eq_refl _ eq_refl).
  repeat constructor. eexists. split; reflexivity.
Defined.

(** X3. The [None] that an unresolved path leaves in a row comes back as a
    [TypeError]: when the first row called [SUPPORT] (or [AREA_DETECTOR])
    has [None] as its path, expanding a path with that macro raises. *)
Theorem expand_through_unresolved_row (path install_dir n : string)
    (before after : list (list Script.pyval)) (row : list Script.pyval) :
  contains path "$(INSTALL)" = false ->
  (n = "SUPPORT" /\ contains path "$(SUPPORT)" = true)
  \/ (n = "AREA_DETECTOR" /\ contains path "$(SUPPORT)" = false
      /\ contains path "$(AREA_DETECTOR)" = true) ->
  Forall (Described.other_row n) before ->
  row !! 0 = Some (Script.PStr n) ->
  row !! 2 = Some Script.PNone ->
  Script.expand_module_path path (before ++ row :: after) install_dir
  = Raise TypeError.
Proof.
  intros Hi Hn Hbefore Hname Hpath.
  assert (Hparen : exists tail, index (split_chr ")" path) 1 = Ok tail).
  { destruct (index_Ok (split_chr ")" path) 1) as (tail & E & _);
      [|now exists tail].
    rewrite split_chr_length.
    destruct Hn as [[_ H]|(_ & _ & H)];
      apply (contains_count ")") in H; simpl in H; lia. }
  destruct Hparen as [tail Htail].
  unfold Script.expand_module_path. rewrite Hi.
  destruct Hn as [[-> Hs]|(-> & Hs & Ha)]; rewrite Hs; [|rewrite Ha];
    rewrite (lookup_module_loop_first _ _ _ _ _ Hbefore Hname);
    unfold index at 1; rewrite Hpath; simpl; now rewrite Htail.
Qed.

Lemma expand_through_unresolved_row_witness :
  Script.expand_module_path "$(AREA_DETECTOR)/ADCore"
    [[Script.PStr "AREA_DETECTOR"; Script.PStr "R3-6"; Script.PNone]]
    "/epics"
  = Raise TypeError.
Proof.
  apply (expand_through_unresolved_row "$(AREA_DETECTOR)/ADCore" "/epics"
           "AREA_DETECTOR" [] []
           [Script.PStr "AREA_DETECTOR"; Script.PStr "R3-6"; Script.PNone]).
  - reflexivity.
  - right. repeat split; reflexivity.
  - constructor.
  - reflexivity.
  - reflexivity.
Defined.

Section ScriptReading.

Import Script ScriptReader.

Lemma read_lines_app (lines1 lines2 : list string) (st st1 : reader) :
  read_lines lines1 st = Ok st1 ->
  read_lines (lines1 ++ lines2) st = read_lines lines2 st1.
Proof.
  revert st. induction lines1 as [|raw lines1 IH]; intros st; simpl.
  - now intros [= <-].
  - destruct (read_line raw st) as [st'|e]; simpl; [apply IH|discriminate].
Qed.

End ScriptReading.

(** X4. The script's reader tests the length of a line before stripping it,
    so a line of white space only (longer than the bare newline) is taken
    for a module row and makes the reader raise [IndexError]. *)
Theorem script_reader_blank_line (pre post : list string) (raw : string)
    (st st1 : ScriptReader.reader) :
  ScriptReader.read_lines pre st = Ok st1 ->
  1 < String.length raw ->
  strip raw = EmptyString ->
  ScriptReader.read_lines (pre ++ raw :: post) st = Raise IndexError.
Proof.
  intros Hpre Hlen Hblank.
  rewrite (read_lines_app _ _ _ _ Hpre). simpl.
  unfold ScriptReader.read_line.
  assert (Hguard : negb (startswith raw "#")
                   && Nat.ltb 1 (String.length raw) = true).
  { apply andb_true_intro. split; [|now apply Nat.ltb_lt].
    destruct raw as [|a raw]; [reflexivity|].
    destruct (startswith (String a raw) "#") eqn:E; [|reflexivity].
    apply startswith_prefix in E as [r E].
    change ("#" +:+ r) with (String "#" r) in E. injection E as -> ->.
    unfold strip in Hblank. simpl in Hblank.
    destruct (rstrip r); discriminate. }
  rewrite Hguard, Hblank. reflexivity.
Qed.

Lemma script_reader_blank_line_witness :
  ScriptReader.read_lines
    (["INSTALL=/epics/test" +:+ nl] ++ ("  " +:+ nl) :: [])
    (ScriptReader.mkReader EmptyString EmptyString EmptyString [])
  = Raise IndexError.
Proof.
  apply (script_reader_blank_line ["INSTALL=/epics/test" +:+ nl] []
           ("  " +:+ nl) _
           (ScriptReader.mkReader EmptyString EmptyString "/epics/test" [])).
  - reflexivity.
  - simpl. lia.
  - reflexivity.
Defined.

(** X5. The script's reader takes every processed line that contains
    [INSTALL] and not [$(INSTALL)] for the install directive, wherever the
    word stands: such a line never becomes a module; it raises [IndexError]
    when it has no [=], and otherwise replaces the install location by the
    text between its first and second [=]. *)
Theorem script_reader_install_word (raw : string)
    (st : ScriptReader.reader) :
  startswith raw "#" = false ->
  1 < String.length raw ->
  contains (strip raw) "INSTALL" = true ->
  contains (strip raw) "$(INSTALL)" = false ->
  (count_chr "=" (strip raw) = 0 ->
   ScriptReader.read_line raw st = Raise IndexError)
  /\ (1 <= count_chr "=" (strip raw) ->
      exists loc,
        (split_chr "=" (strip raw)) !! 1 = Some loc
        /\ ScriptReader.read_line raw st =
           Ok (ScriptReader.mkReader (ScriptReader.current_url st)
                 (ScriptReader.url_type st) loc
                 (ScriptReader.current_modules st))).
Proof.
  intros Hc Hlen Hi Hm. unfold ScriptReader.read_line.
  apply Nat.ltb_lt in Hlen. rewrite Hc, Hlen, Hi, Hm. simpl. split.
  - intros H0. rewrite index_Raise; [reflexivity|].
    rewrite split_chr_length. lia.
  - intros H1.
    destruct (index_Ok (split_chr "=" (strip raw)) 1) as (loc & -> & Hl).
    + rewrite split_chr_length. lia.
    + now exists loc.
Qed.

Lemma script_reader_install_word_witness :
  ScriptReader.read_line ("INSTALLER R1-0 /opt/installer inst YES YES" +:+ nl)
    (ScriptReader.mkReader "u" "GIT_URL" "/epics/test" [])
  = Raise IndexError.
Proof.
  apply (proj1 (script_reader_install_word
                  ("INSTALLER R1-0 /opt/installer inst YES YES" +:+ nl)
                  (ScriptReader.mkReader "u" "GIT_URL" "/epics/test" [])
                  eq_refl ltac:(simpl; lia) eq_refl eq_refl)).
  reflexivity.
Defined.

(** ** More on the manifest parser *)

Section ParserEdges.

Import ConfigParser Described.

Lemma join_chr_snoc (c : ascii) (l : list string) (x : string) :
  l <> [] -> join_chr c (l ++ [x]) = join_chr c l +:+ String c x.
Proof.
  induction l as [|y l IH]; [congruence|]. intros _.
  destruct l as [|z l]; [reflexivity|].
  change (join_chr c ((y :: z :: l) ++ [x]))
    with (y +:+ String c (join_chr c ((z :: l) ++ [x]))).
  change (join_chr c (y :: z :: l))
    with (y +:+ String c (join_chr c (z :: l))).
  rewrite IH by discriminate. now rewrite append_assoc, append_cons.
Qed.

Lemma rsplit1_join (c : ascii) (s : string) :
  join_chr c (rsplit1 c s) = s.
Proof.
  unfold rsplit1. pose proof (join_split_chr c s) as J.
  pose proof (split_chr_length c s) as L.
  destruct (split_chr c s) as [|a [|b l]] eqn:E; try exact J;
    [discriminate|].
  assert (Hl : a :: b :: l <> []) by discriminate.
  rewrite (app_removelast_last EmptyString Hl) in J.
  rewrite join_chr_snoc in J by (simpl; discriminate).
  exact J.
Qed.

Lemma rsplit1_two (c : ascii) (s : string) :
  1 <= count_chr c s ->
  exists head tail,
    rsplit1 c s = [head; tail] /\ s = head +:+ String c tail
    /\ count_chr c tail = 0.
Proof.
  intros H. pose proof (rsplit1_join c s) as J.
  pose proof (split_chr_length c s) as L.
  pose proof (split_chr_pieces c s) as P.
  unfold rsplit1 in *.
  destruct (split_chr c s) as [|a [|b l]]; simpl in L; try lia.
  eexists _, _. split; [reflexivity|]. split; [now rewrite <- J|].
  assert (Hl : a :: b :: l <> []) by discriminate.
  rewrite (app_removelast_last EmptyString Hl) in P.
  apply Forall_app in P as [_ P]. now inversion P.
Qed.

Lemma parse_line_install_problem (configure_path : string)
    (force_location : option string) (allow_illegal : bool)
    (raw msg : string) (l : locals) (d : fs) :
  install_line raw = true ->
  root_problem d (install_root force_location raw) = Some msg ->
  parse_line configure_path force_location allow_illegal raw l d =
  (Ok (if allow_illegal then
         Next (mkLocals
                 (Some (new_config (install_root force_location raw)
                          configure_path))
                 (current_url l) (current_url_type l) msg)
       else Return (None, msg)), d).
Proof.
  unfold install_line, root_problem, parse_line.
  intros H Hroot. apply andb_prop in H as [-> ->].
  unfold install_directive, bind, is_install_valid.
  fold (install_root force_location raw).
  cbn [DataModel.install_location new_config].
  destruct (d !! install_root force_location raw) as [[c|[|] es]|] eqn:E;
    try discriminate.
  - injection Hroot as <-. simpl. now destruct allow_illegal.
  - simpl. unfold OS.mkdir, OS.create.
    destruct (d !! OS.parent (install_root force_location raw));
      [discriminate|].
    injection Hroot as <-. now destruct allow_illegal.
Qed.

Lemma parse_lines_row_without_install (configure_path : string)
    (force_location : option string) (allow_illegal : bool)
    (raw : string) (post : list string) (l : locals) (d : fs) :
  good_row raw = true -> install_config l = None ->
  parse_lines configure_path force_location allow_illegal (raw :: post) l d
  = (Raise AttributeError, d).
Proof.
  unfold good_row. intros H Hnone.
  apply andb_prop in H as [Hrow Hlen]. apply Nat.leb_le in Hlen.
  simpl. unfold bind. rewrite (module_row_branch _ _ _ _ _ _ Hrow).
  destruct (parse_line_to_module_good raw (current_url l)
              (current_url_type l) Hlen) as (m & E & _).
  unfold lift. rewrite E. simpl. now rewrite Hnone.
Qed.

Lemma injector_lines_contents (lines : list string) (contents link : string) :
  exists link',
    injector_lines lines contents link =
    Ok (contents +:+
          ConfigInjector.injected_lines
            (filter (fun line => Is_true (negb (target_directive line)))
               lines),
        link')
    /\ (Forall (fun line => target_directive line = false) lines ->
        link' = link).
Proof.
  revert contents link.
  induction lines as [|line lines IH]; intros contents link.
  - exists link. simpl. now rewrite append_empty_r.
  - cbn [injector_lines]. rewrite filter_cons_bool. unfold target_directive at 1 3.
    destruct (negb (startswith line "#") && Nat.ltb 1 (String.length line))
      eqn:Hguard.
    + destruct (startswith line "__TARGET_LOC__=") eqn:Ht.
      * apply startswith_prefix in Ht as [r Hr].
        destruct (index_Ok (split_chr "=" (strip line)) 1) as (u & -> & _).
        { rewrite split_chr_length, strip_count, Hr, count_chr_app
            by reflexivity.
          simpl. lia. }
        simpl. destruct (IH contents u) as (link' & -> & _).
        exists link'. split; [reflexivity|].
        intros H. inversion H as [|? ? Hd _]; subst.
        unfold target_directive in Hd.
        rewrite startswith_app in Hd. discriminate.
      * simpl. destruct (IH (contents +:+ line) link) as (link' & -> & Hl).
        exists link'. split.
        -- cbn [ConfigInjector.injected_lines]. rewrite Hguard.
           now rewrite append_assoc.
        -- intros H. inversion H; subst. now apply Hl.
    + destruct (IH contents link) as (link' & -> & Hl).
      exists link'. split.
      * destruct (startswith line "__TARGET_LOC__="); simpl; [reflexivity|].
        cbn [ConfigInjector.injected_lines]. now rewrite Hguard.
      * intros H. inversion H; subst. now apply Hl.
Qed.

End ParserEdges.

(** X6. [check_valid_config_path] answers [True] for an existing directory
    and [False] otherwise, and never touches the disk; but when the path
    names a regular file it replaces the parser's [configure_path] by the
    list that [rsplit('/', 1)] returns: the directory part and the file name,
    which joined by [/] give the old path back. *)
Theorem check_valid_config_path_outcomes (configure_path : string) (d : fs) :
  snd (ConfigParser.check_valid_config_path configure_path d) = d
  /\ (Described.is_directory d configure_path = true ->
      fst (ConfigParser.check_valid_config_path configure_path d)
      = Ok (true, ConfigParser.PathStr configure_path))
  /\ (d !! configure_path = None ->
      fst (ConfigParser.check_valid_config_path configure_path d)
      = Ok (false, ConfigParser.PathStr configure_path))
  /\ (Described.regular_at d configure_path = true ->
      fst (ConfigParser.check_valid_config_path configure_path d)
      = Ok (false,
            ConfigParser.PathList (ConfigParser.rsplit1 "/" configure_path))
      /\ join_chr "/" (ConfigParser.rsplit1 "/" configure_path)
         = configure_path
      /\ (1 <= count_chr "/" configure_path ->
          exists head tail,
            ConfigParser.rsplit1 "/" configure_path = [head; tail]
            /\ configure_path = head +:+ String "/" tail
            /\ count_chr "/" tail = 0)).
Proof.
  unfold ConfigParser.check_valid_config_path, bind, OS.path_exists,
    OS.isdir, OS.isfile, Described.is_directory, Described.regular_at, ret.
  cbn beta iota.
  destruct (d !! configure_path) as [[c|w es]|] eqn:E.
  - rewrite bool_decide_true by eauto. cbn. rewrite ?E.
    repeat split; try discriminate; try reflexivity.
    + apply rsplit1_join.
    + apply rsplit1_two.
  - rewrite bool_decide_true by eauto. cbn.
    repeat split; try discriminate; reflexivity.
  - rewrite bool_decide_false by (intros [? ?]; discriminate). cbn.
    rewrite ?E. repeat split; try discriminate; reflexivity.
Qed.

Lemma check_valid_config_path_outcomes_witness :
  fst (ConfigParser.check_valid_config_path "/cfg/INSTALL_CONFIG"
         (Examples.manifest_disk Examples.manifest))
  = Ok (false, ConfigParser.PathList ["/cfg"; "INSTALL_CONFIG"]).
Proof.
  destruct (check_valid_config_path_outcomes "/cfg/INSTALL_CONFIG"
              (Examples.manifest_disk Examples.manifest))
    as (_ & _ & _ & H).
  destruct H as (E & _ & _); [vm_compute; reflexivity|].
  rewrite E. reflexivity.
Defined.

(** X7. When the install root of the [INSTALL=] line exists and is not
    writable, or is missing together with its directory, and illegal
    configurations are not allowed, the parse returns no configuration and
    the message [Permission Error], respectively [Install filepath not
    valid], at once: the lines after the [INSTALL=] line are not read. *)
Theorem unusable_root_stops_the_parse
    (configure_path config_filename : string)
    (force_location : option string) (text msg : string) (d : fs)
    (pre post : list string) (install_raw : string) :
  d !! (configure_path +:+ "/" +:+ config_filename) = Some (File text) ->
  readlines text = (pre ++ install_raw :: post)%list ->
  Forall (fun raw => Described.preamble_line raw = true) pre ->
  Described.install_line install_raw = true ->
  Described.root_problem d
    (Described.install_root force_location install_raw) = Some msg ->
  ConfigParser.parse_install_config configure_path config_filename
    force_location false d
  = (Ok (None, msg), d).
Proof.
  intros Hfile Hlines Hpre Hinst Hroot.
  rewrite (parse_install_config_loop _ _ _ _ _ _ Hfile), Hlines.
  destruct (parse_lines_preamble configure_path force_location false
              pre (ConfigParser.mkLocals None "" "" "") d Hpre)
    as (l0 & E0 & _ & _).
  rewrite (parse_lines_app _ _ _ _ _ _ _ _ _ E0).
  cbn [ConfigParser.parse_lines]. unfold bind.
  now rewrite (parse_line_install_problem _ _ _ _ _ _ _ Hinst Hroot).
Qed.

Lemma unusable_root_stops_the_parse_witness :
  fst (ConfigParser.parse_install_config "/cfg" "INSTALL_CONFIG" None false
         (<["/epics/test" := Dir false []]>
            (Examples.manifest_disk Examples.short_row_manifest)))
  = Ok (None, "Permission Error").
Proof.
  rewrite (unusable_root_stops_the_parse "/cfg" "INSTALL_CONFIG" None
             Examples.short_row_manifest "Permission Error" _ []
             ["GIT_URL=https://github.com/dummyurl/test/" +:+ nl;
              "SUPPORT R6-0 $(INSTALL)/support" +:+ nl]
             ("INSTALL=/epics/test" +:+ nl)).
  - reflexivity.
  - vm_compute. reflexivity.
  - vm_compute. reflexivity.
  - constructor.
  - vm_compute. reflexivity.
  - vm_compute. reflexivity.
Defined.

(** X8. With illegal configurations allowed, the same manifest is parsed to
    its end: the configuration is returned with the modules of the rows that
    follow the [INSTALL=] line, the disk is left as it is, and the message
    says what is wrong with the install root. *)
Theorem unusable_root_allowed
    (configure_path config_filename : string)
    (force_location : option string) (text msg : string) (d : fs)
    (pre post : list string) (install_raw : string) :
  let root := Described.install_root force_location install_raw in
  d !! (configure_path +:+ "/" +:+ config_filename) = Some (File text) ->
  readlines text = (pre ++ install_raw :: post)%list ->
  Forall (fun raw => Described.preamble_line raw = true) pre ->
  Described.install_line install_raw = true ->
  Forall (fun raw => Described.body_line raw = true) post ->
  Described.root_problem d root = Some msg ->
  Described.is_directory d (configure_path +:+ "/injectionFiles") = true ->
  Described.is_directory d (configure_path +:+ "/macroFiles") = true ->
  exists cfg,
    ConfigParser.parse_install_config configure_path config_filename
      force_location true d
    = (Ok (Some cfg, msg), d)
    /\ install_location cfg = root
    /\ Described.columns <$> modules cfg
       = (Described.row_columns <$>
            filter (fun raw => Is_true (Described.good_row raw)) post).
Proof.
  intros root Hfile Hlines Hpre Hinst Hpost Hroot Hinj Hmac.
  rewrite (parse_install_config_loop _ _ _ _ _ _ Hfile), Hlines.
  destruct (parse_lines_preamble configure_path force_location true
              pre (ConfigParser.mkLocals None "" "" "") d Hpre)
    as (l0 & E0 & _ & _).
  rewrite (parse_lines_app _ _ _ _ _ _ _ _ _ E0).
  cbn [ConfigParser.parse_lines]. unfold bind at 1.
  rewrite (parse_line_install_problem _ _ _ _ _ _ _ Hinst Hroot). fold root.
  destruct (parse_lines_body configure_path force_location true post
              (ConfigParser.mkLocals (Some (new_config root configure_path))
                 (ConfigParser.current_url l0)
                 (ConfigParser.current_url_type l0) msg)
              (new_config root configure_path) d Hpost eq_refl)
    as (l' & cfg' & -> & Hc & Hm & Hloc & Hcols).
  rewrite Hc.
  destruct (read_injector_files_total configure_path cfg' d Hinj)
    as (c1 & -> & Hm1 & Hl1).
  destruct (read_build_flags_total configure_path c1 d Hmac)
    as (c2 & -> & Hm2 & Hl2).
  exists c2. repeat split.
  - now rewrite Hm.
  - now rewrite Hl2, Hl1, Hloc.
  - now rewrite Hm2, Hm1, Hcols.
Qed.

Lemma unusable_root_allowed_witness :
  exists cfg,
    fst (ConfigParser.parse_install_config "/cfg" "INSTALL_CONFIG" None true
           (<["/epics/test" := Dir false []]>
              (Examples.manifest_disk Examples.manifest)))
    = Ok (Some cfg, "Permission Error")
    /\ length (modules cfg) = 3.
Proof.
  destruct (unusable_root_allowed "/cfg" "INSTALL_CONFIG" None
              Examples.manifest "Permission Error"
              (<["/epics/test" := Dir false []]>
                 (Examples.manifest_disk Examples.manifest))
              ["# modules of the test installation" +:+ nl; nl]
              ["GIT_URL=https://github.com/dummyurl/test/" +:+ nl;
               "EPICS_BASE     R7.0.2.2  $(INSTALL)/base  base  YES  YES"
                 +:+ nl;
               "SUPPORT R6-0 $(INSTALL)/support"
                 +:+ String "009" "support YES YES" +:+ nl;
               "AREA_DETECTOR R3-6 $(SUPPORT)/areaDetector ad YES NO" +:+ nl]
              ("INSTALL=/epics/test" +:+ nl))
    as (cfg & E & _ & Hcols).
  - vm_compute. reflexivity.
  - vm_compute. reflexivity.
  - repeat constructor.
  - vm_compute. reflexivity.
  - repeat constructor.
  - vm_compute. reflexivity.
  - vm_compute. reflexivity.
  - vm_compute. reflexivity.
  - exists cfg. rewrite E. split; [reflexivity|].
    apply (f_equal length) in Hcols. rewrite length_fmap in Hcols.
    exact Hcols.
Defined.

(** X9. A module row that comes before any [INSTALL=] line finds no
    configuration to be added to: the parse ends with [AttributeError],
    uncaught. *)
Theorem row_before_install_raises
    (configure_path config_filename : string)
    (force_location : option string) (allow_illegal : bool)
    (text : string) (d : fs) (pre post : list string) (raw : string) :
  d !! (configure_path +:+ "/" +:+ config_filename) = Some (File text) ->
  readlines text = (pre ++ raw :: post)%list ->
  Forall (fun line => Described.preamble_line line = true) pre ->
  Described.good_row raw = true ->
  ConfigParser.parse_install_config configure_path config_filename
    force_location allow_illegal d
  = (Raise AttributeError, d).
Proof.
  intros Hfile Hlines Hpre Hrow.
  rewrite (parse_install_config_loop _ _ _ _ _ _ Hfile), Hlines.
  destruct (parse_lines_preamble configure_path force_location allow_illegal
              pre (ConfigParser.mkLocals None "" "" "") d Hpre)
    as (l0 & E0 & Hnone & _).
  rewrite (parse_lines_app _ _ _ _ _ _ _ _ _ E0).
  now rewrite (parse_lines_row_without_install _ _ _ _ _ _ _ Hrow Hnone).
Qed.

Lemma row_before_install_raises_witness :
  fst (ConfigParser.parse_install_config "/cfg" "INSTALL_CONFIG" None false
         (Examples.manifest_disk
            ("GIT_URL=https://github.com/dummyurl/test/" +:+ nl +:+
             "SUPPORT R6-0 /epics/support support YES YES" +:+ nl +:+
             "INSTALL=/epics/test" +:+ nl)))
  = Raise AttributeError.
Proof.
  rewrite (row_before_install_raises "/cfg" "INSTALL_CONFIG" None false
             ("GIT_URL=https://github.com/dummyurl/test/" +:+ nl +:+
              "SUPPORT R6-0 /epics/support support YES YES" +:+ nl +:+
              "INSTALL=/epics/test" +:+ nl) _
             ["GIT_URL=https://github.com/dummyurl/test/" +:+ nl]
             ["INSTALL=/epics/test" +:+ nl]
             ("SUPPORT R6-0 /epics/support support YES YES" +:+ nl)).
  - reflexivity.
  - vm_compute. reflexivity.
  - vm_compute. reflexivity.
  - repeat constructor.
  - vm_compute. reflexivity.
Defined.

(** X10. A manifest without an [INSTALL=] line and without module rows
    (comments, blank lines and URL directives only, or nothing at all)
    parses to no configuration and the empty message, the same message as a
    full success; the disk is not touched and the directive directories are
    not even listed. *)
Theorem manifest_without_install (configure_path config_filename : string)
    (force_location : option string) (allow_illegal : bool)
    (text : string) (d : fs) :
  d !! (configure_path +:+ "/" +:+ config_filename) = Some (File text) ->
  Forall (fun line => Described.preamble_line line = true) (readlines text) ->
  ConfigParser.parse_install_config configure_path config_filename
    force_location allow_illegal d
  = (Ok (None, EmptyString), d).
Proof.
  intros Hfile Hpre.
  rewrite (parse_install_config_loop _ _ _ _ _ _ Hfile).
  destruct (parse_lines_preamble configure_path force_location allow_illegal
              (readlines text) (ConfigParser.mkLocals None "" "" "") d Hpre)
    as (l0 & -> & Hnone & Hmsg).
  simpl in Hnone, Hmsg. rewrite Hnone, Hmsg. reflexivity.
Qed.

Lemma manifest_without_install_witness :
  ConfigParser.parse_install_config "/cfg" "INSTALL_CONFIG" None false
    (<["/cfg/INSTALL_CONFIG" :=
         File ("# nothing yet" +:+ nl +:+ nl +:+
               "GIT_URL=https://github.com/dummyurl/test/" +:+ nl)]> ∅)
  = (Ok (None, EmptyString),
     <["/cfg/INSTALL_CONFIG" :=
         File ("# nothing yet" +:+ nl +:+ nl +:+
               "GIT_URL=https://github.com/dummyurl/test/" +:+ nl)]> ∅).
Proof.
  apply (manifest_without_install "/cfg" "INSTALL_CONFIG" None false
           ("# nothing yet" +:+ nl +:+ nl +:+
            "GIT_URL=https://github.com/dummyurl/test/" +:+ nl)).
  - reflexivity.
  - repeat constructor.
Defined.

(** X11. Every [INSTALL=] line starts a new configuration: the modules
    added before it are dropped, and the configuration returned holds the
    modules of the rows after the last [INSTALL=] line only. *)
Theorem install_line_starts_afresh
    (configure_path config_filename : string)
    (force_location : option string) (allow_illegal : bool)
    (text : string) (d d1 : fs) (pre post : list string)
    (install_raw : string) (l1 : ConfigParser.locals) :
  let root := Described.install_root force_location install_raw in
  d !! (configure_path +:+ "/" +:+ config_filename) = Some (File text) ->
  readlines text = (pre ++ install_raw :: post)%list ->
  ConfigParser.parse_lines configure_path force_location allow_illegal pre
    (ConfigParser.mkLocals None EmptyString EmptyString EmptyString) d
    = (Ok (ConfigParser.Next l1), d1) ->
  Described.install_line install_raw = true ->
  Forall (fun raw => Described.body_line raw = true) post ->
  Described.usable_root d1 root = true ->
  Described.is_directory d1 (configure_path +:+ "/injectionFiles") = true ->
  Described.is_directory d1 (configure_path +:+ "/macroFiles") = true ->
  exists cfg,
    ConfigParser.parse_install_config configure_path config_filename
      force_location allow_illegal d
    = (Ok (Some cfg, ConfigParser.message l1), Described.with_root d1 root)
    /\ install_location cfg = root
    /\ Described.columns <$> modules cfg
       = (Described.row_columns <$>
            filter (fun raw => Is_true (Described.good_row raw)) post).
Proof.
  intros root Hfile Hlines Hpre Hinst Hpost Hroot Hinj Hmac.
  rewrite (parse_install_config_loop _ _ _ _ _ _ Hfile), Hlines.
  rewrite (parse_lines_app _ _ _ _ _ _ _ _ _ Hpre).
  cbn [ConfigParser.parse_lines]. unfold bind at 1.
  rewrite (parse_line_install _ _ _ _ _ _ Hinst Hroot). fold root.
  destruct (parse_lines_body configure_path force_location allow_illegal
              post
              (ConfigParser.mkLocals (Some (new_config root configure_path))
                 (ConfigParser.current_url l1)
                 (ConfigParser.current_url_type l1) (ConfigParser.message l1))
              (new_config root configure_path)
              (Described.with_root d1 root) Hpost eq_refl)
    as (l' & cfg' & -> & Hc & Hm & Hloc & Hcols).
  rewrite Hc.
  destruct (read_injector_files_total configure_path cfg'
              (Described.with_root d1 root)
              (with_root_directory _ _ _ Hinj)) as (c1 & -> & Hm1 & Hl1).
  destruct (read_build_flags_total configure_path c1
              (Described.with_root d1 root)
              (with_root_directory _ _ _ Hmac)) as (c2 & -> & Hm2 & Hl2).
  exists c2. repeat split.
  - now rewrite Hm.
  - now rewrite Hl2, Hl1, Hloc.
  - now rewrite Hm2, Hm1, Hcols.
Qed.

Lemma install_line_starts_afresh_witness :
  let text :=
    "INSTALL=/epics/old" +:+ nl +:+
    "GIT_URL=https://github.com/dummyurl/test/" +:+ nl +:+
    "OLDMODULE R1-0 $(INSTALL)/old old YES YES" +:+ nl +:+
    "INSTALL=/epics/test" +:+ nl +:+
    "SUPPORT R6-0 $(INSTALL)/support support YES YES" +:+ nl in
  exists cfg,
    fst (ConfigParser.parse_install_config "/cfg" "INSTALL_CONFIG" None false
           (Examples.manifest_disk text))
    = Ok (Some cfg, EmptyString)
    /\ install_location cfg = "/epics/test"
    /\ Described.columns <$> modules cfg
       = [["SUPPORT"; "R6-0"; "$(INSTALL)/support"; "support"; "YES"; "YES"]].
Proof.
  intros text.
  pose (pre := ["INSTALL=/epics/old" +:+ nl;
                "GIT_URL=https://github.com/dummyurl/test/" +:+ nl;
                "OLDMODULE R1-0 $(INSTALL)/old old YES YES" +:+ nl]).
  pose (s := ConfigParser.parse_lines "/cfg" None false pre
               (ConfigParser.mkLocals None EmptyString EmptyString EmptyString)
               (Examples.manifest_disk text)).
  destruct (install_line_starts_afresh "/cfg" "INSTALL_CONFIG" None false
              text (Examples.manifest_disk text) (snd s) pre
              ["SUPPORT R6-0 $(INSTALL)/support support YES YES" +:+ nl]
              ("INSTALL=/epics/test" +:+ nl)
              (ConfigParser.mkLocals
                 (Some (add_module (new_config "/epics/old" "/cfg")
                          (new_module "OLDMODULE" "R1-0" "$(INSTALL)/old"
                             "GIT_URL" "https://github.com/dummyurl/test/"
                             "old" "YES" "YES")))
                 "https://github.com/dummyurl/test/" "GIT_URL" EmptyString))
    as (cfg & E & Hloc & Hcols).
  - vm_compute. reflexivity.
  - vm_compute. reflexivity.
  - apply run_returns. vm_compute. reflexivity.
  - vm_compute. reflexivity.
  - repeat constructor.
  - vm_compute. reflexivity.
  - vm_compute. reflexivity.
  - vm_compute. reflexivity.
  - exists cfg. rewrite E. repeat split; assumption.
Defined.

Section UrlAndColumns.

Import ConfigParser Described.

Ltac push_append :=
  repeat rewrite append_cons;
  repeat match goal with
         | |- context [EmptyString +:+ ?x] =>
             change (EmptyString +:+ x) with x
         end.

Lemma parse_line_url_value (configure_path : string)
    (force_location : option string) (allow_illegal : bool)
    (kind u raw : string) (l : locals) (d : fs) :
  kind = "GIT_URL" \/ kind = "WGET_URL" ->
  strip raw = kind +:+ "=" +:+ u ->
  parse_line configure_path force_location allow_illegal raw l d =
  (Ok (Next (mkLocals (install_config l)
               (default EmptyString (List.head (split_chr "=" u)))
               kind (message l))), d).
Proof.
  intros Hk Hs. unfold parse_line. rewrite Hs.
  destruct (split_by_cons (Ascii.eqb "=") u) as (h & t & E).
  destruct Hk as [-> | ->]; push_append; unfold is_processed, split_chr;
    simpl; rewrite E; reflexivity.
Qed.

(** *** Columns and the white space between them *)

Lemma squeeze_word (w x : string) (after_blank : bool) :
  is_word w = true ->
  squeeze_from after_blank (tabs_to_spaces (w +:+ x))
  = w +:+ squeeze_from false (tabs_to_spaces x).
Proof.
  unfold is_word. intros H. apply andb_prop in H as [Hne Hall].
  revert after_blank. induction w as [|a w IH]; intros after_blank;
    [discriminate|].
  simpl in Hall. apply andb_prop in Hall as [Ha Hall].
  unfold is_blank in Ha. apply negb_true_iff, orb_false_elim in Ha as [Hs Ht].
  rewrite !append_cons. simpl. rewrite Ht, Hs. f_equal.
  destruct w as [|b w]; [reflexivity|].
  now apply IH.
Qed.

Lemma squeeze_gap_rest (g x : string) :
  all_chars is_blank g = true ->
  squeeze_from true (tabs_to_spaces (g +:+ x))
  = squeeze_from true (tabs_to_spaces x).
Proof.
  induction g as [|a g IH]; intros H; [reflexivity|].
  simpl in H. apply andb_prop in H as [Ha Hall].
  rewrite append_cons. simpl.
  unfold is_blank in Ha.
  destruct (Ascii.eqb a "009") eqn:Ht; simpl; [now apply IH|].
  rewrite orb_false_r in Ha. rewrite Ha. now apply IH.
Qed.

Lemma squeeze_gap (g x : string) :
  is_gap g = true ->
  squeeze_from false (tabs_to_spaces (g +:+ x))
  = String " " (squeeze_from true (tabs_to_spaces x)).
Proof.
  unfold is_gap. intros H. apply andb_prop in H as [Hne Hall].
  destruct g as [|a g]; [discriminate|].
  simpl in Hall. apply andb_prop in Hall as [Ha Hall].
  rewrite append_cons. simpl. unfold is_blank in Ha.
  destruct (Ascii.eqb a "009") eqn:Ht; simpl.
  - f_equal. now apply squeeze_gap_rest.
  - rewrite orb_false_r in Ha. rewrite Ha. f_equal.
    now apply squeeze_gap_rest.
Qed.

Lemma word_no_blank (w : string) :
  is_word w = true -> count_chr " " w = 0.
Proof.
  unfold is_word. intros H. apply andb_prop in H as [_ H].
  induction w as [|a w IH]; [reflexivity|].
  cbn [all_chars] in H. apply andb_prop in H as [Ha H].
  unfold is_blank in Ha. apply negb_true_iff, orb_false_elim in Ha as [Hs _].
  cbn [count_chr]. rewrite Ascii.eqb_sym, Hs. now apply IH.
Qed.

Lemma squeeze_word_only (w : string) (after_blank : bool) :
  is_word w = true ->
  squeeze_from after_blank (tabs_to_spaces w) = w.
Proof.
  intros H. pose proof (squeeze_word w EmptyString after_blank H) as E.
  change (squeeze_from false (tabs_to_spaces EmptyString))
    with EmptyString in E.
  now rewrite !append_empty_r in E.
Qed.

(** The columns come back from a row written with any gaps of blanks and
    tabs between them. *)
Lemma row_text_fields (w : string) (rest : list (string * string))
    (after_blank : bool) :
  is_word w = true ->
  Forall (fun gw => is_gap (fst gw) = true /\ is_word (snd gw) = true) rest ->
  split_chr " " (squeeze_from after_blank (tabs_to_spaces (row_text w rest)))
  = w :: (snd <$> rest).
Proof.
  intros Hw Hrest. revert w after_blank Hw.
  induction Hrest as [|[g w'] rest [Hg Hw'] _ IH]; intros w after_blank Hw.
  - simpl. rewrite (squeeze_word_only _ _ Hw).
    apply split_chr_none, word_no_blank, Hw.
  - cbn [row_text]. rewrite (squeeze_word _ _ _ Hw).
    simpl in Hg, Hw'. rewrite (squeeze_gap _ _ Hg).
    rewrite split_chr_app_sep by (now apply word_no_blank).
    now rewrite IH.
Qed.

End UrlAndColumns.

(** X12. A [GIT_URL=] or [WGET_URL=] line sets the URL of the rows that
    follow to the text between its first and its second [=] (the whole of
    what follows the first [=] when that holds no [=], and only its part
    before the next [=] otherwise), and their URL type to the word before
    the first [=]. *)
Theorem url_directive_applies_to_next_row
    (configure_path : string) (force_location : option string)
    (allow_illegal : bool) (kind u url_raw row_raw : string)
    (l : ConfigParser.locals) (cfg : InstallConfiguration) (d : fs) :
  kind = "GIT_URL" \/ kind = "WGET_URL" ->
  strip url_raw = kind +:+ "=" +:+ u ->
  Described.good_row row_raw = true ->
  ConfigParser.install_config l = Some cfg ->
  exists m,
    ConfigParser.parse_lines configure_path force_location allow_illegal
      [url_raw; row_raw] l d
    = (Ok (ConfigParser.Next
             (ConfigParser.mkLocals (Some (add_module cfg m)) (url m)
                (url_type m) (ConfigParser.message l))), d)
    /\ url_type m = kind
    /\ url m = default EmptyString (List.head (split_chr "=" u))
    /\ (count_chr "=" u = 0 -> url m = u)
    /\ Described.columns m = Described.row_columns row_raw.
Proof.
  intros Hk Hs Hrow Hcfg. cbn [ConfigParser.parse_lines]. unfold bind.
  rewrite (parse_line_url_value _ _ _ _ _ _ _ _ Hk Hs).
  unfold Described.good_row in Hrow.
  apply andb_prop in Hrow as [Hrow Hlen]. apply Nat.leb_le in Hlen.
  rewrite (module_row_branch _ _ _ _ _ _ Hrow). unfold lift.
  cbn [ConfigParser.current_url ConfigParser.current_url_type
         ConfigParser.install_config ConfigParser.message].
  destruct (parse_line_to_module_good row_raw
              (default EmptyString (List.head (split_chr "=" u))) kind Hlen)
    as (m & -> & Hcols & Hu & Ht).
  exists m. simpl. rewrite Hcfg, Hu, Ht.
  repeat split; try assumption.
  intros H0. now rewrite (split_chr_none _ _ H0).
Qed.

Lemma url_directive_applies_to_next_row_witness :
  exists m,
    ConfigParser.parse_lines "/cfg" None false
      ["GIT_URL=https://host/repo?ref=main" +:+ nl;
       "SUPPORT R6-0 $(INSTALL)/support support YES YES" +:+ nl]
      (ConfigParser.mkLocals (Some (new_config "/epics/test" "/cfg"))
         EmptyString EmptyString EmptyString) ∅
    = (Ok (ConfigParser.Next
             (ConfigParser.mkLocals
                (Some (add_module (new_config "/epics/test" "/cfg") m))
                (url m) (url_type m) EmptyString)), ∅)
    /\ url m = "https://host/repo?ref".
Proof.
  destruct (url_directive_applies_to_next_row "/cfg" None false "GIT_URL"
              "https://host/repo?ref=main"
              ("GIT_URL=https://host/repo?ref=main" +:+ nl)
              ("SUPPORT R6-0 $(INSTALL)/support support YES YES" +:+ nl)
              (ConfigParser.mkLocals (Some (new_config "/epics/test" "/cfg"))
                 EmptyString EmptyString EmptyString)
              (new_config "/epics/test" "/cfg") ∅)
    as (m & E & _ & Hu & _).
  - now left.
  - reflexivity.
  - reflexivity.
  - reflexivity.
  - exists m. split; [exact E|]. rewrite Hu. reflexivity.
Defined.

(** X13. [parse_line_to_module] gives the columns of a row back whatever
    runs of blanks and tabs separate them: a row written as six or more
    columns (each non-empty, without blank or tab) with a non-empty gap of
    blanks and tabs between neighbours becomes the module of its first six
    columns, with the URL and URL type handed in. *)
Theorem parse_line_to_module_columns (w : string)
    (rest : list (string * string)) (current_url current_url_type : string) :
  Described.is_word w = true ->
  Forall (fun gw => Described.is_gap (fst gw) = true
                    /\ Described.is_word (snd gw) = true) rest ->
  5 <= length rest ->
  exists m,
    ConfigParser.parse_line_to_module (Described.row_text w rest)
      current_url current_url_type = Ok m
    /\ Described.columns m = take 6 (w :: (snd <$> rest))
    /\ url m = current_url /\ url_type m = current_url_type
    /\ abs_path m = None.
Proof.
  intros Hw Hrest Hlen. unfold ConfigParser.parse_line_to_module.
  unfold squeeze_spaces. rewrite (row_text_fields _ _ _ Hw Hrest).
  destruct rest as [|[g1 w1] [|[g2 w2] [|[g3 w3] [|[g4 w4] [|[g5 w5] rest]]]]];
    simpl in Hlen; try lia.
  simpl. eexists. repeat split.
Qed.

Lemma parse_line_to_module_columns_witness :
  exists m,
    ConfigParser.parse_line_to_module
      ("SUPPORT" +:+ String "009" " R6-0   $(INSTALL)/support"
       +:+ String "009" (String "009" "support YES  NO"))
      "https://github.com/dummyurl/test/" "GIT_URL" = Ok m
    /\ Described.columns m
       = ["SUPPORT"; "R6-0"; "$(INSTALL)/support"; "support"; "YES"; "NO"].
Proof.
  destruct (parse_line_to_module_columns "SUPPORT"
              [(String "009" " ", "R6-0"); ("   ", "$(INSTALL)/support");
               (String "009" (String "009" ""), "support"); (" ", "YES");
               ("  ", "NO")]
              "https://github.com/dummyurl/test/" "GIT_URL")
    as (m & E & Hcols & _).
  - reflexivity.
  - repeat constructor.
  - simpl. lia.
  - exists m. split; [exact E|exact Hcols].
Defined.

(** X14. The contents that [parse_injector_file] attaches to the
    configuration are the lines [inject_to_file] would copy from the
    fragment once its [__TARGET_LOC__=] lines are taken out ([inject_to_file]
    itself copies those lines too); the parse of a fragment never fails, and
    without such a line the link stays empty. *)
Theorem injector_contents_leave_out_the_directive (lines : list string) :
  exists link,
    ConfigParser.injector_lines lines EmptyString EmptyString
    = Ok (ConfigInjector.injected_lines
            (filter (fun line =>
                       Is_true (negb (Described.target_directive line)))
               lines),
          link)
    /\ (Forall (fun line => Described.target_directive line = false) lines ->
        link = EmptyString
        /\ ConfigParser.injector_lines lines EmptyString EmptyString
           = Ok (ConfigInjector.injected_lines lines, EmptyString))
    /\ (forall u rest,
          ConfigInjector.injected_lines
            (("__TARGET_LOC__=" +:+ u) :: rest)
          = ("__TARGET_LOC__=" +:+ u)
            +:+ ConfigInjector.injected_lines rest).
Proof.
  destruct (injector_lines_contents lines EmptyString EmptyString)
    as (link & E & Hlink).
  exists link. split; [exact E|]. split.
  - intros Hnone. specialize (Hlink Hnone). subst link.
    split; [reflexivity|]. rewrite E.
    assert (F : filter (fun line =>
                          Is_true (negb (Described.target_directive line)))
                  lines = lines).
    { clear E. induction Hnone as [|line lines Hd _ IH]; [reflexivity|].
      rewrite filter_cons_bool, Hd. simpl negb. cbv iota. now rewrite IH. }
    now rewrite F.
  - intros u rest. reflexivity.
Qed.

Lemma injector_contents_leave_out_the_directive_witness :
  ConfigParser.injector_lines
    ["# fragment" +:+ nl; "A=1" +:+ nl; nl; "B=2" +:+ nl]
    EmptyString EmptyString
  = Ok ("A=1" +:+ nl +:+ "B=2" +:+ nl, EmptyString).
Proof.
  destruct (injector_contents_leave_out_the_directive
              ["# fragment" +:+ nl; "A=1" +:+ nl; nl; "B=2" +:+ nl])
    as (link & _ & H & _).
  destruct H as [_ E]; [repeat constructor|].
  rewrite E. reflexivity.
Defined.

(** ** More on the injector *)

Section MacroReplaceFiles.

Import ConfigInjector Described.

Lemma macro_replace_files_loop_paths (self : t) (d : fs)
    (files acc : list string) :
  macro_replace_files_loop self files acc d =
  (Ok (acc ++
         ((fun file => path_to_configure self +:+ "/" +:+ file) <$>
            filter (fun file =>
                      Is_true (regular_at d
                                 (path_to_configure self +:+ "/macroFiles/"
                                  +:+ file))) files))%list, d).
Proof.
  revert acc. induction files as [|file files IH]; intros acc.
  - simpl. now rewrite app_nil_r.
  - cbn [macro_replace_files_loop]. unfold bind, OS.isfile.
    rewrite filter_cons_bool. unfold regular_at at 1.
    destruct (d !! (path_to_configure self +:+ "/macroFiles/" +:+ file))
      as [[c|w es]|]; try apply IH.
    rewrite IH, fmap_cons, <- app_assoc. reflexivity.
Qed.

Lemma macro_replace_lines_entries (lines : list string)
    (macro_list : list (list string)) :
  macro_replace_lines lines macro_list =
  (macro_list ++
     ((fun line => split_chr "=" (strip line)) <$>
        filter (fun line => Is_true (macro_line_kept line)) lines))%list.
Proof.
  revert macro_list.
  induction lines as [|line lines IH]; intros macro_list; simpl.
  - now rewrite app_nil_r.
  - rewrite filter_cons_bool.
    change (negb (startswith line "#") && contains line "=")
      with (macro_line_kept line).
    destruct (macro_line_kept line); [|apply IH].
    rewrite IH, fmap_cons, <- app_assoc. reflexivity.
Qed.

Lemma macro_line_kept_pair (line : string) :
  macro_line_kept line = true ->
  has_pair (split_chr "=" (strip line)).
Proof.
  unfold macro_line_kept, has_pair. intros H.
  apply andb_prop in H as [_ H]. apply contains_chr_count in H.
  rewrite split_chr_length, strip_count by reflexivity. lia.
Qed.

End MacroReplaceFiles.

(** X15. [get_macro_replace_files] lists [macroFiles] and, for each regular
    file in it, returns the configure path joined with the file name: a
    path in the configure directory itself, not in [macroFiles]. Handed to
    [get_macro_replace_from_file], such a path adds nothing to the macro
    list unless a regular file of that name happens to lie in the configure
    directory. *)
Theorem macro_replace_files_point_outside_macroFiles
    (self : ConfigInjector.t) (d : fs) (w0 w : bool)
    (files0 files : list string) :
  let cp := ConfigInjector.path_to_configure self in
  d !! cp = Some (Dir w0 files0) ->
  d !! (cp +:+ "/macroFiles") = Some (Dir w files) ->
  ConfigInjector.get_macro_replace_files self d =
    (Ok ((fun file => cp +:+ "/" +:+ file) <$>
           filter (fun file =>
                     Is_true (Described.regular_at d
                                (cp +:+ "/macroFiles/" +:+ file))) files), d)
  /\ (forall file macro_list,
        Described.regular_at d (cp +:+ "/" +:+ file) = false ->
        ConfigInjector.get_macro_replace_from_file macro_list
          (cp +:+ "/" +:+ file) d
        = (Ok macro_list, d)).
Proof.
  intros cp Hcp Hdir. split.
  - unfold ConfigInjector.get_macro_replace_files, bind, OS.path_exists,
      OS.isdir.
    fold cp. rewrite Hcp, bool_decide_true by eauto. simpl.
    unfold OS.listdir. rewrite Hdir.
    now rewrite macro_replace_files_loop_paths.
  - intros file macro_list Hreg.
    unfold ConfigInjector.get_macro_replace_from_file, bind, OS.path_exists,
      OS.isfile.
    unfold Described.regular_at in Hreg. cbn beta iota.
    destruct (d !! (cp +:+ "/" +:+ file)) as [[c|w' es]|] eqn:E;
      try discriminate.
    + rewrite bool_decide_true by eauto. cbn. now rewrite ?E.
    + rewrite bool_decide_false by (intros [? ?]; discriminate). cbn.
      reflexivity.
Qed.

Lemma macro_replace_files_point_outside_macroFiles_witness :
  ConfigInjector.get_macro_replace_files Examples.ad_engine
    (Examples.manifest_disk Examples.manifest)
  = (Ok ["/cfg/BUILD_FLAG_CONFIG"], Examples.manifest_disk Examples.manifest)
  /\ ConfigInjector.get_macro_replace_from_file []
       "/cfg/BUILD_FLAG_CONFIG" (Examples.manifest_disk Examples.manifest)
     = (Ok [], Examples.manifest_disk Examples.manifest).
Proof.
  destruct (macro_replace_files_point_outside_macroFiles Examples.ad_engine
              (Examples.manifest_disk Examples.manifest) true true
              ["INSTALL_CONFIG"; "injectionFiles"; "macroFiles"]
              ["BUILD_FLAG_CONFIG"]) as [E H].
  - vm_compute. reflexivity.
  - vm_compute. reflexivity.
  - split.
    + rewrite E. reflexivity.
    + apply (H "BUILD_FLAG_CONFIG" []). vm_compute. reflexivity.
Defined.

Lemma macro_replace_from_file_pairs (macro_list : list (list string))
    (macro_file_path : string) (d : fs) :
  exists new,
    fst (ConfigInjector.get_macro_replace_from_file macro_list
           macro_file_path d)
    = Ok (macro_list ++ new)%list
    /\ Forall Described.has_pair new.
Proof.
  unfold ConfigInjector.get_macro_replace_from_file, bind, OS.path_exists,
    OS.isfile, OS.read_file.
  cbn beta iota.
  destruct (d !! macro_file_path) as [[text|w es]|] eqn:E.
  - rewrite bool_decide_true by eauto. cbn. rewrite ?E.
    rewrite macro_replace_lines_entries. eexists. split; [reflexivity|].
    apply Forall_fmap, Forall_forall. intros line Hin.
    apply list_elem_of_filter in Hin as [Hk _].
    apply macro_line_kept_pair. now apply Is_true_eq_true.
  - rewrite bool_decide_true by eauto. cbn. rewrite ?E.
    exists []. rewrite app_nil_r. split; [reflexivity|constructor].
  - rewrite bool_decide_false by (intros [? ?]; discriminate). cbn.
    exists []. rewrite app_nil_r. split; [reflexivity|constructor].
Qed.

(** X16. [get_macro_replace_from_file] never fails and never changes the
    entries already in the list or the disk: it appends, in file order, one
    entry for every line that does not start with [#] and contains [=], the
    pieces of the stripped line between its [=] characters, so that every
    new entry has at least a key and a value; a path that names no regular
    file adds nothing. *)
Theorem macro_replace_from_file_appends (macro_list : list (list string))
    (macro_file_path : string) (d : fs) :
  exists new,
    ConfigInjector.get_macro_replace_from_file macro_list macro_file_path d
    = (Ok (macro_list ++ new)%list, d)
    /\ Forall Described.has_pair new
    /\ (Described.regular_at d macro_file_path = false -> new = [])
    /\ (forall text,
          d !! macro_file_path = Some (File text) ->
          new = (fun line => split_chr "=" (strip line)) <$>
                  filter (fun line => Is_true (Described.macro_line_kept line))
                    (readlines text)).
Proof.
  unfold ConfigInjector.get_macro_replace_from_file, bind, OS.path_exists,
    OS.isfile, OS.read_file, Described.regular_at.
  cbn beta iota.
  destruct (d !! macro_file_path) as [[text|w es]|] eqn:E.
  - rewrite bool_decide_true by eauto. cbn. rewrite ?E.
    eexists. split; [now rewrite macro_replace_lines_entries|].
    split; [|split].
    + apply Forall_fmap, Forall_forall. intros line Hin.
      apply list_elem_of_filter in Hin as [Hk _].
      apply macro_line_kept_pair. now apply Is_true_eq_true.
    + discriminate.
    + now intros ? [= <-].
  - rewrite bool_decide_true by eauto. cbn. rewrite ?E.
    exists []. rewrite app_nil_r. repeat split; [constructor|discriminate].
  - rewrite bool_decide_false by (intros [? ?]; discriminate). cbn.
    exists []. rewrite app_nil_r. repeat split; [constructor|discriminate].
Qed.

Lemma macro_replace_from_file_appends_witness :
  ConfigInjector.get_macro_replace_from_file [["OLD"; "1"]]
    "/cfg/macroFiles/BUILD_FLAG_CONFIG"
    (Examples.manifest_disk Examples.manifest)
  = (Ok [["OLD"; "1"]; ["JPEG_EXTERNAL"; "NO"]],
     Examples.manifest_disk Examples.manifest).
Proof.
  destruct (macro_replace_from_file_appends [["OLD"; "1"]]
              "/cfg/macroFiles/BUILD_FLAG_CONFIG"
              (Examples.manifest_disk Examples.manifest))
    as (new & E & _ & _ & H).
  rewrite E, (H ("# flags" +:+ nl +:+ "JPEG_EXTERNAL=NO" +:+ nl)).
  - reflexivity.
  - vm_compute. reflexivity.
Defined.

(** X18. A macro whose value contains [=] is never applied: its token is
    split into three pieces or more, which the updater takes for an entry
    that is already consumed, so every file is rewritten exactly as if the
    macro were not in the list. *)
Theorem macro_with_equals_in_value_is_dropped (text old_text t : string)
    (i : nat) :
  filter (fun tok => Is_true (Described.kept_token tok)) (split_ws text) !! i
    = Some t ->
  2 <= count_chr "=" t ->
  ConfigParser.macros_of_text text !! i = Some (split_chr "=" t)
  /\ Described.unconsumed (split_chr "=" t) = false
  /\ rmap snd (ConfigInjector.rewrite_file old_text
                 (delete i (ConfigParser.macros_of_text text)))
     = rmap snd (ConfigInjector.rewrite_file old_text
                   (ConfigParser.macros_of_text text)).
Proof.
  intros Hi Hcount.
  assert (Hm : ConfigParser.macros_of_text text !! i
               = Some (split_chr "=" t)).
  { unfold ConfigParser.macros_of_text. rewrite macro_tokens_filter.
    simpl. now rewrite list_lookup_fmap, Hi. }
  assert (Hlen : 3 <= length (split_chr "=" t)).
  { rewrite split_chr_length. lia. }
  split; [exact Hm|]. split.
  - unfold Described.unconsumed. now apply Nat.ltb_ge.
  - destruct (rewrite_file_consumed i _ Hlen old_text _ Hm) as [E _].
    rewrite E.
    now destruct (ConfigInjector.rewrite_file old_text
                    (ConfigParser.macros_of_text text)).
Qed.

Lemma macro_with_equals_in_value_is_dropped_witness :
  rmap snd (ConfigInjector.rewrite_file ("CFLAGS=-O0" +:+ nl)
              (ConfigParser.macros_of_text "CFLAGS=-DX=1 JPEG=NO"))
  = Ok ("#CFLAGS=-O0" +:+ nl +:+ "JPEG=NO" +:+ nl).
Proof.
  destruct (macro_with_equals_in_value_is_dropped "CFLAGS=-DX=1 JPEG=NO"
              ("CFLAGS=-O0" +:+ nl) "CFLAGS=-DX=1" 0 eq_refl)
    as (_ & _ & E).
  - vm_compute. lia.
  - rewrite <- E. reflexivity.
Defined.

Section InjectAgain.

Import ConfigInjector.

Lemma drop_str_length (n : nat) (s : string) :
  String.length (drop_str n s) <= String.length s.
Proof.
  revert s. induction n as [|n IH]; intros s; [reflexivity|].
  destruct s as [|a s]; simpl; [lia|]. specialize (IH s). lia.
Qed.

Lemma new_name_length (file : string) :
  String.length (new_name file) <= String.length file.
Proof.
  unfold new_name. destruct (startswith file "EXAMPLE_"); [|lia].
  apply drop_str_length.
Qed.

(** A path in the directory is never the path of a backup. *)
Lemma not_a_backup_path (target_dir name file : string) :
  String.length name <= String.length file ->
  target_dir +:+ "/" +:+ name <> target_dir +:+ "/OLD_FILES/" +:+ file.
Proof.
  intros Hlen E. apply (f_equal String.length) in E.
  rewrite !length_append in E. simpl in E. lia.
Qed.

End InjectAgain.

(** X19. Injection is not idempotent: injecting the same fragment a second
    time into an existing target appends the whole block, markers included,
    once more; the original content stays in front. *)
Theorem inject_twice_appends_twice (self : ConfigInjector.t)
    (injector_file_path link text old : string) (d : fs) :
  let target := convert_path_abs (ConfigInjector.install_config self) link in
  let block := ConfigInjector.start_marker
               +:+ ConfigInjector.injected_lines (readlines text)
               +:+ ConfigInjector.end_marker in
  ConfigInjector.get_injector_file_link self injector_file_path = Ok link ->
  d !! target = Some (File old) ->
  d !! injector_file_path = Some (File text) ->
  injector_file_path <> target ->
  bind (ConfigInjector.inject_to_file self injector_file_path)
       (fun _ => ConfigInjector.inject_to_file self injector_file_path) d
  = (Ok tt, <[target := File (old +:+ block +:+ block)]> d).
Proof.
  intros target block Hlink Htarget Hfrag Hne. unfold bind.
  rewrite (inject_appends_to_existing_target self injector_file_path link
             text old d Hlink Htarget Hfrag Hne).
  fold target. fold block.
  rewrite (inject_appends_to_existing_target self injector_file_path link
             text (old +:+ block)
             (<[target := File (old +:+ block)]> d) Hlink).
  - fold target. fold block. rewrite insert_insert_eq.
    now rewrite append_assoc.
  - apply lookup_insert_eq.
  - now rewrite lookup_insert_ne by congruence.
  - exact Hne.
Qed.

Lemma inject_twice_appends_twice_witness :
  let d := <[Examples.release_target := File ("# local" +:+ nl)]>
             Examples.injection_disk in
  snd (bind (ConfigInjector.inject_to_file Examples.ad_engine
               "/cfg/injectionFiles/AD_RELEASE_CONFIG")
            (fun _ => ConfigInjector.inject_to_file Examples.ad_engine
                        "/cfg/injectionFiles/AD_RELEASE_CONFIG") d)
    !! Examples.release_target
  = Some (File (("# local" +:+ nl)
                +:+ (ConfigInjector.start_marker
                     +:+ "ADSIMDETECTOR=$(AREA_DETECTOR)/ADSimDetector" +:+ nl
                     +:+ "ADURL=$(AREA_DETECTOR)/ADURL" +:+ nl
                     +:+ ConfigInjector.end_marker)
                +:+ (ConfigInjector.start_marker
                     +:+ "ADSIMDETECTOR=$(AREA_DETECTOR)/ADSimDetector" +:+ nl
                     +:+ "ADURL=$(AREA_DETECTOR)/ADURL" +:+ nl
                     +:+ ConfigInjector.end_marker))).
Proof.
  intros d.
  rewrite (inject_twice_appends_twice Examples.ad_engine
             "/cfg/injectionFiles/AD_RELEASE_CONFIG"
             "$(AREA_DETECTOR)/configure/RELEASE_PRODS.local"
             Examples.release_fragment ("# local" +:+ nl) d).
  - simpl snd. rewrite lookup_insert_eq. reflexivity.
  - reflexivity.
  - vm_compute. reflexivity.
  - vm_compute. reflexivity.
  - discriminate.
Defined.

(** X20. Only the last component of the fragment's path is looked up: for a
    path whose file name is not one of the four predefined names,
    [inject_to_file] raises [KeyError] before it opens anything, and the
    disk is left as it is. *)
Theorem inject_unknown_fragment_name (path_to_configure : string)
    (cfg : InstallConfiguration) (injector_file_path : string) (d : fs) :
  Described.predefined (OS.basename injector_file_path) = false ->
  ConfigInjector.get_injector_file_link
    (ConfigInjector.init path_to_configure cfg) injector_file_path
  = Raise KeyError
  /\ ConfigInjector.inject_to_file
       (ConfigInjector.init path_to_configure cfg) injector_file_path d
     = (Raise KeyError, d).
Proof.
  intros Hname.
  assert (E : ConfigInjector.get_injector_file_link
                (ConfigInjector.init path_to_configure cfg)
                injector_file_path = Raise KeyError).
  { unfold ConfigInjector.get_injector_file_link.
    now apply getitem_other. }
  split; [exact E|].
  unfold ConfigInjector.inject_to_file, bind, lift. now rewrite E.
Qed.

Lemma inject_unknown_fragment_name_witness :
  ConfigInjector.inject_to_file Examples.ad_engine
    "/cfg/injectionFiles/README" Examples.injection_disk
  = (Raise KeyError, Examples.injection_disk).
Proof.
  apply (proj2 (inject_unknown_fragment_name "/cfg" Examples.ad_config
                  "/cfg/injectionFiles/README" Examples.injection_disk
                  eq_refl)).
Defined.

Section Backup.

Import ConfigInjector Described.

Lemma rename_src_gone (src dst c : string) (d d1 : fs) :
  OS.rename src dst d = (Ok tt, d1) -> d !! src = Some (File c) ->
  src <> dst -> d1 !! src = None.
Proof.
  unfold OS.rename. intros H Hsrc Hne. rewrite Hsrc in H.
  repeat case_match; try discriminate; injection H as <-;
    repeat first
      [ apply lookup_delete_eq
      | rewrite lookup_insert_ne;
        [|let E := fresh in
          intros E; first [congruence
                          |rewrite E in *; rewrite ?lookup_delete_eq in *;
                           congruence]] ].
Qed.

Lemma open_write_preserves (p q c : string) (d d' : fs) :
  OS.open_write p d = (Ok tt, d') -> d !! q = Some (File c) -> p <> q ->
  d' !! q = Some (File c).
Proof.
  unfold OS.open_write, OS.create. intros H Hq Hne.
  repeat case_match; try discriminate; injection H as <-.
  - now rewrite lookup_insert_ne.
  - rewrite lookup_insert_ne by exact Hne.
    rewrite lookup_insert_ne by congruence. exact Hq.
Qed.

Lemma write_preserves (p q s : string) (d : fs) :
  p <> q -> snd (OS.write p s d) !! q = d !! q.
Proof.
  intros Hne. unfold OS.write.
  destruct (d !! p) as [[c|w es]|]; simpl; try reflexivity.
  now rewrite lookup_insert_ne.
Qed.

Lemma append_inv_head (s a b : string) : s +:+ a = s +:+ b -> a = b.
Proof.
  induction s as [|x s IH]; [trivial|].
  rewrite !append_cons. intros [= H]. now apply IH.
Qed.

Lemma drop_str_app (p r : string) : drop_str (String.length p) (p +:+ r) = r.
Proof. induction p as [|x p IH]; [reflexivity|exact IH]. Qed.

Lemma drop_str_count (c : ascii) (n : nat) (s : string) :
  count_chr c (drop_str n s) <= count_chr c s.
Proof.
  revert s. induction n as [|n IH]; intros s; [reflexivity|].
  destruct s as [|a s]; simpl; [lia|]. specialize (IH s). lia.
Qed.

(** The only other name that is rewritten under the name [f] is
    [EXAMPLE_f]. *)
Lemma new_name_collision (g f : string) :
  new_name g = f -> g = f \/ g = "EXAMPLE_" +:+ f.
Proof.
  unfold new_name. destruct (startswith g "EXAMPLE_") eqn:E; [|now left].
  intros <-. right. apply startswith_prefix in E as [r ->]. reflexivity.
Qed.

Lemma new_name_example (f : string) : new_name ("EXAMPLE_" +:+ f) = f.
Proof.
  unfold new_name. now rewrite startswith_app.
Qed.

(** Paths in the directory and in its backup directory *)
Lemma entry_path_inj (target_dir g f : string) :
  target_dir +:+ "/" +:+ g = target_dir +:+ "/" +:+ f -> g = f.
Proof. intros H. apply append_inv_head in H. now injection H. Qed.

Lemma backup_path_inj (target_dir g f : string) :
  target_dir +:+ "/OLD_FILES/" +:+ g = target_dir +:+ "/OLD_FILES/" +:+ f ->
  g = f.
Proof.
  intros H. apply append_inv_head in H.
  now apply (append_inv_head "/OLD_FILES/") in H.
Qed.

Lemma entry_not_backup (target_dir g f : string) :
  count_chr "/" g = 0 ->
  target_dir +:+ "/" +:+ g <> target_dir +:+ "/OLD_FILES/" +:+ f.
Proof.
  intros Hg H. apply append_inv_head in H.
  change ("/" +:+ g) with (String "/" g) in H.
  change ("/OLD_FILES/" +:+ f) with (String "/" ("OLD_FILES/" +:+ f)) in H.
  injection H as ->. rewrite count_chr_app in Hg. simpl in Hg. lia.
Qed.

(** *** What one turn leaves alone *)

Lemma rename_frame (src dst q c : string) (d d1 : fs) :
  OS.rename src dst d = (Ok tt, d1) -> d !! q = Some (File c) ->
  q <> src -> q <> dst -> d1 !! q = Some (File c).
Proof.
  unfold OS.rename. intros H Hq Hs Hd.
  destruct (d !! src) as [n|]; [|discriminate].
  assert (Hq1 : delete src d !! q = Some (File c))
    by now rewrite lookup_delete_ne.
  set (d1' := delete src d) in *.
  set (d2 := match d1' !! OS.parent src with
             | Some (Dir w es) =>
                 <[OS.parent src :=
                     Dir w (OS.remove_entry (OS.basename src) es)]> d1'
             | _ => d1'
             end) in *.
  assert (Hq2 : d2 !! q = Some (File c)).
  { subst d2. destruct (d1' !! OS.parent src) as [[c0|w es]|] eqn:E;
      try exact Hq1.
    rewrite lookup_insert_ne; [exact Hq1|]. intros <-. congruence. }
  set (d3 := match d2 !! OS.parent dst with
             | Some (Dir w es) =>
                 <[OS.parent dst :=
                     Dir w (OS.add_entry (OS.basename dst) es)]> d2
             | _ => d2
             end) in *.
  assert (Hq3 : d3 !! q = Some (File c)).
  { subst d3. destruct (d2 !! OS.parent dst) as [[c0|w es]|] eqn:E;
      try exact Hq2.
    rewrite lookup_insert_ne; [exact Hq2|]. intros <-. congruence. }
  repeat case_match; try discriminate; injection H as <-;
    now rewrite lookup_insert_ne.
Qed.

Lemma create_frame (p q c : string) (n : node) (d d' : fs) :
  OS.create p n d = (Ok tt, d') -> d !! q = Some (File c) -> q <> p ->
  d' !! q = Some (File c).
Proof.
  unfold OS.create. intros H Hq Hne.
  destruct (d !! OS.parent p) as [[c0|[|] es]|] eqn:E; try discriminate.
  injection H as <-. rewrite lookup_insert_ne by congruence.
  rewrite lookup_insert_ne; [exact Hq|]. intros <-. congruence.
Qed.

(** One turn of the loop puts the text that the file holds when the turn
    starts into [OLD_FILES], under the file's name. *)
Lemma update_file_backup (self : t) (target_dir file old_text : string)
    (macros macros' : list (list string)) (d d' : fs) :
  d !! (target_dir +:+ "/" +:+ file) = Some (File old_text) ->
  update_file self target_dir file macros d = (Ok macros', d') ->
  d' !! (target_dir +:+ "/OLD_FILES/" +:+ file) = Some (File old_text).
Proof.
  intros Hfile H.
  unfold update_file, bind, OS.isfile in H.
  rewrite Hfile in H.
  destruct (OS.rename _ _ d) as [[[]|e] d1] eqn:Hren; [|discriminate].
  pose proof (rename_Ok_lookup _ _ _ _ _ Hren Hfile) as Hbackup.
  unfold OS.read_file in H. rewrite Hbackup in H.
  destruct (eligible self file); [|now injection H as _ <-].
  destruct (OS.open_write _ d1) as [[[]|e] d2] eqn:Hopen; [|discriminate].
  destruct (rewrite_file_trace old_text macros) as [[ms out] stop].
  assert (Hne : target_dir +:+ "/" +:+ new_name file
                <> target_dir +:+ "/OLD_FILES/" +:+ file)
    by apply not_a_backup_path, new_name_length.
  pose proof (open_write_preserves _ _ _ _ _ Hopen Hbackup Hne) as Hkept.
  pose proof (write_preserves _ _ out d2 Hne) as Hw.
  destruct (OS.write _ out d2) as [[[]|e] d3]; [|discriminate].
  destruct stop as [e|]; [discriminate|].
  injection H as _ <-. simpl in Hw. now rewrite Hw.
Qed.

(** One turn changes no regular file besides the file itself, its backup
    and the file it writes. *)
Lemma update_file_frame (self : t) (target_dir file q c : string)
    (macros macros' : list (list string)) (d d' : fs) :
  update_file self target_dir file macros d = (Ok macros', d') ->
  d !! q = Some (File c) ->
  q <> target_dir +:+ "/" +:+ file ->
  q <> target_dir +:+ "/OLD_FILES/" +:+ file ->
  q <> target_dir +:+ "/" +:+ new_name file ->
  d' !! q = Some (File c).
Proof.
  intros H Hq Hsrc Hdst Hnew.
  unfold update_file, bind, OS.isfile in H.
  destruct (d !! (target_dir +:+ "/" +:+ file)) as [[c0|w es]|];
    try (now injection H as _ <-).
  destruct (OS.rename _ _ d) as [[[]|e] d1] eqn:Hren; [|discriminate].
  pose proof (rename_frame _ _ _ _ _ _ Hren Hq Hsrc Hdst) as Hq1.
  unfold OS.read_file in H.
  destruct (d1 !! (target_dir +:+ "/OLD_FILES/" +:+ file)) as [[c1|w es]|];
    try discriminate.
  destruct (eligible self file); [|now injection H as _ <-].
  destruct (OS.open_write _ d1) as [[[]|e] d2] eqn:Hopen; [|discriminate].
  destruct (rewrite_file_trace c1 macros) as [[ms out] stop].
  pose proof (open_write_preserves _ _ _ _ _ Hopen Hq1 (not_eq_sym Hnew))
    as Hq2.
  pose proof (write_preserves _ _ out d2 (not_eq_sym Hnew)) as Hw.
  destruct (OS.write _ out d2) as [[[]|e] d3]; [|discriminate].
  destruct stop as [e|]; [discriminate|].
  injection H as _ <-. simpl in Hw. now rewrite Hw.
Qed.

Lemma update_files_frame (self : t) (target_dir q c : string)
    (files : list string) (macros macros' : list (list string)) (d d' : fs) :
  update_files self target_dir files macros d = (Ok macros', d') ->
  d !! q = Some (File c) ->
  Forall (fun file =>
            q <> target_dir +:+ "/" +:+ file
            /\ q <> target_dir +:+ "/OLD_FILES/" +:+ file
            /\ q <> target_dir +:+ "/" +:+ new_name file) files ->
  d' !! q = Some (File c).
Proof.
  intros H Hq Hfiles. revert macros d H Hq.
  induction Hfiles as [|file files (H1 & H2 & H3) _ IH]; intros macros d H Hq.
  - now injection H as _ <-.
  - cbn [update_files] in H. unfold bind in H.
    destruct (update_file self target_dir file macros d) as [[ms|e] d1] eqn:E;
      [|discriminate].
    apply (IH ms d1 H).
    exact (update_file_frame _ _ _ _ _ _ _ _ _ E Hq H1 H2 H3).
Qed.

(** The loop over a listing without repeated names: the text a regular
    file holds when the loop starts is in [OLD_FILES] when the loop ends,
    unless the listing also has the file's [EXAMPLE_] template. *)
Lemma update_files_backup (self : t) (target_dir f text : string)
    (files : list string) (macros macros' : list (list string)) (d d' : fs) :
  NoDup files ->
  Forall (fun file => count_chr "/" file = 0) files ->
  f ∈ files ->
  "EXAMPLE_" +:+ f ∉ files ->
  d !! (target_dir +:+ "/" +:+ f) = Some (File text) ->
  update_files self target_dir files macros d = (Ok macros', d') ->
  d' !! (target_dir +:+ "/OLD_FILES/" +:+ f) = Some (File text).
Proof.
  intros Hnd Hnames Hin Hex Hf H.
  apply list_elem_of_split in Hin as (pre & post & ->).
  apply NoDup_app in Hnd as (_ & Hpre & Hpost).
  apply NoDup_cons in Hpost as [Hpost _].
  apply Forall_app in Hnames as [Hnpre Hnpost].
  apply Forall_cons in Hnpost as [Hnf Hnpost].
  destruct (update_files self target_dir pre macros d) as [[m1|e] d1] eqn:E1.
  2:{ exfalso. revert H. clear -E1. revert macros d E1.
      induction pre as [|x pre IH]; intros macros d E1; [discriminate|].
      cbn [app update_files] in *. unfold bind in *.
      destruct (update_file self target_dir x macros d) as [[ms|e0] d0];
        [|discriminate].
      now apply IH. }
  rewrite (update_files_app _ _ _ _ _ _ _ _ E1) in H.
  cbn [update_files] in H. unfold bind in H.
  destruct (update_file self target_dir f m1 d1) as [[m2|e] d2] eqn:E2;
    [|discriminate].
  assert (Hf1 : d1 !! (target_dir +:+ "/" +:+ f) = Some (File text)).
  { apply (update_files_frame _ _ _ _ _ _ _ _ _ E1 Hf).
    apply Forall_forall. intros g Hg.
    assert (Hgf : g <> f).
    { intros ->. apply (Hpre f Hg). left. }
    split; [|split].
    - intros Heq. apply entry_path_inj in Heq. congruence.
    - now apply entry_not_backup.
    - intros Heq. apply entry_path_inj in Heq. symmetry in Heq.
      destruct (new_name_collision _ _ Heq) as [->| ->]; [congruence|].
      apply Hex. apply elem_of_app. now left. }
  pose proof (update_file_backup _ _ _ _ _ _ _ _ Hf1 E2) as Hb.
  apply (update_files_frame _ _ _ _ _ _ _ _ _ H Hb).
  apply Forall_forall. intros h Hh.
  assert (Hhf : h <> f).
  { intros ->. apply Hpost. exact Hh. }
  assert (Hnh : count_chr "/" h = 0)
    by exact (proj1 (Forall_forall _ _) Hnpost h Hh).
  split; [|split].
  - apply not_eq_sym. now apply entry_not_backup.
  - intros Heq. apply backup_path_inj in Heq. congruence.
  - apply not_eq_sym, entry_not_backup. unfold new_name.
    destruct (startswith h "EXAMPLE_"); [|exact Hnh].
    pose proof (drop_str_count "/" 8 h). lia.
Qed.

(** An eligible file: the text written from it is at the new name when
    its turn ends. *)
Lemma update_file_written (self : t) (target_dir file old_text : string)
    (macros macros' : list (list string)) (d d' : fs) :
  d !! (target_dir +:+ "/" +:+ file) = Some (File old_text) ->
  eligible self file = true ->
  update_file self target_dir file macros d = (Ok macros', d') ->
  exists out,
    rewrite_file old_text macros = Ok (macros', out)
    /\ d' !! (target_dir +:+ "/" +:+ new_name file) = Some (File out).
Proof.
  intros Hfile Hel H.
  unfold update_file, bind, OS.isfile in H.
  rewrite Hfile in H.
  destruct (OS.rename _ _ d) as [[[]|e] d1] eqn:Hren; [|discriminate].
  pose proof (rename_Ok_lookup _ _ _ _ _ Hren Hfile) as Hbackup.
  unfold OS.read_file in H. rewrite Hbackup, Hel in H.
  destruct (OS.open_write _ d1) as [[[]|e] d2] eqn:Hopen; [|discriminate].
  destruct (rewrite_file_trace old_text macros) as [[ms out] stop] eqn:E.
  apply rewrite_file_trace_stop in E.
  rewrite (write_file _ _ _ _ (open_write_Ok_lookup _ _ _ Hopen)) in H.
  destruct stop as [e|]; [discriminate|].
  injection H as <- <-. exists out. split; [exact E|].
  apply lookup_insert_eq.
Qed.

(** An eligible file whose rewriting raises: the exception leaves the
    original in [OLD_FILES] and, at the new name, what had been written
    when it was raised. *)
Lemma update_file_interrupted (self : t) (target_dir file old_text : string)
    (macros ms : list (list string)) (out : string) (e : exn)
    (d d1 d2 : fs) :
  d !! (target_dir +:+ "/" +:+ file) = Some (File old_text) ->
  eligible self file = true ->
  OS.rename (target_dir +:+ "/" +:+ file)
    (target_dir +:+ "/OLD_FILES/" +:+ file) d = (Ok tt, d1) ->
  OS.open_write (target_dir +:+ "/" +:+ new_name file) d1 = (Ok tt, d2) ->
  rewrite_file_trace old_text macros = (ms, out, Some e) ->
  update_file self target_dir file macros d
  = (Raise e, <[target_dir +:+ "/" +:+ new_name file := File out]> d2)
  /\ rewrite_file old_text macros = Raise e.
Proof.
  intros Hfile Hel Hren Hopen Htrace.
  split; [|exact (rewrite_file_trace_stop _ _ _ _ _ Htrace)].
  unfold update_file, bind, OS.isfile.
  rewrite Hfile, Hren.
  unfold OS.read_file. rewrite (rename_Ok_lookup _ _ _ _ _ Hren Hfile).
  rewrite Hel, Hopen, Htrace.
  now rewrite (write_file _ _ _ _ (open_write_Ok_lookup _ _ _ Hopen)).
Qed.

(** For instance, with an entry that has a key only: the first pair has
    been written and marked, and the line that no entry hits has been
    commented out, when the closing loop raises. *)
Lemma update_file_interrupted_example :
  let d0 := <["/ad/configure/RELEASE.local" :=
               File ("B=1" +:+ nl +:+ "Z" +:+ nl)]>
              Examples.template_pair_dir in
  let r := update_file Examples.engine "/ad/configure" "RELEASE.local"
             [["B"; "x"]; ["AB"]] d0 in
  rewrite_file_trace ("B=1" +:+ nl +:+ "Z" +:+ nl) [["B"; "x"]; ["AB"]]
    = ([["B"; "x"; "DONE"]; ["AB"]], "B=x" +:+ nl +:+ "#Z" +:+ nl,
       Some IndexError)
  /\ fst r = Raise IndexError
  /\ snd r !! "/ad/configure/RELEASE.local"
     = Some (File ("B=x" +:+ nl +:+ "#Z" +:+ nl))
  /\ snd r !! "/ad/configure/OLD_FILES/RELEASE.local"
     = Some (File ("B=1" +:+ nl +:+ "Z" +:+ nl)).
Proof. repeat split; vm_compute; reflexivity. Qed.

(** The name under which the backup directory is listed *)
Lemma split_by_app_sep (p : ascii -> bool) (c : ascii) (a b : string) :
  p c = true ->
  split_by p (a +:+ String c b) = (split_by p a ++ split_by p b)%list.
Proof.
  intros Hc. induction a as [|x a IH].
  - change (EmptyString +:+ String c b) with (String c b).
    cbn [split_by]. now rewrite Hc.
  - rewrite append_cons. cbn [split_by]. rewrite IH.
    destruct (p x); [reflexivity|].
    destruct (split_by_cons p a) as (h & t & ->). reflexivity.
Qed.

Lemma basename_entry (target_dir name : string) :
  count_chr "/" name = 0 -> OS.basename (target_dir +:+ "/" +:+ name) = name.
Proof.
  intros Hn. unfold OS.basename, split_chr.
  change ("/" +:+ name) with (String "/" name).
  rewrite (split_by_app_sep _ "/" _ _ (Ascii.eqb_refl _)).
  fold (split_chr "/" name). rewrite (split_chr_none _ _ Hn).
  apply List.last_last.
Qed.

End Backup.

(** X21. A call of [update_macros] that returns keeps the original of a
    regular file of the directory: the text the file holds when the call
    starts is in [OLD_FILES], under the file's name, when the call ends,
    provided the directory does not also list the file's template
    [EXAMPLE_<name>] (the listing being one of names, without [/] and
    without repetition). *)
Theorem update_macros_keeps_backup (self : ConfigInjector.t)
    (macros macros' : list (list string)) (target_dir f text : string)
    (w : bool) (files : list string) (d d' : fs) :
  d !! target_dir = Some (Dir w files) ->
  NoDup files ->
  Forall (fun file => count_chr "/" file = 0) files ->
  f ∈ files ->
  "EXAMPLE_" +:+ f ∉ files ->
  d !! (target_dir +:+ "/" +:+ f) = Some (File text) ->
  ConfigInjector.update_macros self macros target_dir d = (Ok macros', d') ->
  d' !! (target_dir +:+ "/OLD_FILES/" +:+ f) = Some (File text).
Proof.
  intros Hdir Hnd Hnames Hin Hex Hf H.
  unfold ConfigInjector.update_macros, bind, OS.path_exists, OS.isdir in H.
  rewrite Hdir, bool_decide_true in H by eauto.
  cbn [andb] in H. cbn beta iota in H.
  destruct (bool_decide (is_Some (d !! (target_dir +:+ "/OLD_FILES"))))
    eqn:Eb.
  - unfold ret, OS.listdir in H. rewrite Hdir in H.
    exact (update_files_backup _ _ _ _ _ _ _ _ _ Hnd Hnames Hin Hex Hf H).
  - destruct (OS.mkdir (target_dir +:+ "/OLD_FILES") d) as [[[]|e] d0] eqn:E;
      [|discriminate].
    assert (Hne : target_dir +:+ "/" +:+ f <> target_dir +:+ "/OLD_FILES").
    { intros Heq. apply bool_decide_eq_false in Eb. apply Eb.
      rewrite <- Heq, Hf. eauto. }
    pose proof (create_frame _ _ _ _ _ _ E Hf Hne) as Hf0.
    unfold OS.mkdir, OS.create in E.
    destruct (d !! OS.parent (target_dir +:+ "/OLD_FILES"))
      as [[c0|[|] es]|] eqn:Ep; try discriminate.
    injection E as <-.
    unfold OS.listdir in H.
    assert (Hlen : target_dir <> target_dir +:+ "/OLD_FILES").
    { intros Heq. apply (f_equal String.length) in Heq.
      rewrite length_append in Heq. simpl in Heq. lia. }
    rewrite lookup_insert_ne in H by congruence.
    destruct (decide (OS.parent (target_dir +:+ "/OLD_FILES") = target_dir))
      as [Hp|Hp].
    + rewrite Hp in *. rewrite lookup_insert_eq in H.
      assert (es = files) by congruence. subst es.
      pose proof (basename_entry target_dir "OLD_FILES" eq_refl) as Hb.
      change ("/" +:+ "OLD_FILES") with "/OLD_FILES" in Hb.
      rewrite Hb in H, Hf0. clear Hb.
      unfold OS.add_entry in H, Hf0.
      destruct (bool_decide ("OLD_FILES" ∈ files)) eqn:Eo.
      * exact (update_files_backup _ _ _ _ _ _ _ _ _ Hnd Hnames Hin Hex
                 Hf0 H).
      * apply (update_files_backup _ _ f text _ _ _ _ _) in H; trivial.
        -- apply NoDup_app. split; [exact Hnd|]. split.
           ++ intros x Hx Hx'. apply list_elem_of_singleton in Hx'.
              subst x. now apply bool_decide_eq_false in Eo.
           ++ apply NoDup_singleton.
        -- apply Forall_app. split; [exact Hnames|]. now constructor.
        -- apply elem_of_app. now left.
        -- intros Hx. apply elem_of_app in Hx as [Hx|Hx]; [now apply Hex|].
           apply list_elem_of_singleton in Hx. discriminate.
    + rewrite lookup_insert_ne in H by exact Hp. rewrite Hdir in H.
      exact (update_files_backup _ _ _ _ _ _ _ _ _ Hnd Hnames Hin Hex Hf0 H).
Qed.

Lemma update_macros_keeps_backup_witness :
  snd (ConfigInjector.update_macros Examples.engine Examples.macro_list
         "/ad/configure" Examples.configure_dir)
    !! "/ad/configure/OLD_FILES/RELEASE.local"
  = Some (File ("AB=NO" +:+ nl +:+ "Z=1" +:+ nl)).
Proof.
  apply (update_macros_keeps_backup Examples.engine Examples.macro_list
           [["B"; "x"; "DONE"]; ["AB"; "y"; "DONE"]; ["Q"; "1"; "2"];
            ["N"; "n"]]
           "/ad/configure" "RELEASE.local"
           ("AB=NO" +:+ nl +:+ "Z=1" +:+ nl) true
           ["EXAMPLE_CONFIG_SITE.local"; "RELEASE.local"; "Makefile.in"]
           Examples.configure_dir).
  - vm_compute. reflexivity.
  - apply (bool_decide_unpack _). vm_compute. reflexivity.
  - repeat constructor.
  - apply (bool_decide_unpack _). vm_compute. reflexivity.
  - apply (bool_decide_unpack _). vm_compute. reflexivity.
  - vm_compute. reflexivity.
  - apply run_returns. vm_compute. reflexivity.
Defined.

(** X30. The original is lost when the loop goes through the template
    [EXAMPLE_<name>] of a file and then through the file itself: the
    template's turn writes the new file over the file [<name>], whose own
    turn then moves that new text into [OLD_FILES]. After the two turns the
    backup of [<name>] holds the text written from the template, the backup
    of the template holds the template, and what [<name>] held before is in
    neither. *)
Theorem template_overwrites_original (self : ConfigInjector.t)
    (target_dir f template_text : string)
    (macros macros' : list (list string)) (d d' : fs) :
  d !! (target_dir +:+ "/" +:+ "EXAMPLE_" +:+ f)
    = Some (File template_text) ->
  ConfigInjector.eligible self ("EXAMPLE_" +:+ f) = true ->
  ConfigInjector.update_files self target_dir ["EXAMPLE_" +:+ f; f] macros d
    = (Ok macros', d') ->
  exists macros1 out,
    ConfigInjector.rewrite_file template_text macros = Ok (macros1, out)
    /\ d' !! (target_dir +:+ "/OLD_FILES/" +:+ f) = Some (File out)
    /\ d' !! (target_dir +:+ "/OLD_FILES/" +:+ "EXAMPLE_" +:+ f)
       = Some (File template_text).
Proof.
  intros Htemplate Hel H.
  cbn [ConfigInjector.update_files] in H. unfold bind, ret in H.
  destruct (ConfigInjector.update_file self target_dir ("EXAMPLE_" +:+ f)
              macros d) as [[macros1|e] d1] eqn:E1; [|discriminate].
  destruct (ConfigInjector.update_file self target_dir f macros1 d1)
    as [[macros2|e] d2] eqn:E2; [|discriminate].
  injection H as _ <-.
  destruct (update_file_written _ _ _ _ _ _ _ _ Htemplate Hel E1)
    as (out & Hout & Hnew).
  rewrite new_name_example in Hnew.
  exists macros1, out. split; [exact Hout|]. split.
  - exact (update_file_backup _ _ _ _ _ _ _ _ Hnew E2).
  - pose proof (update_file_backup _ _ _ _ _ _ _ _ Htemplate E1) as Hb.
    apply (update_file_frame _ _ _ _ _ _ _ _ _ E2 Hb).
    + apply not_eq_sym, not_a_backup_path. rewrite length_append. lia.
    + intros Heq. apply backup_path_inj in Heq.
      apply (f_equal String.length) in Heq.
      rewrite length_append in Heq. simpl in Heq. lia.
    + apply not_eq_sym, not_a_backup_path.
      pose proof (new_name_length f). rewrite length_append. lia.
Qed.

Lemma template_overwrites_original_witness :
  Examples.template_pair_dir !! "/ad/configure/RELEASE.local"
    = Some (File ("AB=SITE" +:+ nl +:+ "KEEP=1" +:+ nl))
  /\ snd (ConfigInjector.update_files Examples.engine "/ad/configure"
            ["EXAMPLE_RELEASE.local"; "RELEASE.local"] Examples.macro_list
            Examples.template_pair_dir)
       !! "/ad/configure/OLD_FILES/RELEASE.local"
     = Some (File ("B=x" +:+ nl +:+ "AB=y" +:+ nl +:+ "N=n" +:+ nl)).
Proof.
  split; [vm_compute; reflexivity|].
  destruct (template_overwrites_original Examples.engine "/ad/configure"
              "RELEASE.local" ("AB=NO" +:+ nl) Examples.macro_list
              [["B"; "x"; "DONE"]; ["AB"; "y"; "DONE"]; ["Q"; "1"; "2"];
               ["N"; "n"; "DONE"]]
              Examples.template_pair_dir
              (snd (ConfigInjector.update_files Examples.engine
                      "/ad/configure"
                      ["EXAMPLE_RELEASE.local"; "RELEASE.local"]
                      Examples.macro_list Examples.template_pair_dir)))
    as (macros1 & out & E & Hb & _).
  - vm_compute. reflexivity.
  - vm_compute. reflexivity.
  - apply run_returns. vm_compute. reflexivity.
  - vm_compute in E. injection E as _ <-. exact Hb.
Defined.

(** X22. A file that is not eligible (its name has a dot and ends neither
    with the architecture suffix nor with [.local]) is only moved: after its
    turn nothing is left at its place in the directory, its text is in
    [OLD_FILES], no file has been written, and the macro list is as it
    was. *)
Theorem ineligible_file_is_moved_away (self : ConfigInjector.t)
    (target_dir file old_text : string) (macros : list (list string))
    (d d1 : fs) :
  d !! (target_dir +:+ "/" +:+ file) = Some (File old_text) ->
  ConfigInjector.eligible self file = false ->
  OS.rename (target_dir +:+ "/" +:+ file)
    (target_dir +:+ "/OLD_FILES/" +:+ file) d = (Ok tt, d1) ->
  ConfigInjector.update_file self target_dir file macros d = (Ok macros, d1)
  /\ d1 !! (target_dir +:+ "/" +:+ file) = None
  /\ d1 !! (target_dir +:+ "/OLD_FILES/" +:+ file) = Some (File old_text).
Proof.
  intros Hfile Hel Hren.
  pose proof (rename_Ok_lookup _ _ _ _ _ Hren Hfile) as Hbackup.
  split; [|split].
  - unfold ConfigInjector.update_file, bind, OS.isfile.
    rewrite Hfile, Hren. unfold OS.read_file. now rewrite Hbackup, Hel.
  - apply (rename_src_gone _ _ _ _ _ Hren Hfile).
    now apply not_a_backup_path.
  - exact Hbackup.
Qed.

Lemma ineligible_file_is_moved_away_witness :
  let d0 := snd (OS.mkdir "/ad/configure/OLD_FILES" Examples.configure_dir) in
  let r := ConfigInjector.update_file Examples.engine "/ad/configure"
             "Makefile.in" Examples.macro_list d0 in
  fst r = Ok Examples.macro_list
  /\ snd r !! "/ad/configure/Makefile.in" = None.
Proof.
  intros d0 r.
  destruct (ineligible_file_is_moved_away Examples.engine "/ad/configure"
              "Makefile.in" "all:" Examples.macro_list d0
              (snd (OS.rename "/ad/configure/Makefile.in"
                      "/ad/configure/OLD_FILES/Makefile.in" d0)))
    as (E & Hgone & _).
  - vm_compute. reflexivity.
  - vm_compute. reflexivity.
  - apply run_returns. vm_compute. reflexivity.
  - subst r. rewrite E. split; [reflexivity|exact Hgone].
Defined.

Section Marks.

Import ConfigInjector Described.

Lemma marked_once_refl (m : list string) : marked_once m m.
Proof. now left. Qed.

Lemma marked_once_trans (m1 m2 m3 : list string) :
  marked_once m1 m2 -> marked_once m2 m3 -> marked_once m1 m3.
Proof.
  intros [->|[H1 ->]] [->|[H2 ->]]; try (now left); try (now right).
  rewrite length_app in H2. simpl in H2. lia.
Qed.

Lemma marks_refl (macros : list (list string)) :
  Forall2 marked_once macros macros.
Proof. induction macros; constructor; [apply marked_once_refl|assumption]. Qed.

Lemma marks_trans (l1 l2 l3 : list (list string)) :
  Forall2 marked_once l1 l2 -> Forall2 marked_once l2 l3 ->
  Forall2 marked_once l1 l3.
Proof.
  intros H. revert l3. induction H as [|m1 m2 l1 l2 Hm _ IH]; intros l3 H23.
  - inversion H23. constructor.
  - inversion H23 as [|? m3 ? l3' Hm' H' ]; subst. constructor.
    + eapply marked_once_trans; eassumption.
    + now apply IH.
Qed.

Lemma index_Ok_length {A} (l : list A) (n : nat) (a : A) :
  index l n = Ok a -> n < length l.
Proof.
  unfold index. destruct (l !! n) eqn:E; [|discriminate].
  intros _. now apply lookup_lt_Some in E.
Qed.

Lemma scan_macros_marks (line : string) (macros : list (list string))
    (wrote_line : bool) (r : list (list string) * string * bool) :
  scan_macros line macros wrote_line = Ok r ->
  Forall2 marked_once macros (fst (fst r)).
Proof.
  revert wrote_line r.
  induction macros as [|m macros IH]; intros wrote_line r.
  - simpl. intros [= <-]. constructor.
  - cbn [scan_macros].
    destruct (index m 0) as [k|e] eqn:E0; [|discriminate]. cbn [rbind].
    destruct (contains line (k +:+ "=") && Nat.ltb (length m) 3) eqn:Hc.
    + destruct (index m 1) as [v|e] eqn:E1; [|discriminate]. cbn [rbind].
      apply andb_prop in Hc as [_ Hlt]. apply Nat.ltb_lt in Hlt.
      apply index_Ok_length in E1.
      destruct (scan_macros line macros true) as [[[ms out] w]|e] eqn:E;
        [|discriminate].
      cbn [rbind]. intros [= <-]. simpl. constructor; [|exact (IH _ _ E)].
      right. split; [lia|reflexivity].
    + destruct (scan_macros line macros wrote_line) as [[[ms out] w]|e] eqn:E;
        [|discriminate].
      cbn [rbind]. intros [= <-]. simpl.
      constructor; [apply marked_once_refl|exact (IH _ _ E)].
Qed.

Lemma rewrite_lines_marks (lines : list string) (macros : list (list string))
    (r : list (list string) * string) :
  rewrite_lines lines macros = Ok r -> Forall2 marked_once macros (fst r).
Proof.
  revert macros r. induction lines as [|raw lines IH]; intros macros r; simpl.
  - intros [= <-]. apply marks_refl.
  - destruct (scan_macros (strip raw) macros false) as [[[ms out] w]|e] eqn:E;
      [|discriminate].
    simpl.
    destruct (rewrite_lines lines ms) as [[ms' out']|e] eqn:E';
      [|discriminate].
    simpl. intros [= <-]. simpl.
    eapply marks_trans; [exact (scan_macros_marks _ _ _ _ E)|].
    exact (IH _ _ E').
Qed.

Lemma rewrite_file_marks (old_text : string) (macros : list (list string))
    (r : list (list string) * string) :
  rewrite_file old_text macros = Ok r -> Forall2 marked_once macros (fst r).
Proof.
  unfold rewrite_file.
  destruct (rewrite_lines (readlines old_text) macros) as [[ms body]|e] eqn:E;
    [|discriminate].
  simpl. destruct (append_unused ms); [|discriminate].
  simpl. intros [= <-]. exact (rewrite_lines_marks _ _ _ E).
Qed.

Lemma update_file_marks (self : t) (target_dir file : string)
    (macros macros' : list (list string)) (d d' : fs) :
  update_file self target_dir file macros d = (Ok macros', d') ->
  Forall2 marked_once macros macros'.
Proof.
  unfold update_file, bind.
  destruct (OS.isfile _ d) as [[[|]|e] d0]; try discriminate;
    [|intros [= <- _]; apply marks_refl].
  destruct (OS.rename _ _ d0) as [[[]|e] d1]; [|discriminate].
  destruct (OS.read_file _ d1) as [[old_text|e] d2]; [|discriminate].
  destruct (eligible self file); [|intros [= <- _]; apply marks_refl].
  destruct (OS.open_write _ d2) as [[[]|e] d3]; [|discriminate].
  destruct (rewrite_file_trace old_text macros) as [[ms out] stop] eqn:E.
  apply rewrite_file_trace_stop in E.
  destruct (OS.write _ out d3) as [[[]|e] d4]; [|discriminate].
  destruct stop as [e|]; [discriminate|].
  intros [= <- _]. exact (rewrite_file_marks _ _ _ E).
Qed.

Lemma update_files_marks (self : t) (target_dir : string)
    (files : list string) (macros macros' : list (list string)) (d d' : fs) :
  update_files self target_dir files macros d = (Ok macros', d') ->
  Forall2 marked_once macros macros'.
Proof.
  revert macros d. induction files as [|file files IH]; intros macros d;
    simpl.
  - intros [= <- _]. apply marks_refl.
  - unfold bind.
    destruct (update_file self target_dir file macros d) as [[ms|e] d1] eqn:E;
      [|discriminate].
    intros H. eapply marks_trans; [exact (update_file_marks _ _ _ _ _ _ _ E)|].
    exact (IH _ _ H).
Qed.

Lemma consumed_no_hit (line : string) (macros : list (list string)) :
  Forall (fun m => 3 <= length m) macros ->
  filter (fun m => Is_true (hits line m)) macros = []
  /\ mark line macros = macros
  /\ filter (fun m => Is_true (unconsumed m)) macros = [].
Proof.
  induction 1 as [|m macros Hm _ (IH1 & IH2 & IH3)]; [now repeat split|].
  assert (Hu : unconsumed m = false) by now apply Nat.ltb_ge.
  assert (Hh : hits line m = false) by (unfold hits; now rewrite Hu).
  rewrite !filter_cons_bool, Hh, Hu. unfold mark in *.
  rewrite fmap_cons, Hh, IH2. repeat split; assumption.
Qed.

Lemma all_per_line_consumed (lines : list string)
    (macros : list (list string)) :
  Forall (fun m => 3 <= length m) macros ->
  all_per_line lines macros =
  (macros, text_of ((fun raw => kept_line (strip raw)) <$> lines)).
Proof.
  intros H. induction lines as [|raw lines IH]; [reflexivity|].
  cbn [all_per_line]. unfold line_output.
  destruct (consumed_no_hit (strip raw) macros H) as (-> & -> & _).
  now rewrite IH.
Qed.

(** *** Entries too short to hold a key and a value *)

Lemma index_raise {A} (l : list A) (n : nat) (e : exn) :
  index l n = Raise e -> e = IndexError.
Proof. unfold index. destruct (l !! n); [discriminate|]. now intros [= <-]. Qed.

Lemma scan_macros_raise (line : string) (macros : list (list string))
    (wrote_line : bool) (e : exn) :
  scan_macros line macros wrote_line = Raise e -> e = IndexError.
Proof.
  revert wrote_line.
  induction macros as [|x macros IH]; intros wrote_line; [discriminate|].
  cbn [scan_macros].
  destruct (index x 0) as [k|e0] eqn:E0;
    [|intros [= <-]; exact (index_raise _ _ _ E0)].
  cbn [rbind].
  destruct (contains line (k +:+ "=") && Nat.ltb (length x) 3).
  - destruct (index x 1) as [v|e1] eqn:E1;
      [|intros [= <-]; exact (index_raise _ _ _ E1)].
    cbn [rbind].
    destruct (scan_macros line macros true) as [[[ms out] w]|e2] eqn:E2;
      [discriminate|].
    intros [= <-]. exact (IH _ E2).
  - destruct (scan_macros line macros wrote_line) as [[[ms out] w]|e2] eqn:E2;
      [discriminate|].
    intros [= <-]. exact (IH _ E2).
Qed.

Lemma rewrite_lines_raise (lines : list string)
    (macros : list (list string)) (e : exn) :
  rewrite_lines lines macros = Raise e -> e = IndexError.
Proof.
  revert macros.
  induction lines as [|raw lines IH]; intros macros; [discriminate|].
  cbn [rewrite_lines].
  destruct (scan_macros (strip raw) macros false) as [[[ms out] w]|e0] eqn:E0;
    [|intros [= <-]; exact (scan_macros_raise _ _ _ _ E0)].
  cbn [rbind].
  destruct (rewrite_lines lines ms) as [[ms' out']|e1] eqn:E1;
    [discriminate|].
  intros [= <-]. exact (IH _ E1).
Qed.

(** A short entry is never marked. *)
Lemma marks_keep_short (macros macros' : list (list string)) :
  Forall2 marked_once macros macros' ->
  Exists (fun macro => length macro < 2) macros ->
  Exists (fun macro => length macro < 2) macros'.
Proof.
  induction 1 as [|x y macros macros' Hxy _ IH]; intros Hex;
    [inversion Hex|].
  apply Exists_cons in Hex as [Hx|Hex].
  - apply Exists_cons_hd. destruct Hxy as [->|[Hlen _]]; [exact Hx|lia].
  - apply Exists_cons_tl. now apply IH.
Qed.

(** The closing loop stops at the first entry without a key or a value. *)
Lemma append_unused_short (macros : list (list string)) :
  Exists (fun macro => length macro < 2) macros ->
  append_unused macros = Raise IndexError.
Proof.
  induction macros as [|x macros IH]; intros Hex; [inversion Hex|].
  cbn [append_unused].
  destruct (Nat.ltb (length x) 3) eqn:El.
  - destruct (index x 0) as [k|e0] eqn:E0;
      [|now rewrite (index_raise _ _ _ E0)].
    cbn [rbind].
    destruct (index x 1) as [v|e1] eqn:E1;
      [|now rewrite (index_raise _ _ _ E1)].
    cbn [rbind].
    apply index_Ok_length in E1.
    apply Exists_cons in Hex as [Hx|Hex]; [lia|].
    now rewrite (IH Hex).
  - apply Nat.ltb_ge in El.
    apply Exists_cons in Hex as [Hx|Hex]; [lia|]. now apply IH.
Qed.

Lemma rewrite_file_short (old_text : string) (macros : list (list string)) :
  Exists (fun macro => length macro < 2) macros ->
  rewrite_file old_text macros = Raise IndexError.
Proof.
  intros Hex. unfold rewrite_file.
  destruct (rewrite_lines (readlines old_text) macros) as [[ms body]|e] eqn:E.
  - cbn [rbind].
    pose proof (marks_keep_short _ _ (rewrite_lines_marks _ _ _ E) Hex)
      as Hms.
    simpl in Hms. now rewrite (append_unused_short _ Hms).
  - now rewrite (rewrite_lines_raise _ _ _ E).
Qed.

End Marks.

(** X17. The macro lists that the code itself builds are safe for the macro
    updater: for the entries of a macro file as [parse_macro_file] makes
    them, and for a list of pairs extended by [get_macro_replace_from_file],
    the rewriting of a file never raises. Conversely, a list that holds an
    entry with fewer than two elements (a key only, or nothing) makes the
    rewriting of every file raise [IndexError]. *)
Theorem parsed_macros_never_raise (old_text : string) :
  (forall text,
     ConfigInjector.rewrite_file old_text (ConfigParser.macros_of_text text)
     = Ok (Described.marks_after old_text (ConfigParser.macros_of_text text),
           Described.rewritten old_text (ConfigParser.macros_of_text text)))
  /\ (forall macro_list path d,
        Forall Described.has_pair macro_list ->
        exists macros,
          fst (ConfigInjector.get_macro_replace_from_file macro_list path d)
          = Ok macros
          /\ ConfigInjector.rewrite_file old_text macros
             = Ok (Described.marks_after old_text macros,
                   Described.rewritten old_text macros))
  /\ (forall macros,
        Exists (fun macro => length macro < 2) macros ->
        ConfigInjector.rewrite_file old_text macros = Raise IndexError).
Proof.
  split; [|split].
  - intros text. apply rewrite_file_rewritten, macros_of_text_entries.
  - intros macro_list path d Hwf.
    destruct (macro_replace_from_file_pairs macro_list path d)
      as (new & E & Hnew).
    exists (macro_list ++ new)%list. split; [exact E|].
    apply rewrite_file_rewritten, Forall_app. now split.
  - intros macros Hshort. now apply rewrite_file_short.
Qed.

Lemma parsed_macros_never_raise_witness :
  ConfigInjector.rewrite_file ("Z=1" +:+ nl) [["B"; "x"]; ["AB"]]
  = Raise IndexError.
Proof.
  apply (proj2 (proj2 (parsed_macros_never_raise ("Z=1" +:+ nl)))).
  apply Exists_cons_tl, Exists_cons_hd. simpl. lia.
Defined.

(** X23. Whatever files a call of [update_macros] goes through, when it
    returns the macro list has the same entries in the same order, each
    either untouched or a key and value pair with a single [DONE] appended:
    no entry is removed, reordered or marked twice. *)
Theorem update_macros_only_marks (self : ConfigInjector.t)
    (macros macros' : list (list string)) (target_dir : string) (d d' : fs) :
  ConfigInjector.update_macros self macros target_dir d = (Ok macros', d') ->
  Forall2 Described.marked_once macros macros'
  /\ length macros' = length macros.
Proof.
  intros H.
  assert (F : Forall2 Described.marked_once macros macros').
  { revert H.
    unfold ConfigInjector.update_macros, bind, OS.path_exists, OS.isdir.
    destruct (bool_decide _ && _); [|intros [= <- _]; apply marks_refl].
    destruct (bool_decide _).
    - simpl. destruct (OS.listdir target_dir d) as [[files|e] d1];
        [|discriminate].
      apply update_files_marks.
    - destruct (OS.mkdir _ d) as [[[]|e] d0]; [|discriminate].
      destruct (OS.listdir target_dir d0) as [[files|e] d1]; [|discriminate].
      apply update_files_marks. }
  split; [exact F|]. symmetry. exact (Forall2_length _ _ _ F).
Qed.

Lemma update_macros_only_marks_witness :
  Forall2 Described.marked_once Examples.macro_list
    [["B"; "x"; "DONE"]; ["AB"; "y"; "DONE"]; ["Q"; "1"; "2"]; ["N"; "n"]].
Proof.
  refine (proj1 (update_macros_only_marks Examples.engine Examples.macro_list
                   _ "/ad/configure" Examples.configure_dir
                   (snd (ConfigInjector.update_macros Examples.engine
                           Examples.macro_list "/ad/configure"
                           Examples.configure_dir)) _)).
  apply run_returns. vm_compute. reflexivity.
Defined.

(** X24. Once every entry of the list is consumed, as a call leaves it when
    each key occurred in some file, the updater writes no macro any more: a
    file is rewritten to its own lines, stripped, every one that is not a
    comment turned into a comment (the settings written by the earlier call
    included), and nothing is appended. *)
Theorem all_consumed_comments_everything (old_text : string)
    (macros : list (list string)) :
  Forall (fun m => 3 <= length m) macros ->
  ConfigInjector.rewrite_file old_text macros =
  Ok (macros,
      Described.text_of
        ((fun raw => Described.kept_line (strip raw)) <$> readlines old_text)).
Proof.
  intros H.
  rewrite rewrite_file_rewritten
    by (eapply Forall_impl; [exact H|];
        intros m Hm; unfold Described.has_pair; cbv beta in Hm; lia).
  unfold Described.rewritten, Described.marks_after.
  rewrite (all_per_line_consumed _ _ H). simpl.
  destruct (consumed_no_hit EmptyString macros H) as (_ & _ & ->).
  simpl. now rewrite append_empty_r.
Qed.

Lemma all_consumed_comments_everything_witness :
  ConfigInjector.rewrite_file ("# site" +:+ nl +:+ "AB=y" +:+ nl)
    [["AB"; "y"; "DONE"]]
  = Ok ([["AB"; "y"; "DONE"]], "# site" +:+ nl +:+ "#AB=y" +:+ nl).
Proof.
  rewrite (all_consumed_comments_everything ("# site" +:+ nl +:+ "AB=y" +:+ nl)
             [["AB"; "y"; "DONE"]]).
  - reflexivity.
  - repeat constructor.
Defined.

Section ScriptRows.

Import Script.

Lemma version_pieces (pre post : string) :
  count_chr "$" pre = 0 -> count_chr ")" pre = 0 -> count_chr ")" post = 0 ->
  contains (pre +:+ "$(VERSION)" +:+ post) "$(VERSION)" = true
  /\ index (split_chr "$" (pre +:+ "$(VERSION)" +:+ post)) 0 = Ok pre
  /\ index (split_chr ")" (pre +:+ "$(VERSION)" +:+ post)) 1 = Ok post.
Proof.
  intros Hd Hp Hpost. split; [apply contains_compose|]. split.
  - change (pre +:+ "$(VERSION)" +:+ post)
      with (pre +:+ String "$" ("(VERSION)" +:+ post)).
    now rewrite split_chr_app_sep.
  - pose proof (macro_tail pre "$(VERSION" post Hp eq_refl Hpost) as Ht.
    exact Ht.
Qed.

End ScriptRows.

(** X25. [module_from_line] returns the columns of the row with the path
    column expanded, [$(VERSION)] in the fourth column replaced by the
    version column (the text before the macro and after it kept), and the
    URL and the URL type appended after the last column. *)
Theorem module_from_line_columns (line install_dir current_url url_type
    n v p r pre post : string) (rest : list string)
    (rows : list (list Script.pyval)) (p' : Script.pyval) :
  split_chr " " (squeeze_spaces line) = n :: v :: p :: r :: rest ->
  Script.expand_module_path p rows install_dir = Ok p' ->
  r = pre +:+ "$(VERSION)" +:+ post ->
  count_chr "$" pre = 0 -> count_chr ")" pre = 0 -> count_chr ")" post = 0 ->
  Script.module_from_line line rows install_dir current_url url_type
  = Ok ([Script.PStr n; Script.PStr v; p'; Script.PStr (pre +:+ v +:+ post)]
        ++ (Script.PStr <$> rest)
        ++ [Script.PStr current_url; Script.PStr url_type])%list.
Proof.
  intros Hfields Hp Hr Hd Hpre Hpost.
  destruct (version_pieces pre post Hd Hpre Hpost) as (Hc & H0 & H1).
  rewrite <- Hr in Hc, H0, H1.
  unfold Script.module_from_line. rewrite Hfields.
  change (index (n :: v :: p :: r :: rest) 2) with (Ok p).
  change (index (n :: v :: p :: r :: rest) 3) with (Ok r).
  change (index (n :: v :: p :: r :: rest) 1) with (Ok v).
  cbn [rbind]. rewrite Hp. cbn [rbind]. rewrite Hc, H0. cbn [rbind].
  rewrite H1. reflexivity.
Qed.

Lemma module_from_line_columns_witness :
  Script.module_from_line
    "ADCORE R3-6 $(INSTALL)/ADCore ADCore-$(VERSION).tgz YES" []
    "/epics/test" "https://host/" "WGET_URL"
  = Ok (Script.PStr <$>
          ["ADCORE"; "R3-6"; "/epics/test/ADCore"; "ADCore-R3-6.tgz"; "YES";
           "https://host/"; "WGET_URL"]).
Proof.
  exact (module_from_line_columns
           "ADCORE R3-6 $(INSTALL)/ADCore ADCore-$(VERSION).tgz YES"
           "/epics/test" "https://host/" "WGET_URL"
           "ADCORE" "R3-6" "$(INSTALL)/ADCore" "ADCore-$(VERSION).tgz"
           "ADCore-" ".tgz" ["YES"] [] (Script.PStr "/epics/test/ADCore")
           eq_refl eq_refl eq_refl eq_refl eq_refl eq_refl).
Defined.

Section LateFailures.

Import ConfigParser Described.

Lemma with_root_missing (d : fs) (loc p : string) :
  d !! p = None -> loc <> p -> with_root d loc !! p = None.
Proof.
  unfold with_root. intros Hp Hne.
  destruct (d !! loc) eqn:Eloc; [exact Hp|].
  unfold OS.mkdir, OS.create.
  destruct (d !! OS.parent loc) as [[c|[|] es]|] eqn:Epar; simpl;
    try exact Hp.
  rewrite lookup_insert_ne by exact Hne.
  rewrite lookup_insert_ne by congruence. exact Hp.
Qed.

Lemma with_root_created (d : fs) (loc : string) :
  usable_root d loc = true -> d !! loc = None ->
  with_root d loc !! loc = Some (Dir true []).
Proof.
  unfold usable_root, with_root. intros Hu Hloc. rewrite Hloc in *.
  unfold OS.mkdir, OS.create.
  destruct (d !! OS.parent loc) as [[c|[|] es]|]; try discriminate.
  simpl. apply lookup_insert_eq.
Qed.

Lemma contains_tail (s a m : string) :
  contains s (a +:+ m) = true -> contains s m = true.
Proof.
  intros H. destruct (contains_decompose _ _ H) as (x & y & ->).
  replace (x +:+ (a +:+ m) +:+ y) with ((x +:+ a) +:+ m +:+ y)
    by (now rewrite !append_assoc).
  apply contains_compose.
Qed.

(** the texts of the regular files among [files] in the directory [dir] *)
Lemma for_regular_files_macros (configure_path : string) (d : fs)
    (files : list string) (cfg : InstallConfiguration) :
  exists cfg',
    for_regular_files (configure_path +:+ "/macroFiles/")
      (parse_macro_file configure_path) files cfg d = (Ok cfg', d)
    /\ same_modules cfg cfg'
    /\ build_flags cfg' =
       (build_flags cfg ++
          concat (macros_of_text <$>
                    omap (fun file =>
                            match d !! (configure_path +:+ "/macroFiles/"
                                        +:+ file) with
                            | Some (File text) => Some text
                            | _ => None
                            end) files))%list.
Proof.
  revert cfg. induction files as [|file files IH]; intros cfg; simpl.
  - exists cfg. rewrite app_nil_r. repeat split.
  - unfold bind, OS.isfile.
    replace ((configure_path +:+ "/macroFiles/") +:+ file)
      with (configure_path +:+ "/macroFiles/" +:+ file)
      by (now rewrite append_assoc).
    destruct (d !! (configure_path +:+ "/macroFiles/" +:+ file))
      as [[text|w es]|] eqn:E; try apply IH.
    unfold parse_macro_file at 1. unfold bind, OS.read_file. rewrite E.
    unfold ret.
    destruct (IH (add_macros cfg (macros_of_text text)))
      as (cfg' & -> & [Hm Hl] & Hb).
    exists cfg'. split; [reflexivity|]. split; [now split|].
    rewrite Hb. simpl. now rewrite <- app_assoc.
Qed.

End LateFailures.

(** X26. The directive directories are read after the manifest: with a
    manifest that parses (an [INSTALL=] line, then rows of six fields or
    more) and no [injectionFiles] directory in the configure path, [parse_install_config] ends with [FileNotFoundError],
    uncaught, after the side effect of the [INSTALL=] line: an install root
    that was missing has been created and is left on the disk. *)
Theorem missing_injection_directory_fails_late
    (configure_path config_filename : string)
    (force_location : option string) (allow_illegal : bool)
    (text : string) (d : fs) (pre post : list string)
    (install_raw : string) :
  let root := Described.install_root force_location install_raw in
  d !! (configure_path +:+ "/" +:+ config_filename) = Some (File text) ->
  readlines text = (pre ++ install_raw :: post)%list ->
  Forall (fun raw => Described.preamble_line raw = true) pre ->
  Described.install_line install_raw = true ->
  Forall (fun raw => Described.body_line raw = true) post ->
  Described.usable_root d root = true ->
  d !! (configure_path +:+ "/injectionFiles") = None ->
  root <> configure_path +:+ "/injectionFiles" ->
  ConfigParser.parse_install_config configure_path config_filename
    force_location allow_illegal d
  = (Raise FileNotFoundError, Described.with_root d root)
  /\ (d !! root = None ->
      Described.with_root d root !! root = Some (Dir true [])).
Proof.
  intros root Hfile Hlines Hpre Hinst Hpost Hroot Hinj Hne.
  split; [|now apply with_root_created].
  rewrite (parse_install_config_loop _ _ _ _ _ _ Hfile), Hlines.
  destruct (parse_lines_preamble configure_path force_location allow_illegal
              pre (ConfigParser.mkLocals None "" "" "") d Hpre)
    as (l0 & E0 & _ & _).
  rewrite (parse_lines_app _ _ _ _ _ _ _ _ _ E0).
  cbn [ConfigParser.parse_lines]. unfold bind at 1.
  rewrite (parse_line_install _ _ _ _ _ _ Hinst Hroot). fold root.
  destruct (parse_lines_body configure_path force_location allow_illegal
              post
              (ConfigParser.mkLocals (Some (new_config root configure_path))
                 (ConfigParser.current_url l0)
                 (ConfigParser.current_url_type l0) (ConfigParser.message l0))
              (new_config root configure_path)
              (Described.with_root d root) Hpost eq_refl)
    as (l' & cfg' & -> & Hc & _).
  rewrite Hc. unfold ConfigParser.read_injector_files, bind, OS.listdir.
  now rewrite (with_root_missing _ _ _ Hinj Hne).
Qed.

Lemma missing_injection_directory_fails_late_witness :
  let d := delete "/cfg/injectionFiles"
             (Examples.manifest_disk Examples.manifest) in
  let r := ConfigParser.parse_install_config "/cfg" "INSTALL_CONFIG" None
             false d in
  fst r = Raise FileNotFoundError
  /\ d !! "/epics/test" = None
  /\ snd r !! "/epics/test" = Some (Dir true []).
Proof.
  intros d r.
  destruct (missing_injection_directory_fails_late "/cfg" "INSTALL_CONFIG"
              None false Examples.manifest d
              ["# modules of the test installation" +:+ nl; nl]
              ["GIT_URL=https://github.com/dummyurl/test/" +:+ nl;
               "EPICS_BASE     R7.0.2.2  $(INSTALL)/base  base  YES  YES"
                 +:+ nl;
               "SUPPORT R6-0 $(INSTALL)/support"
                 +:+ String "009" "support YES YES" +:+ nl;
               "AREA_DETECTOR R3-6 $(SUPPORT)/areaDetector ad YES NO" +:+ nl]
              ("INSTALL=/epics/test" +:+ nl)) as [E Hmade].
  - vm_compute. reflexivity.
  - vm_compute. reflexivity.
  - repeat constructor.
  - vm_compute. reflexivity.
  - repeat constructor.
  - vm_compute. reflexivity.
  - vm_compute. reflexivity.
  - discriminate.
  - subst r. rewrite E. split; [reflexivity|].
    split; [vm_compute; reflexivity|].
    apply Hmade. vm_compute. reflexivity.
Defined.

(** X27. A key is looked for as a substring: an unconsumed pair is
    substituted on every line in which its key followed by [=] occurs
    anywhere, also as the tail of a longer name, and the whole line is then
    replaced by the pair's own [key=value]. *)
Theorem key_matches_inside_longer_name (raw a k v : string) :
  contains (strip raw) (a +:+ k +:+ "=") = true ->
  ConfigInjector.rewrite_lines [raw] [[k; v]]
  = Ok ([[k; v; "DONE"]], ConfigInjector.macro_line k v).
Proof.
  intros H. apply contains_tail in H.
  cbn [ConfigInjector.rewrite_lines ConfigInjector.scan_macros].
  unfold index. simpl. rewrite H. simpl. now rewrite !append_empty_r.
Qed.

Lemma key_matches_inside_longer_name_witness :
  ConfigInjector.rewrite_lines ["EPICS_BASE=/usr/lib/epics" +:+ nl]
    [["BASE"; "/epics/test/base"]]
  = Ok ([["BASE"; "/epics/test/base"; "DONE"]],
        "BASE=/epics/test/base" +:+ nl).
Proof.
  exact (key_matches_inside_longer_name ("EPICS_BASE=/usr/lib/epics" +:+ nl)
           "EPICS_" "BASE" "/epics/test/base" eq_refl).
Defined.

(** X28. The target is opened and the start marker written before the
    fragment is opened: when the fragment's file is missing,
    [inject_to_file] fails with [FileNotFoundError] and an existing target is
    left with the start marker after its content, without lines and without
    end marker. *)
Theorem inject_missing_fragment_leaves_marker (self : ConfigInjector.t)
    (injector_file_path link old : string) (d : fs) :
  let target := convert_path_abs (ConfigInjector.install_config self) link in
  ConfigInjector.get_injector_file_link self injector_file_path = Ok link ->
  d !! target = Some (File old) ->
  d !! injector_file_path = None ->
  ConfigInjector.inject_to_file self injector_file_path d
  = (Raise FileNotFoundError,
     <[target := File (old +:+ ConfigInjector.start_marker)]> d).
Proof.
  intros target Hlink Htarget Hnone.
  unfold ConfigInjector.inject_to_file, bind, lift. rewrite Hlink.
  fold target. unfold OS.open_append. rewrite Htarget.
  rewrite (write_file _ _ _ _ Htarget). unfold OS.read_file.
  rewrite lookup_insert_ne by congruence. now rewrite Hnone.
Qed.

Lemma inject_missing_fragment_leaves_marker_witness :
  let d := <[Examples.release_target := File ("# local" +:+ nl)]>
             Examples.injection_disk in
  ConfigInjector.inject_to_file Examples.ad_engine
    "/cfg/missing/AD_RELEASE_CONFIG" d
  = (Raise FileNotFoundError,
     <[Examples.release_target :=
         File (("# local" +:+ nl) +:+ ConfigInjector.start_marker)]> d).
Proof.
  intros d.
  apply (inject_missing_fragment_leaves_marker Examples.ad_engine
           "/cfg/missing/AD_RELEASE_CONFIG"
           "$(AREA_DETECTOR)/configure/RELEASE_PRODS.local"
           ("# local" +:+ nl) d).
  - reflexivity.
  - vm_compute. reflexivity.
  - vm_compute. reflexivity.
Defined.

(** X29. [read_build_flags] attaches the entries of every regular file of
    [macroFiles], file after file in listing order, after the entries the
    configuration already has; sub-directories are passed over, the modules
    and the disk are left as they are, and the pass never fails once the
    directory is there. *)
Theorem read_build_flags_concatenates (configure_path : string)
    (cfg : InstallConfiguration) (d : fs) (w : bool) (files : list string) :
  d !! (configure_path +:+ "/macroFiles") = Some (Dir w files) ->
  exists cfg',
    ConfigParser.read_build_flags configure_path (Some cfg) d
    = (Ok (Some cfg'), d)
    /\ modules cfg' = modules cfg
    /\ build_flags cfg' =
       (build_flags cfg ++
          concat (ConfigParser.macros_of_text <$>
                    omap (fun file =>
                            match d !! (configure_path +:+ "/macroFiles/"
                                        +:+ file) with
                            | Some (File text) => Some text
                            | _ => None
                            end) files))%list.
Proof.
  intros Hdir.
  unfold ConfigParser.read_build_flags, bind, OS.listdir. rewrite Hdir.
  destruct (for_regular_files_macros configure_path d files cfg)
    as (cfg' & -> & [Hm _] & Hb).
  exists cfg'. repeat split; assumption.
Qed.

Lemma read_build_flags_concatenates_witness :
  exists cfg',
    fst (ConfigParser.read_build_flags "/cfg" (Some Examples.test_config)
           (Examples.manifest_disk Examples.manifest))
    = Ok (Some cfg')
    /\ build_flags cfg' = [["JPEG_EXTERNAL"; "NO"]].
Proof.
  destruct (read_build_flags_concatenates "/cfg" Examples.test_config
              (Examples.manifest_disk Examples.manifest) true
              ["BUILD_FLAG_CONFIG"]) as (cfg' & E & _ & Hb).
  - vm_compute. reflexivity.
  - exists cfg'. rewrite E. split; [reflexivity|].
    rewrite Hb. vm_compute. reflexivity.
Defined.
